(** * Selection, reconciliation and opposition-notice templates

    A shallow embedding of the client-side logic of the trademark
    similarity dashboard:

    - [components/tabs/ReportGenerationTab.tsx] (the report details page:
      selection set, index reconciliation, derived views, score display,
      hand-over through [sessionStorage]);
    - [app/report/[reportId]/email-templates/page.tsx] (the template page:
      loading from [sessionStorage], grouping by applicant, rendering);
    - the upload tab ([PDFProcessingTab]): the Mondays it offers and the
      date text it sends for the one chosen.

    Conventions of the embedding.

    - A JavaScript string is a [string]: a sequence of code units, each
      below 256 (the Latin-1 range; the texts the code manipulates here are
      ASCII labels, names and file names).
    - A JavaScript number that holds a score is a binary64 [float]
      (Rocq's primitive floats are IEEE 754 binary64, as JavaScript's are).
      Array positions and page numbers are integers ([nat], [Z]).
    - [undefined] and [null] in an optional field are [None], except in
      the two optional fields of a match that the code compares with
      [===], which tells them apart ([JsField]).
    - The arrays of matches are taken without [null] elements, except in
      [Nullable], which is the reconciliation and rendering code on
      arrays that hold one.
    - A [Set<string>] is the list of its members in insertion order, without
      repetition; a [Map] is an association list in insertion order.
    - [console.warn] / [alert] are collected in an explicit log. *)

From Stdlib Require Import ZArith List String Ascii Bool Arith Lia.
From Stdlib Require Import Floats Permutation Sorted.
From Stdlib Require Import DecimalString DecimalNat.
From Stdlib Require DecimalPos.
Import ListNotations.

Open Scope list_scope.
Open Scope string_scope.

(* ================================================================== *)
(** ** Platform: strings *)
(* ================================================================== *)

Module JsString.

(** White space of [String.prototype.trim] and of the regular
    expression class [\s], restricted to code units below 256:
    TAB, LF, VT, FF, CR, SPACE and NBSP. *)
Definition isWhiteSpace (c : ascii) : bool :=
  let n := N_of_ascii c in
  ((9 <=? n) && (n <=? 13) || (n =? 32) || (n =? 160))%N.

Definition isDigit (c : ascii) : bool :=
  let n := N_of_ascii c in ((48 <=? n) && (n <=? 57))%N.

Fixpoint trimStart (s : string) : string :=
  match s with
  | EmptyString => EmptyString
  | String c r => if isWhiteSpace c then trimStart r else s
  end.

Fixpoint trimEnd (s : string) : string :=
  match s with
  | EmptyString => EmptyString
  | String c r =>
      match trimEnd r with
      | EmptyString => if isWhiteSpace c then EmptyString else String c EmptyString
      | r' => String c r'
      end
  end.

(** [s.trim()] *)
Definition trim (s : string) : string := trimEnd (trimStart s).

(** [s.startsWith(p)] *)
Definition startsWith (p s : string) : bool := String.prefix p s.

(** [s.substring(n)] for [n] within the string: drop [n] code units. *)
Fixpoint substringFrom (n : nat) (s : string) : string :=
  match n, s with
  | O, _ => s
  | S n', String _ r => substringFrom n' r
  | S _, EmptyString => EmptyString
  end.

(** [hay.includes(needle)] *)
Fixpoint includes (needle hay : string) : bool :=
  if String.prefix needle hay then true
  else match hay with
       | EmptyString => false
       | String _ r => includes needle r
       end.

(** [String(n)] for a non-negative integer. *)
Definition ofNat (n : nat) : string :=
  NilEmpty.string_of_uint (Nat.to_uint n).

(** [String(z)] for an integer. *)
Definition ofZ (z : Z) : string :=
  NilEmpty.string_of_int (Z.to_int z).

(** Every code unit of [s] satisfies [p]. *)
Fixpoint allChars (p : ascii -> bool) (s : string) : bool :=
  match s with
  | EmptyString => true
  | String c r => p c && allChars p r
  end.

(** The first and the last code unit of a string, if any. *)
Definition firstChar (s : string) : option ascii :=
  match s with
  | EmptyString => None
  | String c _ => Some c
  end.

Fixpoint lastChar (s : string) : option ascii :=
  match s with
  | EmptyString => None
  | String c EmptyString => Some c
  | String _ r => lastChar r
  end.

(** [args.join(' ')]: how the console shows several arguments. *)
Fixpoint joinSpace (l : list string) : string :=
  match l with
  | [] => ""
  | [x] => x
  | x :: r => x ++ " " ++ joinSpace r
  end.

End JsString.

(* ================================================================== *)
(** ** Platform: arrays and the console *)
(* ================================================================== *)

Module JsArray.

(** [arr.findIndex(p)]; [None] is the result [-1]. *)
Fixpoint findIndex {A : Type} (p : A -> bool) (l : list A) : option nat :=
  match l with
  | [] => None
  | x :: r => if p x then Some 0 else option_map S (findIndex p r)
  end.

(** [arr.map((x, i) => f x i)], positions counted from [i]. *)
Fixpoint mapi_from {A B : Type} (f : A -> nat -> B) (i : nat) (l : list A) : list B :=
  match l with
  | [] => []
  | x :: r => f x i :: mapi_from f (S i) r
  end.

Definition mapi {A B : Type} (f : A -> nat -> B) (l : list A) : list B :=
  mapi_from f 0 l.

End JsArray.

(** A computation that writes to the console: its value and the lines
    it logged, oldest first. *)
Definition Console (A : Type) : Type := (A * list string)%type.

Definition ret {A : Type} (a : A) : Console A := (a, []).

Definition warn (args : list string) : Console unit :=
  (tt, [JsString.joinSpace args]).

Definition bind {A B : Type} (m : Console A) (k : A -> Console B) : Console B :=
  let (a, l1) := m in
  let (b, l2) := k a in
  (b, (l1 ++ l2)%list).

Notation "x <- m ;; k" := (bind m (fun x => k))
  (at level 61, m at next level, right associativity).
Notation "m ;;; k" := (bind m (fun _ => k))
  (at level 61, right associativity).

(** [arr.map(f)] where [f] may log. *)
Fixpoint mapConsole {A B : Type} (f : A -> Console B) (l : list A) : Console (list B) :=
  match l with
  | [] => ret []
  | x :: r => y <- f x ;; ys <- mapConsole f r ;; ret (y :: ys)
  end.

(* ================================================================== *)
(** ** Data model *)
(* ================================================================== *)

Inductive TrademarkType : Type := image_based | text_only.

(** An optional text property of a match as it arrives from JSON: the
    key is missing ([undefined]), holds [null], or holds a string.
    Optional chaining, [||] and the truth test treat [undefined] and
    [null] alike ([value]); [===] tells them apart. *)
Module JsField.
Inductive t : Type := undefined | null | text (s : string).

Definition value (f : t) : option string :=
  match f with
  | text s => Some s
  | undefined | null => None
  end.
End JsField.

Module SimilarTrademark.
Record t : Type := mk {
  mark : string;
  similarity_score : float;
  vector_similarity_score : option float;
  text_similarity_score : option float;
  trademark_class : JsField.t;
  applicant_name : JsField.t;
  application_no : option string;
  image_path : option string;
  trademark_type : option TrademarkType
}.
End SimilarTrademark.

Module JournalTrademarkEntry.
Record t : Type := mk {
  trademark_type : TrademarkType;
  mark_name : option string;
  mark : option string;
  trademark_class : option string;
  applicant_name : option string;
  application_no : option string;
  pdf_source : option string;
  page_number : option Z;
  image_path : option string;
  similar_trademarks : option (list SimilarTrademark.t);
  similar_trademark : option (list SimilarTrademark.t);
  similarities : option (list SimilarTrademark.t);
  matches : option (list SimilarTrademark.t)
}.
End JournalTrademarkEntry.

Definition Sim : Type := SimilarTrademark.t.
Definition Entry : Type := JournalTrademarkEntry.t.

(** [a || b] on optional arrays: an array, even an empty one, is truthy;
    only [undefined] and [null] fall through. *)
Definition orElse {A : Type} (a b : option A) : option A :=
  match a with
  | Some _ => a
  | None => b
  end.

(** [entry?.similar_trademarks || entry?.similar_trademark ||
     entry?.similarities || entry?.matches || []]
    (the same expression at every use in the report page). *)
Definition similarTrademarksOf (entry : Entry) : list Sim :=
  match orElse (JournalTrademarkEntry.similar_trademarks entry)
       (orElse (JournalTrademarkEntry.similar_trademark entry)
       (orElse (JournalTrademarkEntry.similarities entry)
               (JournalTrademarkEntry.matches entry))) with
  | Some l => l
  | None => []
  end.

(** The reading of the data model's sentence "the first non-empty one
    found is authoritative", for comparison with [similarTrademarksOf]. *)
Definition spec_firstNonEmpty (entry : Entry) : list Sim :=
  let nonEmpty (o : option (list Sim)) :=
    match o with
    | Some (x :: r) => true
    | _ => false
    end in
  match find nonEmpty
          [JournalTrademarkEntry.similar_trademarks entry;
           JournalTrademarkEntry.similar_trademark entry;
           JournalTrademarkEntry.similarities entry;
           JournalTrademarkEntry.matches entry] with
  | Some (Some l) => l
  | _ => []
  end.

(* ================================================================== *)
(** ** Scores *)
(* ================================================================== *)

Module Score.

Open Scope float_scope.

(** The literal [0.0001], as the nearest binary64 value. *)
Definition epsilon : float := 0x1.a36e2eb1c432dp-14.
(** The literal [0.3]. *)
Definition minThresholdDefault : float := 0x1.3333333333333p-2.

(** [x || 0]: [NaN], [0] and [-0] are falsy. *)
Definition orZero (x : float) : float :=
  if (is_nan x || is_zero x)%bool then 0 else x.

(** [Math.abs((a || 0) - (b || 0)) < 0.0001] *)
Definition close (a b : float) : bool :=
  abs (orZero a - orZero b) <? epsilon.

(** [score > 1 ? score / 100 : score] *)
Definition normalize (score : float) : float :=
  if 1 <? score then score / 100 else score.

End Score.

(* ================================================================== *)
(** ** Index reconciliation *)
(* ================================================================== *)

(** [a === b] on an optional text property: [undefined] equals only
    [undefined], [null] only [null], a string the same string. *)
Definition optStringEqb (a b : JsField.t) : bool :=
  match a, b with
  | JsField.text x, JsField.text y => String.eqb x y
  | JsField.undefined, JsField.undefined => true
  | JsField.null, JsField.null => true
  | _, _ => false
  end.

(** The callback of [findIndex] in the similar-trademarks table
    (mark, score within tolerance, applicant). *)
Definition sameSimTable (sim s : Sim) : bool :=
  String.eqb (SimilarTrademark.mark s) (SimilarTrademark.mark sim)
  && Score.close (SimilarTrademark.similarity_score s) (SimilarTrademark.similarity_score sim)
  && optStringEqb (SimilarTrademark.applicant_name s) (SimilarTrademark.applicant_name sim).

(** The callback of [findIndex] in the applicant-filtered view
    (mark, score within tolerance, applicant, class). *)
Definition sameSimApplicantView (sim s : Sim) : bool :=
  String.eqb (SimilarTrademark.mark s) (SimilarTrademark.mark sim)
  && Score.close (SimilarTrademark.similarity_score s) (SimilarTrademark.similarity_score sim)
  && optStringEqb (SimilarTrademark.applicant_name s) (SimilarTrademark.applicant_name sim)
  && optStringEqb (SimilarTrademark.trademark_class s) (SimilarTrademark.trademark_class sim).

(** [actualSimIndex] of the table: the position of [sim] in the entry's
    original sequence, recovered by value. *)
Definition actualSimIndexTable (entrySimilarTrademarks : list Sim) (sim : Sim) : option nat :=
  JsArray.findIndex (sameSimTable sim) entrySimilarTrademarks.

(** [actualSimIndex] of the applicant-filtered view. *)
Definition actualSimIndexApplicantView (similarTrademarksForEntry : list Sim) (sim : Sim) : option nat :=
  JsArray.findIndex (sameSimApplicantView sim) similarTrademarksForEntry.

(* ================================================================== *)
(** ** Platform: number formatting *)
(* ================================================================== *)

Module JsNumber.

Fixpoint zeros (n : nat) : string :=
  match n with
  | O => ""
  | S n' => String "0" (zeros n')
  end.

Fixpoint takeChars (n : nat) (s : string) : string :=
  match n, s with
  | S n', String c r => String c (takeChars n' r)
  | _, _ => ""
  end.

(** Steps 9 and 10 of [Number.prototype.toFixed]: the decimal digits of
    the integer [n], padded on the left to at least [f + 1] digits, with
    a point before the last [f] digits. *)
Definition digitsWithPoint (f : nat) (n : Z) : string :=
  let m := JsString.ofZ n in
  match f with
  | O => m
  | S _ =>
      let k := String.length m in
      let m := if (k <=? f)%nat then zeros (f + 1 - k) ++ m else m in
      let k := String.length m in
      takeChars (k - f) m ++ "." ++ JsString.substringFrom (k - f) m
  end.

(** The integer [n] for which [n / 10^f] is closest to [m * 2^e],
    the larger one on a tie. *)
Definition nearestScaled (f : nat) (m e : Z) : Z :=
  let num := (m * 10 ^ Z.of_nat f)%Z in
  if (0 <=? e)%Z then (num * 2 ^ e)%Z
  else let den := (2 ^ (- e))%Z in ((2 * num + den) / (2 * den))%Z.

(** [x.toFixed(f)].  [None] stands for the branch of values of magnitude
    1e21 and above, whose text is that of [Number::toString] (an
    exponent form that this development does not spell out). *)
Definition toFixed (f : nat) (x : float) : option string :=
  match Prim2SF x with
  | S754_nan => Some "NaN"
  | S754_infinity s => Some (if s then "-Infinity" else "Infinity")
  | S754_zero _ => Some (digitsWithPoint f 0)
  | S754_finite s m e =>
      if (1e21 <=? abs x)%float then None
      else Some ((if s then "-" else "") ++ digitsWithPoint f (nearestScaled f (Z.pos m) e))
  end.

End JsNumber.

(** [`${(value * 100).toFixed(1)}%`] *)
Definition formatPercentage (value : float) : option string :=
  option_map (fun s => s ++ "%") (JsNumber.toFixed 1 (value * 100)%float).

(* ================================================================== *)
(** ** Selection set *)
(* ================================================================== *)

(** [`${entryIndex}-${simIndex}`] *)
Definition trademarkId (entryIndex simIndex : nat) : string :=
  JsString.ofNat entryIndex ++ "-" ++ JsString.ofNat simIndex.

Module JsSet.

(** A [Set<string>]: its members in insertion order. *)
Definition t : Type := list string.

Definition empty : t := [].

Definition has (s : t) (k : string) : bool := existsb (String.eqb k) s.

Definition add (k : string) (s : t) : t := if has s k then s else (s ++ [k])%list.

Definition delete (k : string) (s : t) : t :=
  filter (fun x => negb (String.eqb x k)) s.

Definition size (s : t) : nat := List.length s.

End JsSet.

(** [handleTrademarkSelect(entryIndex, simIndex, checked)], as the state
    update it passes to [setSelectedTrademarks]. *)
Definition handleTrademarkSelect (entryIndex simIndex : nat) (checked : bool)
    (prev : JsSet.t) : JsSet.t :=
  let trademarkId := trademarkId entryIndex simIndex in
  let newSet := prev in
  if checked then JsSet.add trademarkId newSet
  else JsSet.delete trademarkId newSet.

(** A call of [handleTrademarkSelect]. *)
Record SelectCall : Type := mkCall {
  call_entryIndex : nat;
  call_simIndex : nat;
  call_checked : bool
}.

Definition applyCall (prev : JsSet.t) (c : SelectCall) : JsSet.t :=
  handleTrademarkSelect (call_entryIndex c) (call_simIndex c) (call_checked c) prev.

(** The selection after a sequence of calls, oldest first. *)
Definition applyCalls (calls : list SelectCall) (s : JsSet.t) : JsSet.t :=
  fold_left applyCall calls s.

(** How many calls of a sequence address the key of [(e, i)]. *)
Definition callsOn (e i : nat) (calls : list SelectCall) : nat :=
  List.length (filter (fun c => (call_entryIndex c =? e)%nat && (call_simIndex c =? i)%nat) calls).

(** A click on the checkbox of one match.  The checkbox is controlled
    ([checked={isSelected}]), so [e.target.checked] in [onChange] is the
    negation of the membership the row was rendered with. *)
Definition clickCheckbox (prev : JsSet.t) (pos : nat * nat) : JsSet.t :=
  let (entryIndex, simIndex) := pos in
  handleTrademarkSelect entryIndex simIndex
    (negb (JsSet.has prev (trademarkId entryIndex simIndex))) prev.

Definition clickCheckboxes (clicks : list (nat * nat)) (s : JsSet.t) : JsSet.t :=
  fold_left clickCheckbox clicks s.

Definition clicksOn (e i : nat) (clicks : list (nat * nat)) : nat :=
  List.length (filter (fun p => (fst p =? e)%nat && (snd p =? i)%nat) clicks).

(* ================================================================== *)
(** ** Derived views of an entry's matches *)
(* ================================================================== *)

(** [getFilteredSimilarTrademarks(similarTrademarks, minThreshold)] *)
Definition getFilteredSimilarTrademarks (similarTrademarks : list Sim)
    (minThreshold : float) : list Sim :=
  filter (fun sim =>
            let score := SimilarTrademark.similarity_score sim in
            let normalizedScore := Score.normalize score in
            (minThreshold <=? normalizedScore)%float)
         similarTrademarks.

(** An element [{ entry, sim }] of the applicant view.  The entry object
    is a reference into [entries]; it is represented by the position of
    that object, each element of the parsed array being an object of its
    own. *)
Record Match : Type := mkMatch {
  match_entry : nat;
  match_sim : Sim
}.

(** The comparator of [matches.sort]: positive when [a] goes after [b]. *)
Definition scoreBelow (a b : Match) : bool :=
  let scoreA := Score.normalize (SimilarTrademark.similarity_score (match_sim a)) in
  let scoreB := Score.normalize (SimilarTrademark.similarity_score (match_sim b)) in
  (scoreA <? scoreB)%float.

Fixpoint insertMatch (x : Match) (l : list Match) : list Match :=
  match l with
  | [] => [x]
  | y :: r => if scoreBelow x y then y :: insertMatch x r else x :: l
  end.

(** [Array.prototype.sort] is stable; with this comparator it orders by
    descending normalized score, keeping earlier elements first on ties. *)
Definition sortByScoreDesc (l : list Match) : list Match :=
  fold_right insertMatch [] l.

Definition matchesApplicant (applicantName : string) (sim : Sim) : bool :=
  match JsField.value (SimilarTrademark.applicant_name sim) with
  | Some n =>
      negb (String.eqb n "")
      && String.eqb (JsString.trim n) (JsString.trim applicantName)
      && (Score.minThresholdDefault <=? Score.normalize (SimilarTrademark.similarity_score sim))%float
  | None => false
  end.

(** [getFilteredMatchesByApplicant(applicantName, entries)] *)
Definition getFilteredMatchesByApplicant (applicantName : string)
    (entries : list Entry) : list Match :=
  sortByScoreDesc
    (List.concat
       (JsArray.mapi
          (fun entry entryIndex =>
             map (mkMatch entryIndex)
                 (filter (matchesApplicant applicantName) (similarTrademarksOf entry)))
          entries)).

(* ================================================================== *)
(** ** Rendering the matches of one entry *)
(* ================================================================== *)

(** [s || fallback] on a string: the empty string is falsy. *)
Definition strOr (s fallback : string) : string :=
  if String.eqb s "" then fallback else s.

(** [o || fallback] on an optional string. *)
Definition optOr (o : option string) (fallback : string) : string :=
  match o with
  | Some s => strOr s fallback
  | None => fallback
  end.

(** How the console shows an optional text property. *)
Definition showOpt (o : JsField.t) : string :=
  match o with
  | JsField.text s => s
  | JsField.undefined => "undefined"
  | JsField.null => "null"
  end.

(** A row [<tr>] of the similar-trademarks table: its React key, its
    checkbox and its text cells. *)
Record TableRow : Type := mkRow {
  row_key : nat;
  row_trademarkId : string;
  row_isSelected : bool;
  row_mark : string;
  row_score : option string;
  row_class : string;
  row_applicant : string;
  row_application_no : string
}.

(** The body of [filtered.map((sim, simIndex) => ...)] in the table of
    one entry; [None] is the [null] React renders as nothing. *)
Definition renderTableRow (selectedTrademarks : JsSet.t) (entry : Entry)
    (actualEntryIndex : nat) (sim : Sim) (simIndex : nat) : Console (option TableRow) :=
  let entrySimilarTrademarks := similarTrademarksOf entry in
  match actualSimIndexTable entrySimilarTrademarks sim with
  | None =>
      warn ["Could not find sim index for:"; SimilarTrademark.mark sim;
            "in entry:"; JsString.ofNat actualEntryIndex] ;;;
      ret None
  | Some actualSimIndex =>
      let trademarkId := trademarkId actualEntryIndex actualSimIndex in
      let isSelected := JsSet.has selectedTrademarks trademarkId in
      ret (Some {| row_key := simIndex;
                   row_trademarkId := trademarkId;
                   row_isSelected := isSelected;
                   row_mark := strOr (SimilarTrademark.mark sim) "N/A";
                   row_score := formatPercentage (SimilarTrademark.similarity_score sim);
                   row_class := optOr (JsField.value (SimilarTrademark.trademark_class sim)) "N/A";
                   row_applicant := optOr (JsField.value (SimilarTrademark.applicant_name sim)) "N/A";
                   row_application_no := optOr (SimilarTrademark.application_no sim) "N/A" |})
  end.

Fixpoint renderTableRowsFrom (selectedTrademarks : JsSet.t) (entry : Entry)
    (actualEntryIndex : nat) (simIndex : nat) (filtered : list Sim)
    : Console (list (option TableRow)) :=
  match filtered with
  | [] => ret []
  | sim :: rest =>
      row <- renderTableRow selectedTrademarks entry actualEntryIndex sim simIndex ;;
      rows <- renderTableRowsFrom selectedTrademarks entry actualEntryIndex (S simIndex) rest ;;
      ret (row :: rows)
  end.

(** The [<tbody>] of one entry: [filtered.map(...)]. *)
Definition renderTableRows (selectedTrademarks : JsSet.t) (entry : Entry)
    (actualEntryIndex : nat) (filtered : list Sim) : Console (list (option TableRow)) :=
  renderTableRowsFrom selectedTrademarks entry actualEntryIndex 0 filtered.

(** A card of the applicant-filtered view. *)
Record MatchCard : Type := mkCard {
  card_key : nat;
  card_trademarkId : string;
  card_isSelected : bool;
  card_mark : string;
  card_class : string;
  card_application_no : string;
  card_score : option string
}.

(** The body of [matches.map((match, matchIndex) => ...)] in the
    applicant-filtered view, for the matches grouped under [entryIndex]. *)
Definition renderMatchCard (selectedTrademarks : JsSet.t) (entries : list Entry)
    (entryIndex : nat) (m : Match) (matchIndex : nat) : Console (option MatchCard) :=
  let sim := match_sim m in
  let score := Score.normalize (SimilarTrademark.similarity_score sim) in
  match nth_error entries entryIndex with
  | None => ret None
  | Some entryForMatch =>
      let similarTrademarksForEntry := similarTrademarksOf entryForMatch in
      match actualSimIndexApplicantView similarTrademarksForEntry sim with
      | None =>
          warn ["Could not find sim index for:"; SimilarTrademark.mark sim;
                "Applicant:"; showOpt (SimilarTrademark.applicant_name sim);
                "in entry:"; JsString.ofNat entryIndex] ;;;
          ret None
      | Some actualSimIndex =>
          let actualTrademarkId := trademarkId entryIndex actualSimIndex in
          let isSelected := JsSet.has selectedTrademarks actualTrademarkId in
          ret (Some {| card_key := matchIndex;
                       card_trademarkId := actualTrademarkId;
                       card_isSelected := isSelected;
                       card_mark := strOr (SimilarTrademark.mark sim) "Unknown";
                       card_class := optOr (JsField.value (SimilarTrademark.trademark_class sim)) "N/A";
                       card_application_no := optOr (SimilarTrademark.application_no sim) "N/A";
                       card_score := formatPercentage score |})
      end
  end.

Fixpoint renderMatchCardsFrom (selectedTrademarks : JsSet.t) (entries : list Entry)
    (entryIndex : nat) (matchIndex : nat) (matches : list Match)
    : Console (list (option MatchCard)) :=
  match matches with
  | [] => ret []
  | m :: rest =>
      card <- renderMatchCard selectedTrademarks entries entryIndex m matchIndex ;;
      cards <- renderMatchCardsFrom selectedTrademarks entries entryIndex (S matchIndex) rest ;;
      ret (card :: cards)
  end.

Definition renderMatchCards (selectedTrademarks : JsSet.t) (entries : list Entry)
    (entryIndex : nat) (matches : list Match) : Console (list (option MatchCard)) :=
  renderMatchCardsFrom selectedTrademarks entries entryIndex 0 matches.

(* ================================================================== *)
(** ** Arrays that hold [null] *)
(* ================================================================== *)

(** The arrays of a report are parsed from JSON and may hold [null]
    where a match is expected.  The filters of the page step over such
    an element ([sim?.similarity_score], [sim?.applicant_name]); the
    callbacks of [findIndex] read [s.mark] of every element they are
    given.  The definitions above are the page on arrays without a
    [null] element.  [Nullable] is the same code on the array that the
    chain [entry?.similar_trademarks || ... || []] yields when it may
    hold one ([None]), with the [TypeError] that reading a property of
    [null] throws. *)
Inductive Thrown (A : Type) : Type :=
| Returned (a : A)
| TypeError.

Arguments Returned {A} a.
Arguments TypeError {A}.

Module Nullable.

(** [arr.findIndex(s => s.mark === sim.mark && ...)]: the callback
    throws at a [null] element; the elements after the first hit are
    not visited. *)
Fixpoint findIndex (p : Sim -> bool) (l : list (option Sim)) : Thrown (option nat) :=
  match l with
  | [] => Returned None
  | None :: _ => TypeError
  | Some s :: r =>
      if p s then Returned (Some 0)
      else match findIndex p r with
           | Returned i => Returned (option_map S i)
           | TypeError => TypeError
           end
  end.

Definition actualSimIndexTable (entrySimilarTrademarks : list (option Sim)) (sim : Sim)
    : Thrown (option nat) :=
  findIndex (sameSimTable sim) entrySimilarTrademarks.

Definition actualSimIndexApplicantView (entrySimilarTrademarks : list (option Sim))
    (sim : Sim) : Thrown (option nat) :=
  findIndex (sameSimApplicantView sim) entrySimilarTrademarks.

(** [getFilteredSimilarTrademarks(similarTrademarks, minThreshold)]:
    [sim?.similarity_score] of a [null] element is [undefined], and the
    element is left out. *)
Fixpoint getFilteredSimilarTrademarks (similarTrademarks : list (option Sim))
    (minThreshold : float) : list Sim :=
  match similarTrademarks with
  | [] => []
  | None :: rest => getFilteredSimilarTrademarks rest minThreshold
  | Some sim :: rest =>
      let score := SimilarTrademark.similarity_score sim in
      let normalizedScore := Score.normalize score in
      if (minThreshold <=? normalizedScore)%float
      then sim :: getFilteredSimilarTrademarks rest minThreshold
      else getFilteredSimilarTrademarks rest minThreshold
  end.

(** The matches of one array that [getFilteredMatchesByApplicant]
    pushes: [sim?.applicant_name] of a [null] element is [undefined],
    and the element is left out. *)
Fixpoint matchesOf (applicantName : string) (entryIndex : nat)
    (similarTrademarks : list (option Sim)) : list Match :=
  match similarTrademarks with
  | [] => []
  | None :: rest => matchesOf applicantName entryIndex rest
  | Some sim :: rest =>
      if matchesApplicant applicantName sim
      then mkMatch entryIndex sim :: matchesOf applicantName entryIndex rest
      else matchesOf applicantName entryIndex rest
  end.

(** [getFilteredMatchesByApplicant(applicantName, entries)], the
    entries given by their arrays. *)
Definition getFilteredMatchesByApplicant (applicantName : string)
    (entries : list (list (option Sim))) : list Match :=
  sortByScoreDesc
    (List.concat
       (JsArray.mapi
          (fun similarTrademarks entryIndex =>
             matchesOf applicantName entryIndex similarTrademarks)
          entries)).

(** The body of [filtered.map((sim, simIndex) => ...)] in the table of
    one entry.  The warning of a miss is logged; a [TypeError] of the
    callback leaves the body. *)
Definition renderTableRow (selectedTrademarks : JsSet.t)
    (entrySimilarTrademarks : list (option Sim))
    (actualEntryIndex : nat) (sim : Sim) (simIndex : nat)
    : Console (Thrown (option TableRow)) :=
  match actualSimIndexTable entrySimilarTrademarks sim with
  | TypeError => ret TypeError
  | Returned None =>
      warn ["Could not find sim index for:"; SimilarTrademark.mark sim;
            "in entry:"; JsString.ofNat actualEntryIndex] ;;;
      ret (Returned None)
  | Returned (Some actualSimIndex) =>
      let trademarkId := trademarkId actualEntryIndex actualSimIndex in
      let isSelected := JsSet.has selectedTrademarks trademarkId in
      ret (Returned
             (Some {| row_key := simIndex;
                      row_trademarkId := trademarkId;
                      row_isSelected := isSelected;
                      row_mark := strOr (SimilarTrademark.mark sim) "N/A";
                      row_score := formatPercentage (SimilarTrademark.similarity_score sim);
                      row_class :=
                        optOr (JsField.value (SimilarTrademark.trademark_class sim)) "N/A";
                      row_applicant :=
                        optOr (JsField.value (SimilarTrademark.applicant_name sim)) "N/A";
                      row_application_no :=
                        optOr (SimilarTrademark.application_no sim) "N/A" |}))
  end.

(** [filtered.map(...)]: an exception thrown by the body for one element
    leaves the whole [map], and with it the render of the component; no
    row is produced, neither an earlier nor a later one. *)
Fixpoint renderTableRowsFrom (selectedTrademarks : JsSet.t)
    (entrySimilarTrademarks : list (option Sim))
    (actualEntryIndex : nat) (simIndex : nat) (filtered : list Sim)
    : Console (Thrown (list (option TableRow))) :=
  match filtered with
  | [] => ret (Returned [])
  | sim :: rest =>
      row <- renderTableRow selectedTrademarks entrySimilarTrademarks
               actualEntryIndex sim simIndex ;;
      match row with
      | TypeError => ret TypeError
      | Returned row =>
          rows <- renderTableRowsFrom selectedTrademarks entrySimilarTrademarks
                    actualEntryIndex (S simIndex) rest ;;
          match rows with
          | TypeError => ret TypeError
          | Returned rows => ret (Returned (row :: rows))
          end
      end
  end.

Definition renderTableRows (selectedTrademarks : JsSet.t)
    (entrySimilarTrademarks : list (option Sim))
    (actualEntryIndex : nat) (filtered : list Sim)
    : Console (Thrown (list (option TableRow))) :=
  renderTableRowsFrom selectedTrademarks entrySimilarTrademarks actualEntryIndex 0 filtered.

(** The body of [matches.map((match, matchIndex) => ...)] in the
    applicant-filtered view, the entries given by their arrays. *)
Definition renderMatchCard (selectedTrademarks : JsSet.t)
    (entries : list (list (option Sim)))
    (entryIndex : nat) (m : Match) (matchIndex : nat)
    : Console (Thrown (option MatchCard)) :=
  let sim := match_sim m in
  let score := Score.normalize (SimilarTrademark.similarity_score sim) in
  match nth_error entries entryIndex with
  | None => ret (Returned None)
  | Some similarTrademarksForEntry =>
      match actualSimIndexApplicantView similarTrademarksForEntry sim with
      | TypeError => ret TypeError
      | Returned None =>
          warn ["Could not find sim index for:"; SimilarTrademark.mark sim;
                "Applicant:"; showOpt (SimilarTrademark.applicant_name sim);
                "in entry:"; JsString.ofNat entryIndex] ;;;
          ret (Returned None)
      | Returned (Some actualSimIndex) =>
          let actualTrademarkId := trademarkId entryIndex actualSimIndex in
          let isSelected := JsSet.has selectedTrademarks actualTrademarkId in
          ret (Returned
                 (Some {| card_key := matchIndex;
                          card_trademarkId := actualTrademarkId;
                          card_isSelected := isSelected;
                          card_mark := strOr (SimilarTrademark.mark sim) "Unknown";
                          card_class :=
                            optOr (JsField.value (SimilarTrademark.trademark_class sim)) "N/A";
                          card_application_no :=
                            optOr (SimilarTrademark.application_no sim) "N/A";
                          card_score := formatPercentage score |}))
      end
  end.

Fixpoint renderMatchCardsFrom (selectedTrademarks : JsSet.t)
    (entries : list (list (option Sim)))
    (entryIndex : nat) (matchIndex : nat) (matches : list Match)
    : Console (Thrown (list (option MatchCard))) :=
  match matches with
  | [] => ret (Returned [])
  | m :: rest =>
      card <- renderMatchCard selectedTrademarks entries entryIndex m matchIndex ;;
      match card with
      | TypeError => ret TypeError
      | Returned card =>
          cards <- renderMatchCardsFrom selectedTrademarks entries entryIndex
                     (S matchIndex) rest ;;
          match cards with
          | TypeError => ret TypeError
          | Returned cards => ret (Returned (card :: cards))
          end
      end
  end.

Definition renderMatchCards (selectedTrademarks : JsSet.t)
    (entries : list (list (option Sim)))
    (entryIndex : nat) (matches : list Match)
    : Console (Thrown (list (option MatchCard))) :=
  renderMatchCardsFrom selectedTrademarks entries entryIndex 0 matches.

End Nullable.

(** The outcome of code that cannot throw. *)
Definition returned {A : Type} (m : Console A) : Console (Thrown A) :=
  (Returned (fst m), snd m).

(* ================================================================== *)
(** ** Collecting the selection for the template page *)
(* ================================================================== *)

Module ReportData.
Record t : Type := mk {
  report_id : string;
  monday_date : string;
  report_date : string;
  entries_with_similarities : option (list Entry);
  entries : option (list Entry);
  journal_entries : option (list Entry)
}.
End ReportData.

(** [reportData.entries_with_similarities || reportData.entries ||
     reportData.journal_entries || []] for a report that is an object. *)
Definition entriesOf (reportData : ReportData.t) : list Entry :=
  match orElse (ReportData.entries_with_similarities reportData)
       (orElse (ReportData.entries reportData)
               (ReportData.journal_entries reportData)) with
  | Some l => l
  | None => []
  end.

Record SelectedTrademark : Type := mkSelected {
  entry : Entry;
  sim : Sim;
  entryIndex : nat;
  simIndex : nat
}.

(** The inner [similarTrademarks.forEach((sim, simIndex) => ...)]. *)
Fixpoint collectSims (selectedTrademarks : JsSet.t) (entry : Entry)
    (entryIndex simIndex : nat) (sims : list Sim) : list SelectedTrademark :=
  match sims with
  | [] => []
  | sim :: rest =>
      let here :=
        if JsSet.has selectedTrademarks (trademarkId entryIndex simIndex)
        then [mkSelected entry sim entryIndex simIndex] else [] in
      (here ++ collectSims selectedTrademarks entry entryIndex (S simIndex) rest)%list
  end.

(** The outer [entries.forEach((entry, entryIndex) => ...)]. *)
Fixpoint collectEntries (selectedTrademarks : JsSet.t) (entryIndex : nat)
    (entries : list Entry) : list SelectedTrademark :=
  match entries with
  | [] => []
  | entry :: rest =>
      (collectSims selectedTrademarks entry entryIndex 0 (similarTrademarksOf entry)
       ++ collectEntries selectedTrademarks (S entryIndex) rest)%list
  end.

(** [getSelectedTrademarksData()]: the value it returns (its console
    output is diagnostic only). *)
Definition getSelectedTrademarksData (reportData : option ReportData.t)
    (selectedTrademarks : JsSet.t) : list SelectedTrademark :=
  match reportData with
  | None => []
  | Some r => collectEntries selectedTrademarks 0 (entriesOf r)
  end.

(* ================================================================== *)
(** ** Session storage and the hand-over between the two pages *)
(* ================================================================== *)

Module SessionStorage.

Definition t : Type := list (string * string).

Fixpoint getItem (k : string) (st : t) : option string :=
  match st with
  | [] => None
  | (k', v) :: r => if String.eqb k' k then Some v else getItem k r
  end.

Definition removeItem (k : string) (st : t) : t :=
  filter (fun kv => negb (String.eqb (fst kv) k)) st.

Fixpoint setItem (k v : string) (st : t) : t :=
  match st with
  | [] => [(k, v)]
  | (k', v') :: r => if String.eqb k' k then (k, v) :: r else (k', v') :: setItem k v r
  end.

End SessionStorage.

(** A parsed JSON text. *)
#[local] Set Warnings "-register-all".
Inductive Json : Type :=
| JNull
| JBool (b : bool)
| JNumber (x : float)
| JString (s : string)
| JArray (l : list Json)
| JObject (fields : list (string * Json)).

(** [t.sim] on an element [t] of a parsed array throws [TypeError]
    exactly when the element is [null]: on every other JSON value the
    property access has a value, if only [undefined]. *)
Definition isNull (j : Json) : bool :=
  match j with
  | JNull => true
  | _ => false
  end.

(** What the report page leaves behind when "generate" is pressed. *)
Record GenerateOutcome : Type := mkGenerate {
  gen_storage : SessionStorage.t;
  gen_alert : option string;
  gen_navigate : option string
}.

(** State of the template page that the loading effect writes. *)
Record PageState : Type := mkPage {
  page_selectedTrademarks : list Json;
  page_reportData : option Json;
  page_loading : bool;
  page_error : option string
}.

Definition initialPage : PageState :=
  {| page_selectedTrademarks := []; page_reportData := None;
     page_loading := true; page_error := None |}.

Record LoadOutcome : Type := mkLoad {
  load_storage : SessionStorage.t;
  load_page : PageState;
  load_navigate : option string
}.

Section Handover.

(** [JSON.stringify] on the two values the report page stores, and
    [JSON.parse] ([None] when it throws [SyntaxError]). *)
Variable stringifySelected : list SelectedTrademark -> string.
Variable stringifyReport : option ReportData.t -> string.
Variable JSON_parse : string -> option Json.

(** [handleGenerateTemplates()] *)
Definition handleGenerateTemplates (reportId : string) (reportData : option ReportData.t)
    (selectedTrademarks : JsSet.t) (storage : SessionStorage.t) : GenerateOutcome :=
  let selectedData := getSelectedTrademarksData reportData selectedTrademarks in
  match selectedData with
  | [] =>
      {| gen_storage := storage;
         gen_alert := Some "Please select at least one trademark to generate email templates.";
         gen_navigate := None |}
  | _ :: _ =>
      let storage := SessionStorage.removeItem "selectedTrademarks" storage in
      let storage := SessionStorage.removeItem "reportData" storage in
      let storage := SessionStorage.setItem "selectedTrademarks" (stringifySelected selectedData) storage in
      let storage := SessionStorage.setItem "reportData" (stringifyReport reportData) storage in
      {| gen_storage := storage;
         gen_alert := None;
         gen_navigate := Some ("/app/report/" ++ reportId ++ "/email-templates") |}
  end.

(** The first effect of [EmailTemplatesPage]: load from [sessionStorage].
    The [try] block throws when either text does not parse, and when the
    logging [trademarks.map(t => ({mark: t.sim?.mark, ...}))] meets a
    [null] element of the parsed array; [caught] is its [catch]. *)
Definition loadFromSessionStorage (authLoading authenticated : bool)
    (storage : SessionStorage.t) (page : PageState) : LoadOutcome :=
  if negb authLoading && negb authenticated then
    {| load_storage := storage; load_page := page; load_navigate := Some "/" |}
  else
    let storedTrademarks := SessionStorage.getItem "selectedTrademarks" storage in
    let storedReportData := SessionStorage.getItem "reportData" storage in
    let failWith (msg : string) (storage : SessionStorage.t) :=
      {| load_storage := storage;
         load_page := {| page_selectedTrademarks := page_selectedTrademarks page;
                         page_reportData := page_reportData page;
                         page_loading := false;
                         page_error := Some msg |};
         load_navigate := None |} in
    let caught :=
      failWith "Failed to load selected trademarks data. Please go back and try again."
        (SessionStorage.removeItem "reportData"
           (SessionStorage.removeItem "selectedTrademarks" storage)) in
    match storedTrademarks, storedReportData with
    | Some tText, Some rText =>
        if String.eqb tText "" || String.eqb rText "" then
          failWith "No selected trademarks found. Please go back and select trademarks." storage
        else
          match JSON_parse tText, JSON_parse rText with
          | Some trademarks, Some report =>
              match trademarks with
              | JArray (t :: ts) =>
                  if existsb isNull (t :: ts) then caught
                  else
                    {| load_storage := storage;
                       load_page := {| page_selectedTrademarks := t :: ts;
                                       page_reportData := Some report;
                                       page_loading := page_loading page;
                                       page_error := page_error page |};
                       load_navigate := None |}
              | _ =>
                  failWith "No valid selected trademarks found. Please go back and select trademarks." storage
              end
          | _, _ => caught
          end
    | _, _ =>
        failWith "No selected trademarks found. Please go back and select trademarks." storage
    end.

End Handover.

(* ================================================================== *)
(** ** Grouping the selection by applicant (template page) *)
(* ================================================================== *)

Module JsMap.

Section Ops.

Context {K V : Type} (eqb : K -> K -> bool).

(** A [Map<K, V>]: its entries in insertion order, keys distinct. *)
Fixpoint get (k : K) (m : list (K * V)) : option V :=
  match m with
  | [] => None
  | (k', v) :: r => if eqb k' k then Some v else get k r
  end.

Definition has (k : K) (m : list (K * V)) : bool :=
  match get k m with
  | Some _ => true
  | None => false
  end.

(** [m.set(k, v)]: an existing key keeps its place. *)
Fixpoint set (k : K) (v : V) (m : list (K * V)) : list (K * V) :=
  match m with
  | [] => [(k, v)]
  | (k', v') :: r => if eqb k' k then (k', v) :: r else (k', v') :: set k v r
  end.

(** [if (!m.has(k)) m.set(k, v0)]: the map after the guard that
    precedes each [m.get(k)!] of the grouping effect. *)
Definition ensure (k : K) (v0 : V) (m : list (K * V)) : list (K * V) :=
  if has k m then m else set k v0 m.

End Ops.

End JsMap.

(** The value [{ entry, similarTrademarks }] of the inner map. *)
Record EntryGroup : Type := mkEntryGroup {
  group_entry : Entry;
  similarTrademarks : list Sim
}.

Definition ApplicantEntries : Type := list (nat * EntryGroup).
Definition Grouped : Type := list (string * ApplicantEntries).

(** The grouping key: [sim.applicant_name?.trim() || ''], then
    ['Unknown'] for the empty string. *)
Definition applicantKey (sim : Sim) : string :=
  let applicantName :=
    match JsField.value (SimilarTrademark.applicant_name sim) with
    | Some n => JsString.trim n
    | None => ""
    end in
  if String.eqb applicantName "" then "Unknown" else applicantName.

(** The body of [selectedTrademarks.forEach(({ entry, sim, entryIndex }) => ...)].
    The inner map and the record it holds are objects shared with the
    outer map, so the [push] shows through both: the update is written
    back in place.  The two [None] branches are the lookups the source
    asserts non-null (each follows a [set] of the same key). *)
Definition groupOne (grouped : Grouped) (t : SelectedTrademark) : Grouped :=
  let applicantName := applicantKey (sim t) in
  let grouped :=
    if JsMap.has String.eqb applicantName grouped then grouped
    else JsMap.set String.eqb applicantName [] grouped in
  match JsMap.get String.eqb applicantName grouped with
  | None => grouped
  | Some applicantEntries =>
      let applicantEntries :=
        if JsMap.has Nat.eqb (entryIndex t) applicantEntries then applicantEntries
        else JsMap.set Nat.eqb (entryIndex t)
               {| group_entry := entry t; similarTrademarks := [] |} applicantEntries in
      match JsMap.get Nat.eqb (entryIndex t) applicantEntries with
      | None => grouped
      | Some g =>
          let g := {| group_entry := group_entry g;
                      similarTrademarks := (similarTrademarks g ++ [sim t])%list |} in
          JsMap.set String.eqb applicantName
            (JsMap.set Nat.eqb (entryIndex t) g applicantEntries) grouped
      end
  end.

Definition groupByApplicant (selectedTrademarks : list SelectedTrademark) : Grouped :=
  fold_left groupOne selectedTrademarks [].

Record ApplicantGroup : Type := mkGroup {
  applicantName : string;
  email : option string;
  loading : bool;
  entries : ApplicantEntries
}.

(** [Array.from(grouped.entries()).map(...)] *)
Definition groupsOf (grouped : Grouped) : list ApplicantGroup :=
  map (fun ne => {| applicantName := fst ne; email := None; loading := true;
                    entries := snd ne |}) grouped.

(** [Array.from(group.entries.values()).reduce((entrySum, entry) =>
     entrySum + entry.similarTrademarks.length, 0)] *)
Definition trademarksInGroup (group : ApplicantGroup) : nat :=
  fold_left (fun entrySum e => entrySum + List.length (similarTrademarks e))
            (map snd (entries group)) 0.

(** [totalTrademarksInGroups] *)
Definition totalTrademarksInGroups (groups : list ApplicantGroup) : nat :=
  fold_left (fun sum group => sum + trademarksInGroup group) groups 0.

(** The grouping effect of the template page, up to [setApplicantGroups]:
    the groups it stores and what it writes with [console.warn]. *)
Definition groupingEffect {R : Type} (selectedTrademarks : list SelectedTrademark)
    (reportData : option R) : Console (list ApplicantGroup) :=
  match selectedTrademarks, reportData with
  | [], _ | _, None => ret []
  | _ :: _, Some _ =>
      let groups := groupsOf (groupByApplicant selectedTrademarks) in
      (if (totalTrademarksInGroups groups =? List.length selectedTrademarks)%nat
       then ret tt
       else warn ["Mismatch: Some trademarks may be missing from groups!"]) ;;;
      ret groups
  end.

(** The selected matches held by the groups, each with the name of its
    group and the entry position it is filed under. *)
Definition membersOfEntries (name : string) (es : ApplicantEntries)
    : list (string * nat * Sim) :=
  flat_map (fun ie => map (fun s => (name, fst ie, s)) (similarTrademarks (snd ie))) es.

Definition membersOf (groups : list ApplicantGroup) : list (string * nat * Sim) :=
  flat_map (fun g => membersOfEntries (applicantName g) (entries g)) groups.

(** Where a selected match is to be found: group name, entry, match. *)
Definition placeOf (t : SelectedTrademark) : string * nat * Sim :=
  (applicantKey (sim t), entryIndex t, sim t).

(** The same listing on the map being built. *)
Definition membersOfGrouped (grouped : Grouped) : list (string * nat * Sim) :=
  flat_map (fun ne => membersOfEntries (fst ne) (snd ne)) grouped.

(** The maps hold each key once, as a [Map] does. *)
Definition distinctKeys (grouped : Grouped) : Prop :=
  NoDup (map fst grouped) /\ Forall (fun ne => NoDup (map fst (snd ne))) grouped.

(* ================================================================== *)
(** ** Platform: dates *)
(* ================================================================== *)

Module JsDate.

Open Scope Z_scope.

(** A time value: milliseconds since the epoch; [None] is [NaN]
    (an invalid date). *)
Definition t : Type := option Z.

Definition msPerDay : Z := 86400000.
Definition msPerMinute : Z := 60000.

(** Day number (days since 1970-01-01) of a proleptic Gregorian date,
    [m] from 1 to 12. *)
Definition daysFromCivil (y m d : Z) : Z :=
  let y' := if m <=? 2 then y - 1 else y in
  let era := y' / 400 in
  let yoe := y' - era * 400 in
  let doy := (153 * (if 2 <? m then m - 3 else m + 9) + 2) / 5 + d - 1 in
  let doe := yoe * 365 + yoe / 4 - yoe / 100 + doy in
  era * 146097 + doe - 719468.

(** Year, month (1 to 12) and day of the month of a day number. *)
Definition civilFromDays (z : Z) : Z * Z * Z :=
  let z := z + 719468 in
  let era := z / 146097 in
  let doe := z - era * 146097 in
  let yoe := (doe - doe / 1460 + doe / 36524 - doe / 146096) / 365 in
  let y := yoe + era * 400 in
  let doy := doe - (365 * yoe + yoe / 4 - yoe / 100) in
  let mp := (5 * doy + 2) / 153 in
  let d := doy - (153 * mp + 2) / 5 + 1 in
  let m := if mp <? 10 then mp + 3 else mp - 9 in
  (if m <=? 2 then y + 1 else y, m, d).

(** [MakeDay(year, month, date)], [month] counted from 0 and free to
    overflow into neighbouring years. *)
Definition MakeDay (year month date : Z) : Z :=
  let ym := year + month / 12 in
  let mn := month mod 12 in
  daysFromCivil ym (mn + 1) 1 + date - 1.

Definition MakeTime (hour min sec ms : Z) : Z :=
  hour * 3600000 + min * 60000 + sec * 1000 + ms.

Definition MakeDate (day time : Z) : Z := day * msPerDay + time.

Definition TimeClip (time : Z) : t :=
  if 8640000000000000 <? Z.abs time then None else Some time.

(** [Date.UTC(year, month, day, hours, minutes, seconds)]; an argument
    that is [NaN] makes the result [NaN]. *)
Definition UTC (year month day hours minutes seconds : option Z) : t :=
  match year, month, day, hours, minutes, seconds with
  | Some y, Some m, Some dt, Some h, Some mi, Some s =>
      let yr := if (0 <=? y) && (y <=? 99) then 1900 + y else y in
      TimeClip (MakeDate (MakeDay yr m dt) (MakeTime h mi s 0))
  | _, _, _, _, _, _ => None
  end.

Section LocalTime.

(** The zone of the browser, as minutes east of UTC (a zone of fixed
    offset). *)
Variable localOffsetMinutes : Z.

Definition localTime (tv : Z) : Z := tv + localOffsetMinutes * msPerMinute.

(** [date.getMonth()] *)
Definition getMonth (d : t) : option Z :=
  match d with
  | None => None
  | Some tv =>
      let '(_, m, _) := civilFromDays (localTime tv / msPerDay) in Some (m - 1)
  end.

(** [date.setMonth(month)]: the time value the date holds afterwards. *)
Definition setMonth (d : t) (month : option Z) : t :=
  match d, month with
  | Some tv, Some m =>
      let lt := localTime tv in
      let '(y, _, dt) := civilFromDays (lt / msPerDay) in
      let newDate := MakeDate (MakeDay y m dt) (lt mod msPerDay) in
      TimeClip (newDate - localOffsetMinutes * msPerMinute)
  | _, _ => None
  end.

End LocalTime.

Definition monthName (m : Z) : string :=
  match m with
  | 1 => "January" | 2 => "February" | 3 => "March" | 4 => "April"
  | 5 => "May" | 6 => "June" | 7 => "July" | 8 => "August"
  | 9 => "September" | 10 => "October" | 11 => "November" | _ => "December"
  end.

(** [date.toLocaleDateString('en-IN', { month: 'long', day: 'numeric',
     year: 'numeric', timeZone: 'Asia/Kolkata' })].
    The locale [en-IN] writes such a date as day, month name, year
    ("6 May 2025"); the zone is UTC+05:30 (its offset since 1945). *)
Definition toLocaleDateString_enIN (d : t) : string :=
  match d with
  | None => "Invalid Date"
  | Some tv =>
      let '(y, m, dt) := civilFromDays ((tv + 330 * msPerMinute) / msPerDay) in
      (JsString.ofZ dt ++ " " ++ monthName m ++ " " ++ JsString.ofZ y)%string
  end.

(** The same date in the pattern of [en-US] ("May 6, 2025"), which is
    the form the testable scenario quotes; the code never asks for it. *)
Definition spec_toLocaleDateString_enUS (d : t) : string :=
  match d with
  | None => "Invalid Date"
  | Some tv =>
      let '(y, m, dt) := civilFromDays ((tv + 330 * msPerMinute) / msPerDay) in
      (monthName m ++ " " ++ JsString.ofZ dt ++ ", " ++ JsString.ofZ y)%string
  end.

End JsDate.

(* ================================================================== *)
(** ** Parsing the server's date strings *)
(* ================================================================== *)

Module DateText.

(** [s.split(sep)] for a separator of one code unit. *)
Fixpoint split (sep : ascii) (s : string) : list string :=
  match s with
  | EmptyString => [""]
  | String c r =>
      if Ascii.eqb c sep then "" :: split sep r
      else match split sep r with
           | [] => [String c ""]
           | x :: xs => String c x :: xs
           end
  end.

Fixpoint digitsValue (acc : Z) (s : string) : option Z :=
  match s with
  | EmptyString => Some acc
  | String c r =>
      if JsString.isDigit c
      then digitsValue (10 * acc + (Z.of_N (N_of_ascii c) - 48)) r
      else None
  end.

(** [Number(s)] on the text of a date component: blank text is 0, a run
    of decimal digits with an optional sign is its value, and any other
    text is read as [NaN].  (The full grammar of numeric strings also has
    fractions, exponents and radix prefixes, which no date component
    uses.) *)
Definition Number (s : string) : option Z :=
  match JsString.trim s with
  | EmptyString => Some 0%Z
  | String "-" (String c r) => option_map Z.opp (digitsValue 0 (String c r))
  | String "+" (String c r) => digitsValue 0 (String c r)
  | String c r => digitsValue 0 (String c r)
  end.

(** Destructuring [[a, b, c] = arr]: a missing element is [undefined]. *)
Definition item (i : nat) (l : list string) : option string := nth_error l i.

(** [Number(x)] where [x] may be [undefined] ([NaN]). *)
Definition numberAt (i : nat) (l : list string) : option Z :=
  match item i l with
  | Some s => Number s
  | None => None
  end.

(** [second || 0]: [NaN] and [0] give 0. *)
Definition orZeroZ (x : option Z) : option Z :=
  match x with
  | Some v => Some v
  | None => Some 0%Z
  end.

(** [parseServerDate(dateString)].  Its [catch] branch is not reachable
    for a string argument: no step of the [try] block throws. *)
Definition parseServerDate (dateString : string) : JsDate.t :=
  let joinOpt (o : option (option Z)) : option Z :=
    match o with Some v => v | None => None end in
  let hms (timePart : string) :=
    let parts := map Number (split ":" timePart) in
    (joinOpt (nth_error parts 0), joinOpt (nth_error parts 1), joinOpt (nth_error parts 2)) in
  let dateOf (datePart : string) :=
    let parts := map Number (split "-" datePart) in
    (joinOpt (nth_error parts 0), joinOpt (nth_error parts 1), joinOpt (nth_error parts 2)) in
  if JsString.includes "T" dateString then
    let parts := split "T" dateString in
    let datePart := nth 0 parts "" in
    let timePart := nth 1 parts "" in
    let '(year, month, day) := dateOf datePart in
    let timeWithoutMicroseconds := nth 0 (split "." timePart) "" in
    let '(hour, minute, second) := hms timeWithoutMicroseconds in
    JsDate.UTC year (option_map (fun m => m - 1)%Z month) day hour minute (orZeroZ second)
  else if JsString.includes " " dateString then
    let parts := split " " dateString in
    let datePart := nth 0 parts "" in
    let timePart := nth 1 parts "" in
    let '(year, month, day) := dateOf datePart in
    let '(hour, minute, second) := hms timePart in
    JsDate.UTC year (option_map (fun m => m - 1)%Z month) day hour minute (orZeroZ second)
  else
    let '(year, month, day) := dateOf dateString in
    JsDate.UTC year (option_map (fun m => m - 1)%Z month) day (Some 0%Z) (Some 0%Z) (Some 0%Z).

End DateText.

(* ================================================================== *)
(** ** The opposition notice *)
(* ================================================================== *)

Definition nl : string := String (ascii_of_nat 10) "".
Definition tab : string := String (ascii_of_nat 9) "".

Fixpoint takeDigits (s : string) : string :=
  match s with
  | String c r => if JsString.isDigit c then String c (takeDigits r) else ""
  | EmptyString => ""
  end.

(** [pdfSource.match(/Journal_(\d+)/)]: the first capture group of the
    leftmost match, [None] when there is no match. *)
Fixpoint matchJournalNumber (pdfSource : string) : option string :=
  match (if String.prefix "Journal_" pdfSource
         then takeDigits (JsString.substringFrom 8 pdfSource) else "") with
  | String c ds => Some (String c ds)
  | EmptyString =>
      match pdfSource with
      | EmptyString => None
      | String _ r => matchJournalNumber r
      end
  end.

Definition lower (c : ascii) : ascii :=
  let n := N_of_ascii c in
  if ((65 <=? n) && (n <=? 90))%N then ascii_of_N (n + 32) else c.

(** The whole of [s] is [.pdf], in any letter case. *)
Definition isPdfExtension (s : string) : bool :=
  match s with
  | String a (String b (String c (String d EmptyString))) =>
      Ascii.eqb a "." && Ascii.eqb (lower b) "p" && Ascii.eqb (lower c) "d"
      && Ascii.eqb (lower d) "f"
  | _ => false
  end.

(** [s.replace(/\.pdf$/i, '')] *)
Fixpoint removePdfExtension (s : string) : string :=
  if isPdfExtension s then ""
  else match s with
       | EmptyString => ""
       | String c r => String c (removePdfExtension r)
       end.

(** [s.replace(/_/g, ' ')] *)
Fixpoint underscoresToSpaces (s : string) : string :=
  match s with
  | EmptyString => ""
  | String c r => String (if Ascii.eqb c "_" then " "%char else c) (underscoresToSpaces r)
  end.

(** [s.replace(/\s+/g, ' ')]; [inRun] tells that the previous code unit
    was white space already replaced. *)
Fixpoint collapseSpacesFrom (inRun : bool) (s : string) : string :=
  match s with
  | EmptyString => ""
  | String c r =>
      if JsString.isWhiteSpace c
      then (if inRun then collapseSpacesFrom true r
            else String " " (collapseSpacesFrom true r))
      else String c (collapseSpacesFrom false r)
  end.

Definition collapseSpaces (s : string) : string := collapseSpacesFrom false s.

(** [formatPdfSource(pdfSource)] *)
Definition formatPdfSource (pdfSource : option string) : string :=
  match pdfSource with
  | None => "N/A"
  | Some "" => "N/A"
  | Some pdfSource =>
      let formatted := removePdfExtension pdfSource in
      let formatted := underscoresToSpaces formatted in
      let formatted := JsString.trim (collapseSpaces formatted) in
      formatted
  end.

(** [formatDate(dateString)] of the template page. *)
Definition formatDate (dateString : string) : string :=
  let date := DateText.parseServerDate dateString in
  JsDate.toLocaleDateString_enIN date.

(** [formatJournalInfo(mondayDate, pdfSource)] *)
Definition formatJournalInfo (mondayDate : string) (pdfSource : option string) : string :=
  let journalNumber :=
    match pdfSource with
    | Some src =>
        match matchJournalNumber src with
        | Some number => number
        | None => ""
        end
    | None => ""
    end in
  let formattedDate := formatDate mondayDate in
  if String.eqb journalNumber "" then formattedDate
  else journalNumber ++ " " ++ formattedDate.

Section Template.

(** The zone of the browser that renders the page (minutes east of UTC).
    Only [getMonth] and [setMonth] read it. *)
Variable localOffsetMinutes : Z.

(** [formatOppositionDeadline(mondayDate)] *)
Definition formatOppositionDeadline (mondayDate : string) : string :=
  let date := DateText.parseServerDate mondayDate in
  let date :=
    JsDate.setMonth localOffsetMinutes date
      (option_map (fun m => m + 4)%Z (JsDate.getMonth localOffsetMinutes date)) in
  JsDate.toLocaleDateString_enIN date.

(** [`${entry.page_number || 'N/A'}`] *)
Definition pageNumberText (page_number : option Z) : string :=
  match page_number with
  | Some 0%Z => "N/A"
  | Some n => JsString.ofZ n
  | None => "N/A"
  end.

(** The inner [similarTrademarks.forEach((sim) => ...)]. *)
Definition similarTrademarkLines (sim : Sim) : string :=
  let classValue := optOr (JsField.value (SimilarTrademark.trademark_class sim)) "N/A" in
  let classValue :=
    if JsString.startsWith "Class " classValue
    then JsString.substringFrom 6 classValue else classValue in
  "Trademark: " ++ strOr (SimilarTrademark.mark sim) "N/A" ++ nl
  ++ "Class: " ++ classValue ++ nl
  ++ nl.

(** The body of [entriesArray.forEach(...)] for the entry at position
    [arrayIndex] of [len]. *)
Definition entrySection (mondayDate : string) (len arrayIndex : nat)
    (g : EntryGroup) : string :=
  let entry := group_entry g in
  "Trademark: "
    ++ optOr (JournalTrademarkEntry.mark_name entry)
             (optOr (JournalTrademarkEntry.mark entry) "N/A") ++ nl
  ++ "Class: " ++ optOr (JournalTrademarkEntry.trademark_class entry) "N/A" ++ tab ++ tab ++ nl
  ++ "Source PDF Journal: " ++ formatPdfSource (JournalTrademarkEntry.pdf_source entry) ++ nl
  ++ "Trademark Journal Date: "
    ++ formatJournalInfo mondayDate (JournalTrademarkEntry.pdf_source entry) ++ tab ++ nl
  ++ "Page No: " ++ pageNumberText (JournalTrademarkEntry.page_number entry) ++ nl ++ nl
  ++ "The aforesaid advertised trademark conflict with your following Registered Trademark."
  ++ nl ++ nl
  ++ String.concat "" (map similarTrademarkLines (similarTrademarks g))
  ++ (if (S arrayIndex <? len)%nat then nl else "").

(** [generateEmailTemplate(applicantName, entries, mondayDate)] *)
Definition generateEmailTemplate (applicantName : string) (entries : ApplicantEntries)
    (mondayDate : string) : string :=
  let entriesArray := entries in
  let template := "Dear Sir/Ma'am," ++ nl ++ nl in
  let template := template
    ++ "We wish to draw your immediate attention to an application advertised in Trademark Journal, details of which are appearing herein below:"
    ++ nl ++ nl in
  let template := template
    ++ String.concat ""
         (JsArray.mapi (fun ie arrayIndex =>
                          entrySection mondayDate (List.length entriesArray) arrayIndex (snd ie))
                       entriesArray) in
  let deadline := formatOppositionDeadline mondayDate in
  let template := template
    ++ "We are of the opinion that you should take necessary action to prevent the registration of the said trade mark, for which you need to file a Notice of Opposition on or before "
    ++ deadline ++ "." ++ nl ++ nl in
  let template := template
    ++ "If you wish to file a Notice of Opposition, kindly let us have your necessary instructions in this regard."
    ++ nl ++ nl in
  let template := template
    ++ "Should you need further assistance in this regard, please feel free to contact us."
    ++ nl ++ nl in
  let template := template
    ++ "Kindly, acknowledge safe receipt of this email." ++ nl ++ nl ++ nl ++ nl in
  let template := template ++ "Thanks and Regards," in
  template.

(** The template shown for each group:
    [generateEmailTemplate(group.applicantName, group.entries, reportData.monday_date)]. *)
Definition templatesOf (groups : list ApplicantGroup) (monday_date : string)
    : list (string * string) :=
  map (fun group =>
         (applicantName group,
          generateEmailTemplate (applicantName group) (entries group) monday_date))
      groups.

End Template.

(* ================================================================== *)
(** ** The selections the report page can reach *)
(* ================================================================== *)

(** Every call of [handleTrademarkSelect] in the page passes a position
    that [findIndex] has just returned for the entry at [entryIndex]:
    the row checkbox and the header checkbox of the table, and the
    checkbox of a card in the applicant-filtered view. *)
Inductive reachable (entries : list Entry) : JsSet.t -> Prop :=
| reach_initial : reachable entries JsSet.empty
| reach_table : forall sel entryIndex entry sim actualSimIndex checked,
    reachable entries sel ->
    nth_error entries entryIndex = Some entry ->
    actualSimIndexTable (similarTrademarksOf entry) sim = Some actualSimIndex ->
    reachable entries (handleTrademarkSelect entryIndex actualSimIndex checked sel)
| reach_applicantView : forall sel entryIndex entry sim actualSimIndex checked,
    reachable entries sel ->
    nth_error entries entryIndex = Some entry ->
    actualSimIndexApplicantView (similarTrademarksOf entry) sim = Some actualSimIndex ->
    reachable entries (handleTrademarkSelect entryIndex actualSimIndex checked sel).

(** Original positions of a collected item, and their order: by entry,
    then by match within the entry. *)
Definition positionOf (t : SelectedTrademark) : nat * nat := (entryIndex t, simIndex t).

Definition positionLt (a b : nat * nat) : Prop :=
  fst a < fst b \/ (fst a = fst b /\ snd a < snd b).

Definition keyOf (t : SelectedTrademark) : string :=
  trademarkId (entryIndex t) (simIndex t).

(** The four alternative fields of an entry, in the order the code
    consults them. *)
Definition fieldsInOrder (entry : Entry) : list (option (list Sim)) :=
  [JournalTrademarkEntry.similar_trademarks entry;
   JournalTrademarkEntry.similar_trademark entry;
   JournalTrademarkEntry.similarities entry;
   JournalTrademarkEntry.matches entry].

Definition isPresent {A : Type} (o : option A) : bool :=
  match o with
  | Some _ => true
  | None => false
  end.

(** The first field that is present at all. *)
Definition firstPresent (entry : Entry) : list Sim :=
  match find isPresent (fieldsInOrder entry) with
  | Some (Some l) => l
  | _ => []
  end.

(** What the two views put in a slot, as a function of the match alone. *)
Definition tableSlot (selectedTrademarks : JsSet.t) (entry : Entry)
    (actualEntryIndex : nat) (sim : Sim) (simIndex : nat) : option TableRow :=
  fst (renderTableRow selectedTrademarks entry actualEntryIndex sim simIndex).

Definition tableWarnings (entry : Entry) (actualEntryIndex : nat) (sim : Sim) : list string :=
  match actualSimIndexTable (similarTrademarksOf entry) sim with
  | None => [JsString.joinSpace ["Could not find sim index for:"; SimilarTrademark.mark sim;
                                 "in entry:"; JsString.ofNat actualEntryIndex]]
  | Some _ => []
  end.

Definition cardSlot (selectedTrademarks : JsSet.t) (entries : list Entry)
    (entryIndex : nat) (m : Match) (matchIndex : nat) : option MatchCard :=
  fst (renderMatchCard selectedTrademarks entries entryIndex m matchIndex).

Definition cardWarnings (entries : list Entry) (entryIndex : nat) (m : Match) : list string :=
  match nth_error entries entryIndex with
  | None => []
  | Some entryForMatch =>
      match actualSimIndexApplicantView (similarTrademarksOf entryForMatch) (match_sim m) with
      | None => [JsString.joinSpace
                   ["Could not find sim index for:"; SimilarTrademark.mark (match_sim m);
                    "Applicant:"; showOpt (SimilarTrademark.applicant_name (match_sim m));
                    "in entry:"; JsString.ofNat entryIndex]]
      | Some _ => []
      end
  end.

(* ================================================================== *)
(** ** Sample data *)
(* ================================================================== *)

Module Sample.

Open Scope float_scope.

(** The match "TYGER" of the testable scenario; the score is the
    binary64 value of the literal [0.85]. *)
Definition tyger : Sim :=
  {| SimilarTrademark.mark := "TYGER";
     SimilarTrademark.similarity_score := 0x1.b333333333333p-1;
     SimilarTrademark.vector_similarity_score := None;
     SimilarTrademark.text_similarity_score := None;
     SimilarTrademark.trademark_class := JsField.text "Class 25";
     SimilarTrademark.applicant_name := JsField.text "Acme Corp";
     SimilarTrademark.application_no := None;
     SimilarTrademark.image_path := None;
     SimilarTrademark.trademark_type := None |}.

(** The entry "TIGER" with the fields a caller chooses. *)
Definition entryWith (similar_trademarks matches : option (list Sim)) : Entry :=
  {| JournalTrademarkEntry.trademark_type := text_only;
     JournalTrademarkEntry.mark_name := Some "TIGER";
     JournalTrademarkEntry.mark := None;
     JournalTrademarkEntry.trademark_class := Some "25";
     JournalTrademarkEntry.applicant_name := None;
     JournalTrademarkEntry.application_no := None;
     JournalTrademarkEntry.pdf_source := Some "Journal_2237_Class25.pdf";
     JournalTrademarkEntry.page_number := None;
     JournalTrademarkEntry.image_path := None;
     JournalTrademarkEntry.similar_trademarks := similar_trademarks;
     JournalTrademarkEntry.similar_trademark := None;
     JournalTrademarkEntry.similarities := None;
     JournalTrademarkEntry.matches := matches |}.

Definition tiger : Entry := entryWith (Some [tyger]) None.

Definition reportWith (entries : list Entry) : ReportData.t :=
  {| ReportData.report_id := "r1";
     ReportData.monday_date := "2025-01-06";
     ReportData.report_date := "2025-01-06";
     ReportData.entries_with_similarities := Some entries;
     ReportData.entries := None;
     ReportData.journal_entries := None |}.

Definition report : ReportData.t := reportWith [tiger].

(** The scenario end to end: one click on the match, "generate", the
    grouping effect, and the template of each group. *)
Definition scenarioTemplates (localOffsetMinutes : Z) : list (string * string) :=
  let selectedTrademarks := clickCheckboxes [(0, 0)%nat] JsSet.empty in
  let selectedData := getSelectedTrademarksData (Some report) selectedTrademarks in
  let groups := fst (groupingEffect selectedData (Some report)) in
  templatesOf localOffsetMinutes groups (ReportData.monday_date report).

(** "TYGER" with another application number and score. *)
Definition tygerWith (application_no : string) (score : float) : Sim :=
  {| SimilarTrademark.mark := "TYGER";
     SimilarTrademark.similarity_score := score;
     SimilarTrademark.vector_similarity_score := None;
     SimilarTrademark.text_similarity_score := None;
     SimilarTrademark.trademark_class := JsField.text "Class 25";
     SimilarTrademark.applicant_name := JsField.text "Acme Corp";
     SimilarTrademark.application_no := Some application_no;
     SimilarTrademark.image_path := None;
     SimilarTrademark.trademark_type := None |}.

(** Two distinct registrations that agree on mark, applicant, class and
    score. *)
Definition dupFirst : Sim := tygerWith "1111111" 0x1.b333333333333p-1.
Definition dupSecond : Sim := tygerWith "2222222" 0x1.b333333333333p-1.
Definition dupSims : list Sim := [dupFirst; dupSecond].

(** A match whose score arrives as a percentage. *)
Definition tygerPercent : Sim := tygerWith "3333333" 85.
Definition tigerPercent : Entry := entryWith (Some [tygerPercent]) None.

(** An entry whose first field is present but empty while a later one
    holds a match. *)
Definition tigerEmptyFirst : Entry := entryWith (Some []) (Some [tyger]).

(** "TYGER" registered in another class, and with a score that is not
    finite ([JSON.parse] reads [1e999] as [Infinity]). *)
Definition tygerClass9 : Sim :=
  {| SimilarTrademark.mark := "TYGER";
     SimilarTrademark.similarity_score := 0x1.b333333333333p-1;
     SimilarTrademark.vector_similarity_score := None;
     SimilarTrademark.text_similarity_score := None;
     SimilarTrademark.trademark_class := JsField.text "Class 9";
     SimilarTrademark.applicant_name := JsField.text "Acme Corp";
     SimilarTrademark.application_no := Some "9999999";
     SimilarTrademark.image_path := None;
     SimilarTrademark.trademark_type := None |}.


(** The array of an entry with a [null] element before the match. *)
Definition nullThenTyger : list (option Sim) := [None; Some tyger].

(** "TYGER" under another applicant name. *)
Definition withApplicant (applicant_name : JsField.t) : Sim :=
  {| SimilarTrademark.mark := "TYGER";
     SimilarTrademark.similarity_score := 0x1.b333333333333p-1;
     SimilarTrademark.vector_similarity_score := None;
     SimilarTrademark.text_similarity_score := None;
     SimilarTrademark.trademark_class := JsField.text "Class 25";
     SimilarTrademark.applicant_name := applicant_name;
     SimilarTrademark.application_no := None;
     SimilarTrademark.image_path := None;
     SimilarTrademark.trademark_type := None |}.

(** A stand-in for [JSON.parse] on the five texts used below: it
    returns what [JSON.parse] returns on ["[{}]"], ["{}"], ["[]"] and
    ["[null]"], and has no result on ["{oops"], which is not JSON.  It
    is not meant for any other text. *)
Definition JSON_parse (s : string) : option Json :=
  if String.eqb s "[{}]" then Some (JArray [JObject []])
  else if String.eqb s "{}" then Some (JObject [])
  else if String.eqb s "[]" then Some (JArray [])
  else if String.eqb s "[null]" then Some (JArray [JNull])
  else None.

Definition stringifySelected (l : list SelectedTrademark) : string := "[{}]".
Definition stringifyReport (r : option ReportData.t) : string := "{}".

(** A selected match of entry 0 under a given applicant name. *)
Definition selectedOf (simIndex : nat) (applicant_name : JsField.t) : SelectedTrademark :=
  {| entry := tiger; sim := withApplicant applicant_name;
     entryIndex := 0; simIndex := simIndex |}.

Definition storedValid : SessionStorage.t :=
  [("selectedTrademarks", "[{}]"); ("reportData", "{}")].

Definition storedCorrupted : SessionStorage.t :=
  [("selectedTrademarks", "{oops"); ("reportData", "{}")].

(** Both texts parse; the one element of the stored array is [null]. *)
Definition storedNull : SessionStorage.t :=
  [("selectedTrademarks", "[null]"); ("reportData", "{}")].

(** Both texts parse; the stored array is empty. *)
Definition storedEmpty : SessionStorage.t :=
  [("selectedTrademarks", "[]"); ("reportData", "{}")].

End Sample.

(** A key that names a match of the report: what a selection may hold. *)
Definition validKey (entries : list Entry) (k : string) : Prop :=
  exists e i en s,
    k = trademarkId e i
    /\ nth_error entries e = Some en
    /\ nth_error (similarTrademarksOf en) i = Some s.

(** What the scenario asks of the rendered notices, with the deadline in
    the form the code's locale gives it. *)
Definition scenarioHolds (localOffsetMinutes : Z) : bool :=
  match Sample.scenarioTemplates localOffsetMinutes with
  | [(name, template)] =>
      String.eqb name "Acme Corp"
      && JsString.includes ("Trademark: TIGER" ++ nl) template
      && JsString.includes ("Class: 25" ++ tab ++ tab ++ nl) template
      && JsString.includes "Trademark Journal Date: 2237 " template
      && JsString.includes (nl ++ "Trademark: TYGER" ++ nl ++ "Class: 25" ++ nl) template
      && negb (JsString.includes "Class Class" template)
      && negb (JsString.includes "Class: Class" template)
      && JsString.includes "Notice of Opposition on or before 6 May 2025." template
  | _ => false
  end.

(** Every zone offset from UTC-12:00 to UTC+14:00, minute by minute. *)
Definition zoneOffsets : list Z :=
  map (fun n => Z.of_nat n - 720)%Z (seq 0 1561).

(* ================================================================== *)
(** ** More of the report page *)
(* ================================================================== *)

(** [arr.sort(compare)], which is stable: [goesAfter x y] tells that
    [compare(x, y)] is positive.  Written as an insertion from the right,
    which gives the stable order for every comparator that is consistent
    (the comparators of this page are differences of numbers). *)
Fixpoint insertSorted {A : Type} (goesAfter : A -> A -> bool) (x : A) (l : list A) : list A :=
  match l with
  | [] => [x]
  | y :: r => if goesAfter x y then y :: insertSorted goesAfter x r else x :: l
  end.

Definition stableSort {A : Type} (goesAfter : A -> A -> bool) (l : list A) : list A :=
  fold_right (insertSorted goesAfter) [] l.

(** [Math.max(a, b)]: [NaN] if either is [NaN]; [+0] is above [-0]. *)
Definition max2 (a b : float) : float :=
  if (is_nan a || is_nan b)%bool then nan
  else if (a <? b)%float then b
  else if (b <? a)%float then a
  else if get_sign a then b else a.

(** [Math.max(...values)]; it is [-Infinity] for no value. *)
Definition mathMax (values : list float) : float :=
  fold_left max2 values neg_infinity.

(** [getHighSimilarityEntries(entries, threshold)] *)
Definition getHighSimilarityEntries (entries : list Entry) (threshold : float) : list Entry :=
  filter (fun entry =>
            existsb (fun sim =>
                       let score := SimilarTrademark.similarity_score sim in
                       let normalizedScore := Score.normalize score in
                       (threshold <=? normalizedScore)%float)
                    (similarTrademarksOf entry))
         entries.

(** An element [{ entry, filtered }] of [entriesWithMatches]; the entry
    object is kept with the position it has in [entries], which is what
    [entries.findIndex((e) => e === entry)] finds again. *)
Record EntryWithMatches : Type := mkEntryWithMatches {
  ewm_entryIndex : nat;
  ewm_entry : Entry;
  ewm_filtered : list Sim
}.

(** [Math.max(...a.filtered.map((s) => s?.similarity_score || 0))] *)
Definition maxRawScore (item : EntryWithMatches) : float :=
  mathMax (map (fun s => Score.orZero (SimilarTrademark.similarity_score s)) (ewm_filtered item)).

(** [entriesWithMatches]: every entry with its matches of normalized
    score 0.3 and above, the entries without such a match dropped, in
    descending order of the highest raw score.  (What the callback
    writes with [console.log] is left out.) *)
Definition entriesWithMatches (entries : list Entry) : list EntryWithMatches :=
  stableSort (fun a b => (maxRawScore a <? maxRawScore b)%float)
    (filter (fun item => negb (List.length (ewm_filtered item) =? 0)%nat)
       (JsArray.mapi
          (fun entry entryIndex =>
             {| ewm_entryIndex := entryIndex;
                ewm_entry := entry;
                ewm_filtered :=
                  getFilteredSimilarTrademarks (similarTrademarksOf entry)
                    Score.minThresholdDefault |})
          entries)).

(** The [checked] attribute of the header checkbox of an entry's table. *)
Definition headerChecked (selectedTrademarks : JsSet.t) (entry : Entry)
    (actualEntryIndex : nat) (filtered : list Sim) : bool :=
  negb (List.length filtered =? 0)%nat
  && forallb (fun sim =>
                match actualSimIndexTable (similarTrademarksOf entry) sim with
                | Some simIndex =>
                    JsSet.has selectedTrademarks (trademarkId actualEntryIndex simIndex)
                | None => false
                end)
             filtered.

(** The [onChange] of the header checkbox: one state update per visible
    match that reconciles, applied in order. *)
Definition headerOnChange (checked : bool) (entry : Entry) (actualEntryIndex : nat)
    (filtered : list Sim) (prev : JsSet.t) : JsSet.t :=
  fold_left (fun s sim =>
               match actualSimIndexTable (similarTrademarksOf entry) sim with
               | Some simIndex => handleTrademarkSelect actualEntryIndex simIndex checked s
               | None => s
               end)
            filtered prev.

(** [entries.findIndex((e) => e === match.entry)] *)
Definition entryIndexOf (entries : list Entry) (m : Match) : option nat :=
  if (match_entry m <? List.length entries)%nat then Some (match_entry m) else None.

(** The body of [filteredMatches.forEach((match) => ...)] that fills
    [groupedByEntry]. *)
Definition groupByEntryStep (entries : list Entry) (groupedByEntry : list (nat * list Match))
    (m : Match) : list (nat * list Match) :=
  match entryIndexOf entries m with
  | None => groupedByEntry
  | Some entryIndex =>
      let groupedByEntry :=
        if JsMap.has Nat.eqb entryIndex groupedByEntry then groupedByEntry
        else JsMap.set Nat.eqb entryIndex [] groupedByEntry in
      match JsMap.get Nat.eqb entryIndex groupedByEntry with
      | None => groupedByEntry
      | Some ms => JsMap.set Nat.eqb entryIndex (ms ++ [m])%list groupedByEntry
      end
  end.

(** [groupedByEntry] of the applicant-filtered view. *)
Definition groupedByEntry (entries : list Entry) (filteredMatches : list Match)
    : list (nat * list Match) :=
  fold_left (groupByEntryStep entries) filteredMatches [].

(** The matches of a list that refer to the entry at position [k] of
    [entries], and the group a [Map] holds for them (none when there is
    no such match). *)
Definition validMatchesOf (entries : list Entry) (k : nat) (l : list Match) : list Match :=
  filter (fun m => (match_entry m =? k)%nat && (match_entry m <? List.length entries)%nat) l.

Definition asGroup (ms : list Match) : option (list Match) :=
  match ms with
  | [] => None
  | _ => Some ms
  end.

(** The value of [applicantMap] for one applicant. *)
Record ApplicantData : Type := mkApplicantData {
  data_count : nat;
  data_highestScore : float;
  data_matches : list Match
}.

(** The body of the inner [forEach] of [getUniqueApplicants], for the
    match [sim] of the entry at position [entryIndex]. *)
Definition uniqueApplicantsStep (applicantMap : list (string * ApplicantData))
    (m : Match) : list (string * ApplicantData) :=
  let sim := match_sim m in
  match JsField.value (SimilarTrademark.applicant_name sim) with
  | None => applicantMap
  | Some n =>
      if String.eqb n "" || String.eqb (JsString.trim n) "" then applicantMap
      else
        let applicantName := JsString.trim n in
        let normalizedScore := Score.normalize (SimilarTrademark.similarity_score sim) in
        let applicantMap :=
          if JsMap.has String.eqb applicantName applicantMap then applicantMap
          else JsMap.set String.eqb applicantName
                 {| data_count := 0; data_highestScore := normalizedScore;
                    data_matches := [] |} applicantMap in
        match JsMap.get String.eqb applicantName applicantMap with
        | None => applicantMap
        | Some applicantData =>
            JsMap.set String.eqb applicantName
              {| data_count := S (data_count applicantData);
                 data_highestScore := max2 (data_highestScore applicantData) normalizedScore;
                 data_matches := (data_matches applicantData ++ [m])%list |}
              applicantMap
        end
  end.

(** Every match of every entry, in the order of the two nested
    [forEach], each with the position of its entry. *)
Definition allMatches (entries : list Entry) : list Match :=
  List.concat
    (JsArray.mapi (fun entry entryIndex => map (mkMatch entryIndex) (similarTrademarksOf entry))
                  entries).

Record UniqueApplicant : Type := mkUniqueApplicant {
  ua_name : string;
  ua_matchCount : nat;
  ua_highestScore : float;
  ua_matches : list Match
}.

(** The comparator [b.matchCount - a.matchCount || b.highestScore - a.highestScore]. *)
Definition applicantGoesAfter (a b : UniqueApplicant) : bool :=
  if (ua_matchCount a <? ua_matchCount b)%nat then true
  else if (ua_matchCount b <? ua_matchCount a)%nat then false
  else (ua_highestScore a <? ua_highestScore b)%float.

(** [getUniqueApplicants(entries)] *)
Definition getUniqueApplicants (entries : list Entry) : list UniqueApplicant :=
  stableSort applicantGoesAfter
    (map (fun nd =>
            {| ua_name := fst nd;
               ua_matchCount := data_count (snd nd);
               ua_highestScore := data_highestScore (snd nd);
               ua_matches := data_matches (snd nd) |})
         (fold_left uniqueApplicantsStep (allMatches entries) [])).

(** [getRiskLevel(score)] *)
Record RiskLevel : Type := mkRisk {
  risk_level : string;
  risk_color : string;
  risk_icon : string
}.

Definition getRiskLevel (score : float) : RiskLevel :=
  if (0x1.999999999999ap-1 <=? score)%float
  then {| risk_level := "HIGH RISK"; risk_color := "red"; risk_icon := "alert-circle" |}
  else if (0x1.3333333333333p-1 <=? score)%float
  then {| risk_level := "MEDIUM RISK"; risk_color := "yellow"; risk_icon := "alert-triangle" |}
  else {| risk_level := "LOW RISK"; risk_color := "green"; risk_icon := "check-circle" |}.

(** [getScoreColor(score)]; the thresholds are the binary64 values of
    0.8, 0.7 and 0.5. *)
Definition getScoreColor (score : float) : string :=
  if (0x1.999999999999ap-1 <=? score)%float then "bg-red-100 text-red-800 border-red-300"
  else if (0x1.6666666666666p-1 <=? score)%float
  then "bg-orange-100 text-orange-800 border-orange-300"
  else if (0.5 <=? score)%float then "bg-yellow-100 text-yellow-800 border-yellow-300"
  else "bg-gray-100 text-gray-800 border-gray-300".

(** The default [threshold = 0.8] of [getHighSimilarityEntries]. *)
Definition highThresholdDefault : float := 0x1.999999999999ap-1.

(** Whether [getUniqueApplicants] counts a match, and under which name. *)
Definition countedUnder (name : string) (m : Match) : bool :=
  match JsField.value (SimilarTrademark.applicant_name (match_sim m)) with
  | Some n =>
      negb (String.eqb n "") && negb (String.eqb (JsString.trim n) "")
      && String.eqb (JsString.trim n) name
  | None => false
  end.

Definition normalizedScoreOf (m : Match) : float :=
  Score.normalize (SimilarTrademark.similarity_score (match_sim m)).

(** The data [applicantMap] holds for the matches [ms] counted under
    one name, in the order they were met. *)
Definition dataOf (ms : list Match) : option ApplicantData :=
  match ms with
  | [] => None
  | m0 :: _ =>
      Some {| data_count := List.length ms;
              data_highestScore :=
                fold_left max2 (map normalizedScoreOf ms) (normalizedScoreOf m0);
              data_matches := ms |}
  end.

(** What a tidy source name looks like: no underscore, no white space
    but the space, and no two white-space code units in a row. *)
Definition notUnderscore (c : ascii) : bool := negb (Ascii.eqb c "_").

Definition spaceIfWhite (c : ascii) : bool :=
  negb (JsString.isWhiteSpace c) || Ascii.eqb c " ".

Fixpoint noAdjacentSpaces (s : string) : bool :=
  match s with
  | String a r =>
      match r with
      | String b _ => negb (JsString.isWhiteSpace a && JsString.isWhiteSpace b)
      | EmptyString => true
      end && noAdjacentSpaces r
  | EmptyString => true
  end.

(** Whether a key is the key of a visible match of the table that
    reconciles: the keys the header checkbox acts on. *)
Definition addressedBy (entry : Entry) (actualEntryIndex : nat) (filtered : list Sim)
    (k : string) : bool :=
  existsb (fun sim =>
             match actualSimIndexTable (similarTrademarksOf entry) sim with
             | Some simIndex => String.eqb k (trademarkId actualEntryIndex simIndex)
             | None => false
             end)
          filtered.

(** What the loop of [getUniqueApplicants] keeps true of [applicantMap]
    after the matches [done]. *)
Definition applicantsInvariant (st : list (string * ApplicantData)) (done : list Match) : Prop :=
  NoDup (map fst st)
  /\ forall name, JsMap.get String.eqb name st = dataOf (filter (countedUnder name) done).

(** "Less than or equal" read off a comparison of two numbers. *)
Definition cmpLe (c : option comparison) : bool :=
  match c with
  | Some Lt | Some Eq => true
  | _ => false
  end.


(** [Math.max(...filtered.map((s) => s.similarity_score))], the score
    whose risk level an item of the list shows. *)
Definition highestScoreOf (filtered : list Sim) : float :=
  mathMax (map SimilarTrademark.similarity_score filtered).

(** What the grouping loop keeps true of the entry filed under a
    position: it is the entry of a selected match of that position among
    the matches [done]. *)
Definition filedUnderOwnEntry (done : list SelectedTrademark) (ie : nat * EntryGroup) : Prop :=
  exists t, In t done /\ entryIndex t = fst ie /\ entry t = group_entry (snd ie).

(* ================================================================== *)
(** ** Calendar dates within one era of 400 years *)
(* ================================================================== *)

Open Scope Z_scope.

(** The two halves of [JsDate.daysFromCivil] and [JsDate.civilFromDays]
    that work inside an era: the day of the era of a date (the year of
    the era from 0 to 399, years beginning in March), and back. *)
Definition dayOfEra (yoe m d : Z) : Z :=
  let doy := (153 * (if 2 <? m then m - 3 else m + 9) + 2) / 5 + d - 1 in
  yoe * 365 + yoe / 4 - yoe / 100 + doy.

Definition civilOfDayOfEra (doe : Z) : Z * Z * Z :=
  let yoe := (doe - doe / 1460 + doe / 36524 - doe / 146096) / 365 in
  let doy := doe - (365 * yoe + yoe / 4 - yoe / 100) in
  let mp := (5 * doy + 2) / 153 in
  let d := doy - (153 * mp + 2) / 5 + 1 in
  let m := if mp <? 10 then mp + 3 else mp - 9 in
  (yoe, m, d).

(** [p] holds of the [n] integers from [start] on. *)
Fixpoint allFrom (p : Z -> bool) (n : nat) (start : Z) : bool :=
  match n with
  | O => true
  | S n' => p start && allFrom p n' (start + 1)
  end.

Close Scope Z_scope.

(* ================================================================== *)
(** ** The upload tab: the Monday of a journal *)
(* ================================================================== *)

Section LocalDate.

Open Scope Z_scope.

(** The zone of the browser, a fixed offset in minutes east of UTC. *)
Variable localOffsetMinutes : Z.

(** The local day number of a time value. *)
Definition localDay (tv : Z) : Z :=
  JsDate.localTime localOffsetMinutes tv / JsDate.msPerDay.

(** [date.getDay()]: 0 is Sunday, 1 is Monday. *)
Definition getDay (d : JsDate.t) : option Z :=
  match d with
  | None => None
  | Some tv => Some ((localDay tv + 4) mod 7)
  end.

(** [date.getDate()] *)
Definition getDate (d : JsDate.t) : option Z :=
  match d with
  | None => None
  | Some tv => let '(_, _, dt) := JsDate.civilFromDays (localDay tv) in Some dt
  end.

(** [date.getFullYear()] *)
Definition getFullYear (d : JsDate.t) : option Z :=
  match d with
  | None => None
  | Some tv => let '(y, _, _) := JsDate.civilFromDays (localDay tv) in Some y
  end.

(** [date.setDate(dt)]: the time value the date holds afterwards. *)
Definition setDate (d : JsDate.t) (date : option Z) : JsDate.t :=
  match d, date with
  | Some tv, Some dt =>
      let lt := JsDate.localTime localOffsetMinutes tv in
      let '(y, m, _) := JsDate.civilFromDays (lt / JsDate.msPerDay) in
      let newDate := JsDate.MakeDate (JsDate.MakeDay y (m - 1) dt) (lt mod JsDate.msPerDay) in
      JsDate.TimeClip (newDate - localOffsetMinutes * JsDate.msPerMinute)
  | _, _ => None
  end.

(** [date.setHours(hour, min, sec, ms)] *)
Definition setHours (d : JsDate.t) (hour min sec ms : Z) : JsDate.t :=
  match d with
  | Some tv =>
      let lt := JsDate.localTime localOffsetMinutes tv in
      let date := JsDate.MakeDate (lt / JsDate.msPerDay) (JsDate.MakeTime hour min sec ms) in
      JsDate.TimeClip (date - localOffsetMinutes * JsDate.msPerMinute)
  | None => None
  end.

(** [String(x)] and [`${x}`] on a number that may be [NaN]. *)
Definition numberText (x : option Z) : string :=
  match x with
  | Some z => JsString.ofZ z
  | None => "NaN"
  end.

(** [s.padStart(2, '0')] *)
Definition padStart2 (s : string) : string :=
  match String.length s with
  | O => "00"
  | S O => "0" ++ s
  | _ => s
  end.

(** [formatDateForAPI(date)] *)
Definition formatDateForAPI (date : JsDate.t) : string :=
  let year := getFullYear date in
  let month :=
    padStart2 (numberText (option_map (fun m => m + 1)
                                      (JsDate.getMonth localOffsetMinutes date))) in
  let day := padStart2 (numberText (getDate date)) in
  numberText year ++ "-" ++ month ++ "-" ++ day.

(** [a - b] and [a + b] on numbers that may be [NaN]. *)
Definition minus (a b : option Z) : option Z :=
  match a, b with
  | Some x, Some y => Some (x - y)
  | _, _ => None
  end.

Definition plus (a b : option Z) : option Z :=
  match a, b with
  | Some x, Some y => Some (x + y)
  | _, _ => None
  end.

(** [availableMondays], for [today = new Date()]. *)
Definition availableMondays (today : JsDate.t) : list (JsDate.t * string) :=
  let currentDay := getDay today in
  let daysFromMonday := option_map (fun c => if c =? 0 then 6 else c - 1) currentDay in
  let startMonday := today in
  let startMonday := setDate startMonday (minus (getDate today) daysFromMonday) in
  let startMonday := setHours startMonday 0 0 0 0 in
  let before :=
    map (fun i =>
           let monday := startMonday in
           let monday := setDate monday (minus (getDate startMonday) (Some (i * 7))) in
           let formatted := formatDateForAPI monday in
           (monday, formatted))
        [4; 3; 2; 1] in
  let formatted := formatDateForAPI startMonday in
  let current := [(startMonday, formatted)] in
  let ahead :=
    map (fun i =>
           let monday := startMonday in
           let monday := setDate monday (plus (getDate startMonday) (Some (i * 7))) in
           let formatted := formatDateForAPI monday in
           (monday, formatted))
        [1; 2; 3; 4] in
  (before ++ current ++ ahead)%list.

(** The effect that sets the default Monday: the value of
    [selectedMonday] afterwards.  The list read is never empty when the
    position is looked up. *)
Definition defaultMonday (selectedMonday : string)
    (availableMondays : list (JsDate.t * string)) : string :=
  if (String.eqb selectedMonday "" && (0 <? List.length availableMondays)%nat)%bool
  then
    let currentMondayIndex := (List.length availableMondays / 2)%nat in
    match nth_error availableMondays currentMondayIndex with
    | Some monday => snd monday
    | None => selectedMonday
    end
  else selectedMonday.

End LocalDate.

(** The time value of the local midnight that begins the local day
    [day], and the day number of the Monday on or before a day (day 0,
    the first of January 1970, was a Thursday). *)
Definition localMidnight (offset day : Z) : Z :=
  (day * JsDate.msPerDay - offset * JsDate.msPerMinute)%Z.

Definition mondayOf (day : Z) : Z := (day - (day + 3) mod 7)%Z.

(** The text [formatDateForAPI] writes for a date of the calendar. *)
Definition ymdText (y m d : Z) : string :=
  JsString.ofZ y ++ "-" ++ padStart2 (JsString.ofZ m) ++ "-" ++ padStart2 (JsString.ofZ d).

(** The month and the year four months after a month of a year. *)
Definition monthAfterFour (m : Z) : Z := ((m + 3) mod 12 + 1)%Z.
Definition yearAfterFour (y m : Z) : Z := (y + (m + 3) / 12)%Z.

(** The text of a time of the day in a timestamp of the server. *)
Definition hmsText (h mi s : Z) : string :=
  padStart2 (JsString.ofZ h) ++ ":" ++ padStart2 (JsString.ofZ mi) ++ ":"
  ++ padStart2 (JsString.ofZ s).

(** What is asked of the text of a number of two digits. *)
Definition checkTwoDigits (n : Z) : bool :=
  let s := padStart2 (JsString.ofZ n) in
  JsString.allChars JsString.isDigit s
  && match DateText.Number s with
     | Some v => (v =? n)%Z
     | None => false
     end.

(* ================================================================== *)
(** * Properties *)
(* ================================================================== *)

(** ** The platform model on concrete values *)

(** The arguments are the binary64 values of [0.85 * 100], [2.5],
    [1234.5678], [-0.01] and [NaN]. *)
Example toFixed_rounds_to_nearest :
  JsNumber.toFixed 1 (0x1.b333333333333p-1 * 100)%float = Some "85.0"
  /\ JsNumber.toFixed 0 2.5%float = Some "3"
  /\ JsNumber.toFixed 3 0x1.34a456d5cfaadp+10%float = Some "1234.568"
  /\ JsNumber.toFixed 1 (-0x1.47ae147ae147bp-7)%float = Some "-0.0"
  /\ JsNumber.toFixed 2 nan = Some "NaN".
Proof. repeat split; vm_compute; reflexivity. Qed.

Example trim_both_ends :
  JsString.trim "  Acme  Corp  " = "Acme  Corp" /\ JsString.trim "   " = "".
Proof. split; reflexivity. Qed.

Example parseServerDate_formats :
  DateText.parseServerDate "2025-01-06" = Some 1736121600000%Z
  /\ DateText.parseServerDate "2025-12-29T19:29:13.792941" = Some 1767036553000%Z
  /\ DateText.parseServerDate "2025-12-29 19:29:13" = Some 1767036553000%Z
  /\ DateText.parseServerDate "next monday" = None.
Proof. repeat split; vm_compute; reflexivity. Qed.

Example formatDate_in_Kolkata :
  formatDate "2025-12-29T19:29:13.792941" = "30 December 2025"
  /\ formatDate "2025-01-06" = "6 January 2025".
Proof. split; vm_compute; reflexivity. Qed.

Example setMonth_overflows_into_next_month :
  formatOppositionDeadline 330 "2025-10-31" = "3 March 2026".
Proof. vm_compute. reflexivity. Qed.

Example formatPdfSource_cleans_name :
  formatPdfSource (Some "Journal_2237_CLASS 1 - 30_page86_img39.PDF")
  = "Journal 2237 CLASS 1 - 30 page86 img39"
  /\ formatPdfSource None = "N/A".
Proof. split; reflexivity. Qed.

Example matchJournalNumber_leftmost :
  matchJournalNumber "Journal_2237_Class25.pdf" = Some "2237"
  /\ matchJournalNumber "Journal_x_Journal_17" = Some "17"
  /\ matchJournalNumber "journal_2237" = None.
Proof. repeat split. Qed.

Example trademarkId_text : trademarkId 10 203 = "10-203".
Proof. reflexivity. Qed.

(** ** [findIndex] *)

Section FindIndex.

Context {A : Type} (p : A -> bool).

Lemma findIndex_Some_first (l : list A) (i : nat) :
  JsArray.findIndex p l = Some i ->
  (exists x, nth_error l i = Some x /\ p x = true)
  /\ (forall k y, k < i -> nth_error l k = Some y -> p y = false).
Proof.
  revert i. induction l as [|a l IH]; intros i; simpl.
  - discriminate.
  - destruct (p a) eqn:Hpa.
    + intros [= <-]. split.
      * exists a. split; [reflexivity | exact Hpa].
      * intros k y Hk. lia.
    + destruct (JsArray.findIndex p l) as [j|] eqn:Hj; simpl; [|discriminate].
      intros [= <-]. destruct (IH j eq_refl) as [Hx Hmin]. split.
      * exact Hx.
      * intros [|k] y Hk; simpl.
        -- intros [= <-]. exact Hpa.
        -- apply Hmin. lia.
Qed.

Lemma findIndex_hit (l : list A) (i : nat) (x : A) :
  nth_error l i = Some x -> p x = true ->
  exists j, JsArray.findIndex p l = Some j /\ j <= i.
Proof.
  revert i. induction l as [|a l IH]; intros [|i]; simpl; try discriminate.
  - intros [= ->] ->. exists 0. split; [reflexivity | lia].
  - intros Hn Hp. destruct (p a).
    + exists 0. split; [reflexivity | lia].
    + destruct (IH i Hn Hp) as [j [-> Hle]]. exists (S j). split; [reflexivity | lia].
Qed.

Lemma findIndex_lt (l : list A) (i : nat) :
  JsArray.findIndex p l = Some i -> i < List.length l.
Proof.
  intros H. destruct (findIndex_Some_first l i H) as [[x [Hx _]] _].
  apply nth_error_Some. rewrite Hx. discriminate.
Qed.

Lemma findIndex_None (l : list A) :
  JsArray.findIndex p l = None -> forall x, In x l -> p x = false.
Proof.
  induction l as [|a l IH]; simpl; intros H x Hin; [contradiction|].
  destruct (p a) eqn:Hpa; [discriminate|].
  destruct (JsArray.findIndex p l); [discriminate|].
  destruct Hin as [<-|Hin]; [exact Hpa | apply IH; [reflexivity | exact Hin]].
Qed.

End FindIndex.

(** ** The score tolerance relates every finite score to itself *)

Lemma Prim2SF_cases (x : float) :
  is_nan x = false -> is_infinity x = false ->
  exists s, Prim2SF x = S754_zero s \/ exists m e, Prim2SF x = S754_finite s m e.
Proof.
  intros Hn Hi. unfold Prim2SF. rewrite Hn, Hi.
  destruct (is_zero x).
  - eexists. left. reflexivity.
  - destruct (Z.frexp x) as [r e].
    destruct (shr_fexp prec emax (Uint63Axioms.to_Z (normfr_mantissa r)) (e - prec) loc_Exact)
      as [shr e'].
    destruct (shr_m shr).
    + exists false. left. reflexivity.
    + eexists. right. eexists. eexists. reflexivity.
    + exists false. left. reflexivity.
Qed.

Lemma close_refl (x : float) :
  is_infinity x = false -> Score.close x x = true.
Proof.
  intros Hi. unfold Score.close, Score.orZero.
  destruct (is_nan x || is_zero x)%bool eqn:Hz.
  - vm_compute. reflexivity.
  - apply orb_false_iff in Hz. destruct Hz as [Hn _].
    rewrite ltb_spec, abs_spec, sub_spec.
    destruct (Prim2SF_cases x Hn Hi) as [s [-> | [m [e ->]]]].
    + destruct s; vm_compute; reflexivity.
    + unfold SF64sub, SFsub. rewrite Z.sub_diag. vm_compute. reflexivity.
Qed.

Lemma optStringEqb_refl (o : JsField.t) : optStringEqb o o = true.
Proof. destruct o; simpl; [reflexivity | reflexivity | apply String.eqb_refl]. Qed.

Lemma sameSimTable_refl (c : Sim) :
  is_infinity (SimilarTrademark.similarity_score c) = false -> sameSimTable c c = true.
Proof.
  intros H. unfold sameSimTable.
  rewrite String.eqb_refl, (close_refl _ H), optStringEqb_refl. reflexivity.
Qed.

Lemma sameSimApplicantView_refl (c : Sim) :
  is_infinity (SimilarTrademark.similarity_score c) = false -> sameSimApplicantView c c = true.
Proof.
  intros H. unfold sameSimApplicantView.
  rewrite String.eqb_refl, (close_refl _ H), !optStringEqb_refl. reflexivity.
Qed.

(** ** The alternative field names of an entry *)

(** C7 (as the code has it).  The match sequence of an entry is the
    first of the four fields [similar_trademarks], [similar_trademark],
    [similarities], [matches] that is present at all (an empty array
    counts as present); when none is present it is the empty sequence.
    Whenever the chosen sequence is not empty it is also the first
    non-empty one. *)
Theorem similarTrademarks_first_present :
  forall entry : Entry,
    similarTrademarksOf entry = firstPresent entry
    /\ (forallb (fun o => negb (isPresent o)) (fieldsInOrder entry) = true ->
        similarTrademarksOf entry = [])
    /\ (similarTrademarksOf entry <> [] ->
        similarTrademarksOf entry = spec_firstNonEmpty entry).
Proof.
  intros entry. unfold similarTrademarksOf, firstPresent, spec_firstNonEmpty, fieldsInOrder.
  destruct (JournalTrademarkEntry.similar_trademarks entry) as [[|a la]|];
    destruct (JournalTrademarkEntry.similar_trademark entry) as [[|b lb]|];
    destruct (JournalTrademarkEntry.similarities entry) as [[|c lc]|];
    destruct (JournalTrademarkEntry.matches entry) as [[|d ld]|];
    simpl; (split; [reflexivity|split]); intros H; try reflexivity; try discriminate H;
    exfalso; apply H; reflexivity.
Qed.

(** C7 (as stated) fails: with [similar_trademarks] present but empty
    and [matches] holding one match, the code uses the empty sequence,
    while the first non-empty sequence is that of [matches]. *)
Lemma first_nonempty_counterexample :
  JournalTrademarkEntry.similar_trademarks Sample.tigerEmptyFirst = Some []
  /\ JournalTrademarkEntry.matches Sample.tigerEmptyFirst = Some [Sample.tyger]
  /\ spec_firstNonEmpty Sample.tigerEmptyFirst = [Sample.tyger]
  /\ similarTrademarksOf Sample.tigerEmptyFirst = [].
Proof. repeat split. Qed.

Lemma similarTrademarks_first_present_witness :
  similarTrademarksOf Sample.tiger = firstPresent Sample.tiger
  /\ similarTrademarksOf Sample.tiger = spec_firstNonEmpty Sample.tiger.
Proof.
  destruct (similarTrademarks_first_present Sample.tiger) as [H1 [_ H3]].
  split; [exact H1 | apply H3; discriminate].
Defined.

(** ** A reconciliation miss skips one item only *)

Lemma renderTableRow_parts sel entry idx sim k :
  renderTableRow sel entry idx sim k = (tableSlot sel entry idx sim k, tableWarnings entry idx sim).
Proof.
  unfold tableSlot, tableWarnings, renderTableRow.
  destruct (actualSimIndexTable (similarTrademarksOf entry) sim); reflexivity.
Qed.

Lemma renderTableRowsFrom_parts sel entry idx filtered :
  forall k,
    renderTableRowsFrom sel entry idx k filtered
    = (JsArray.mapi_from (tableSlot sel entry idx) k filtered,
       flat_map (tableWarnings entry idx) filtered).
Proof.
  induction filtered as [|sim rest IH]; intros k; simpl.
  - reflexivity.
  - rewrite renderTableRow_parts, IH. unfold bind, ret. simpl.
    rewrite app_nil_r. reflexivity.
Qed.

Lemma renderMatchCard_parts sel entries e m k :
  renderMatchCard sel entries e m k = (cardSlot sel entries e m k, cardWarnings entries e m).
Proof.
  unfold cardSlot, cardWarnings, renderMatchCard.
  destruct (nth_error entries e) as [entryForMatch|]; [|reflexivity].
  destruct (actualSimIndexApplicantView (similarTrademarksOf entryForMatch) (match_sim m));
    reflexivity.
Qed.

Lemma renderMatchCardsFrom_parts sel entries e matches :
  forall k,
    renderMatchCardsFrom sel entries e k matches
    = (JsArray.mapi_from (cardSlot sel entries e) k matches,
       flat_map (cardWarnings entries e) matches).
Proof.
  induction matches as [|m rest IH]; intros k; simpl.
  - reflexivity.
  - rewrite renderMatchCard_parts, IH. unfold bind, ret. simpl.
    rewrite app_nil_r. reflexivity.
Qed.

(** A miss is a skip.  On arrays without a [null] element, every match
    of a derived view gets its own slot, decided by that match alone.
    The slot is empty (the item is omitted) exactly when reconciliation
    finds no position, and then one warning is logged for it; every
    other match is rendered with the key of its reconciled position.
    This holds for the similar-trademarks table and for the
    applicant-filtered view. *)
Theorem reconciliation_miss_skips_only_that_item :
  forall (sel : JsSet.t) (entries : list Entry) (entry : Entry) (e : nat)
         (filtered : list Sim) (matches : list Match),
    (fst (renderTableRows sel entry e filtered)
       = JsArray.mapi (tableSlot sel entry e) filtered
     /\ snd (renderTableRows sel entry e filtered)
       = flat_map (tableWarnings entry e) filtered
     /\ forall sim k,
         match actualSimIndexTable (similarTrademarksOf entry) sim with
         | None => tableSlot sel entry e sim k = None
                   /\ List.length (tableWarnings entry e sim) = 1
         | Some i => (exists row, tableSlot sel entry e sim k = Some row
                                  /\ row_trademarkId row = trademarkId e i)
                     /\ tableWarnings entry e sim = []
         end)
    /\ (fst (renderMatchCards sel entries e matches)
          = JsArray.mapi (cardSlot sel entries e) matches
        /\ snd (renderMatchCards sel entries e matches)
          = flat_map (cardWarnings entries e) matches
        /\ forall m k,
            nth_error entries e = Some entry ->
            match actualSimIndexApplicantView (similarTrademarksOf entry) (match_sim m) with
            | None => cardSlot sel entries e m k = None
                      /\ List.length (cardWarnings entries e m) = 1
            | Some i => (exists card, cardSlot sel entries e m k = Some card
                                      /\ card_trademarkId card = trademarkId e i)
                        /\ cardWarnings entries e m = []
            end).
Proof.
  intros sel entries entry e filtered matches. split.
  - unfold renderTableRows, JsArray.mapi. rewrite renderTableRowsFrom_parts.
    split; [reflexivity|]. split; [reflexivity|].
    intros sim k. unfold tableSlot, tableWarnings, renderTableRow.
    destruct (actualSimIndexTable (similarTrademarksOf entry) sim) as [i|]; simpl.
    + split; [|reflexivity]. eexists. split; reflexivity.
    + split; reflexivity.
  - unfold renderMatchCards, JsArray.mapi. rewrite renderMatchCardsFrom_parts.
    split; [reflexivity|]. split; [reflexivity|].
    intros m k He. unfold cardSlot, cardWarnings, renderMatchCard. rewrite He.
    destruct (actualSimIndexApplicantView (similarTrademarksOf entry) (match_sim m)) as [i|];
      simpl.
    + split; [|reflexivity]. eexists. split; reflexivity.
    + split; reflexivity.
Qed.

Lemma reconciliation_miss_skips_only_that_item_witness :
  fst (renderTableRows JsSet.empty Sample.tiger 0 [Sample.tygerPercent; Sample.tyger])
  = JsArray.mapi (tableSlot JsSet.empty Sample.tiger 0) [Sample.tygerPercent; Sample.tyger]
  /\ cardSlot JsSet.empty [Sample.tiger] 0 (mkMatch 0 Sample.tygerPercent) 0 = None.
Proof.
  destruct (reconciliation_miss_skips_only_that_item
              JsSet.empty [Sample.tiger] Sample.tiger 0
              [Sample.tygerPercent; Sample.tyger] [mkMatch 0 Sample.tygerPercent])
    as [[HT _] [_ [_ HC]]].
  split; [exact HT|].
  exact (proj1 (HC (mkMatch 0 Sample.tygerPercent) 0 eq_refl)).
Defined.

(** ** Score display *)

(** C4 (the code departs from it).  A score that arrives as a fraction
    renders as "85.0%"; the same score arriving as the percentage 85
    renders as "85.0%" in the applicant-filtered view, which normalizes
    it first, but as "8500.0%" in the score cell of the
    similar-trademarks table, which formats the raw value. *)
Example table_score_cell_formats_raw_score :
  formatPercentage (SimilarTrademark.similarity_score Sample.tyger) = Some "85.0%"
  /\ formatPercentage (Score.normalize 85) = Some "85.0%"
  /\ option_map card_score
       (cardSlot JsSet.empty [Sample.tigerPercent] 0 (mkMatch 0 Sample.tygerPercent) 0)
     = Some (Some "85.0%")
  /\ option_map row_score
       (tableSlot JsSet.empty Sample.tigerPercent 0 Sample.tygerPercent 0)
     = Some (Some "8500.0%").
Proof. repeat split; vm_compute; reflexivity. Qed.

(** ** Composite keys *)

Lemma string_of_uint_digits (d : Decimal.uint) :
  JsString.allChars JsString.isDigit (NilEmpty.string_of_uint d) = true.
Proof. induction d; simpl; auto. Qed.

Lemma ofNat_digits (n : nat) : JsString.allChars JsString.isDigit (JsString.ofNat n) = true.
Proof. apply string_of_uint_digits. Qed.

Lemma ofNat_inj (a b : nat) : JsString.ofNat a = JsString.ofNat b -> a = b.
Proof.
  unfold JsString.ofNat. intros H.
  assert (Hu : Some (Nat.to_uint a) = Some (Nat.to_uint b)).
  { rewrite <- !NilEmpty.usu. rewrite H. reflexivity. }
  injection Hu as Hu.
  rewrite <- (Unsigned.of_to a), <- (Unsigned.of_to b), Hu. reflexivity.
Qed.

Lemma dash_split (a a' b b' : string) :
  JsString.allChars JsString.isDigit a = true ->
  JsString.allChars JsString.isDigit a' = true ->
  a ++ "-" ++ b = a' ++ "-" ++ b' -> a = a' /\ b = b'.
Proof.
  revert a'. induction a as [|c a IH]; intros [|c' a']; simpl; intros Ha Ha' H.
  - injection H as H. split; [reflexivity | exact H].
  - injection H as Hc _. subst c'. discriminate Ha'.
  - injection H as Hc _. subst c. discriminate Ha.
  - injection H as Hc H. subst c'.
    apply andb_true_iff in Ha, Ha'.
    destruct (IH a' (proj2 Ha) (proj2 Ha') H) as [-> ->]. split; reflexivity.
Qed.

Lemma trademarkId_inj (e i e' i' : nat) :
  trademarkId e i = trademarkId e' i' -> e = e' /\ i = i'.
Proof.
  unfold trademarkId. intros H.
  apply dash_split in H; try apply ofNat_digits.
  destruct H as [He Hi]. split; apply ofNat_inj; assumption.
Qed.

Lemma trademarkId_eqb (e i e' i' : nat) :
  String.eqb (trademarkId e i) (trademarkId e' i') = ((e =? e')%nat && (i =? i')%nat)%bool.
Proof.
  destruct (String.eqb_spec (trademarkId e i) (trademarkId e' i')) as [H|H].
  - apply trademarkId_inj in H. destruct H as [-> ->].
    rewrite !Nat.eqb_refl. reflexivity.
  - symmetry. apply andb_false_iff.
    destruct (Nat.eqb_spec e e') as [->|]; [|left; reflexivity].
    destruct (Nat.eqb_spec i i') as [->|]; [|right; reflexivity].
    exfalso. apply H. reflexivity.
Qed.

(** ** The selection set *)

Lemma has_In (s : JsSet.t) (k : string) : JsSet.has s k = true <-> In k s.
Proof.
  unfold JsSet.has. rewrite existsb_exists. split.
  - intros [x [Hin Heq]]. apply String.eqb_eq in Heq. subst. exact Hin.
  - intros Hin. exists k. split; [exact Hin | apply String.eqb_refl].
Qed.

Lemma has_add (s : JsSet.t) (k k' : string) :
  JsSet.has (JsSet.add k s) k' = (String.eqb k' k || JsSet.has s k')%bool.
Proof.
  unfold JsSet.add. destruct (JsSet.has s k) eqn:Hk.
  - destruct (String.eqb_spec k' k) as [->|]; [rewrite Hk|]; reflexivity.
  - unfold JsSet.has. rewrite existsb_app. simpl. rewrite orb_false_r. apply orb_comm.
Qed.

Lemma has_delete (s : JsSet.t) (k k' : string) :
  JsSet.has (JsSet.delete k s) k' = (negb (String.eqb k' k) && JsSet.has s k')%bool.
Proof.
  unfold JsSet.has, JsSet.delete. induction s as [|x s IH]; simpl.
  - rewrite andb_false_r. reflexivity.
  - destruct (String.eqb_spec x k) as [->|Hx]; simpl.
    + rewrite IH. destruct (String.eqb k' k); reflexivity.
    + rewrite IH. destruct (String.eqb_spec k' x) as [->|]; simpl.
      * destruct (String.eqb_spec x k); [contradiction | reflexivity].
      * reflexivity.
Qed.

Lemma has_handleTrademarkSelect (e i : nat) (checked : bool) (s : JsSet.t) (k : string) :
  JsSet.has (handleTrademarkSelect e i checked s) k
  = if String.eqb k (trademarkId e i) then checked else JsSet.has s k.
Proof.
  unfold handleTrademarkSelect. destruct checked.
  - rewrite has_add. destruct (String.eqb k (trademarkId e i)); reflexivity.
  - rewrite has_delete. destruct (String.eqb k (trademarkId e i)); reflexivity.
Qed.

Lemma NoDup_add (k : string) (s : JsSet.t) : NoDup s -> NoDup (JsSet.add k s).
Proof.
  intros H. unfold JsSet.add. destruct (JsSet.has s k) eqn:Hk; [exact H|].
  apply NoDup_app; [exact H | |].
  - constructor; [intros [] | constructor].
  - intros x Hx [<-|[]]. apply has_In in Hx. congruence.
Qed.

Lemma NoDup_delete (k : string) (s : JsSet.t) : NoDup s -> NoDup (JsSet.delete k s).
Proof. intros H. unfold JsSet.delete. apply NoDup_filter. exact H. Qed.

Lemma NoDup_handleTrademarkSelect (e i : nat) (checked : bool) (s : JsSet.t) :
  NoDup s -> NoDup (handleTrademarkSelect e i checked s).
Proof.
  intros H. unfold handleTrademarkSelect.
  destruct checked; [apply NoDup_add | apply NoDup_delete]; exact H.
Qed.

Lemma has_clickCheckbox (s : JsSet.t) (e i e' i' : nat) :
  JsSet.has (clickCheckbox s (e', i')) (trademarkId e i)
  = xorb ((e' =? e)%nat && (i' =? i)%nat) (JsSet.has s (trademarkId e i)).
Proof.
  unfold clickCheckbox. rewrite has_handleTrademarkSelect, trademarkId_eqb.
  rewrite (Nat.eqb_sym e e'), (Nat.eqb_sym i i').
  destruct ((e' =? e)%nat && (i' =? i)%nat)%bool eqn:Heq; simpl.
  - apply andb_true_iff in Heq. destruct Heq as [He Hi].
    apply Nat.eqb_eq in He, Hi. subst. reflexivity.
  - reflexivity.
Qed.

Lemma has_clickCheckboxes (clicks : list (nat * nat)) :
  forall (s : JsSet.t) (e i : nat),
    JsSet.has (clickCheckboxes clicks s) (trademarkId e i)
    = xorb (Nat.odd (clicksOn e i clicks)) (JsSet.has s (trademarkId e i)).
Proof.
  unfold clickCheckboxes, clicksOn.
  induction clicks as [|[e' i'] clicks IH]; intros s e i.
  - reflexivity.
  - cbn [fold_left filter fst snd]. rewrite IH, has_clickCheckbox.
    destruct ((e' =? e)%nat && (i' =? i)%nat)%bool; cbn [List.length].
    + rewrite Nat.odd_succ, <- Nat.negb_odd.
      destruct (Nat.odd _), (JsSet.has s _); reflexivity.
    + reflexivity.
Qed.

(** C5 (as the code has it).  For every finite sequence of checkbox
    clicks on matches, starting from the empty selection, a composite key
    is in the final selection exactly when its match was clicked an odd
    number of times: a click passes the negation of the key's current
    membership to [handleTrademarkSelect], and is its own inverse.  The
    set never holds a key twice. *)
Theorem clicks_select_odd_keys :
  forall (clicks : list (nat * nat)) (e i : nat),
    JsSet.has (clickCheckboxes clicks JsSet.empty) (trademarkId e i)
    = Nat.odd (clicksOn e i clicks)
    /\ (forall (s : JsSet.t) (k : string),
          JsSet.has (clickCheckbox (clickCheckbox s (e, i)) (e, i)) k = JsSet.has s k)
    /\ NoDup (clickCheckboxes clicks JsSet.empty).
Proof.
  intros clicks e i. split; [|split].
  - rewrite has_clickCheckboxes. simpl. apply xorb_false_r.
  - intros s k. unfold clickCheckbox. rewrite !has_handleTrademarkSelect.
    rewrite String.eqb_refl.
    destruct (String.eqb_spec k (trademarkId e i)) as [->|_];
      [apply negb_involutive | reflexivity].
  - unfold clickCheckboxes. generalize (NoDup_nil string).
    change JsSet.empty with (@nil string). generalize (@nil string) as s.
    induction clicks as [|[e' i'] clicks IH]; intros s Hs; simpl; [exact Hs|].
    apply IH. apply NoDup_handleTrademarkSelect. exact Hs.
Qed.

(** C5 (as stated) fails for [handleTrademarkSelect] itself, which sets
    the membership of a key to the flag it is given: two calls with
    [checked = true] on one key (the header checkbox of a table selects
    every row, including one that is selected already) leave the key
    selected after an even number of calls, and a single call with
    [checked = false] leaves it unselected after an odd number. *)
Lemma select_twice_counterexample :
  JsSet.has (applyCalls [mkCall 0 0 true; mkCall 0 0 true] JsSet.empty) (trademarkId 0 0) = true
  /\ Nat.odd (callsOn 0 0 [mkCall 0 0 true; mkCall 0 0 true]) = false
  /\ JsSet.has (applyCalls [mkCall 0 0 false] JsSet.empty) (trademarkId 0 0) = false
  /\ Nat.odd (callsOn 0 0 [mkCall 0 0 false]) = true.
Proof. repeat split. Qed.

(** ** Collecting the selection *)

Lemma StronglySorted_app {A : Type} (R : A -> A -> Prop) (l1 l2 : list A) :
  StronglySorted R l1 -> StronglySorted R l2 ->
  (forall x y, In x l1 -> In y l2 -> R x y) ->
  StronglySorted R (l1 ++ l2)%list.
Proof.
  induction l1 as [|a l1 IH]; simpl; intros H1 H2 H12; [exact H2|].
  inversion H1 as [|? ? Hs Hf]; subst. constructor.
  - apply IH; [exact Hs | exact H2 | intros x y Hx Hy; apply H12; [right|]; assumption].
  - apply Forall_app. split; [exact Hf|].
    apply Forall_forall. intros y Hy. apply H12; [left; reflexivity | exact Hy].
Qed.

Lemma collectSims_In sel en e sims :
  forall k t,
    In t (collectSims sel en e k sims) ->
    entry t = en
    /\ entryIndex t = e
    /\ k <= simIndex t
    /\ nth_error sims (simIndex t - k) = Some (sim t)
    /\ JsSet.has sel (trademarkId e (simIndex t)) = true.
Proof.
  induction sims as [|s sims IH]; intros k t; simpl; [contradiction|].
  intros Hin. apply in_app_or in Hin. destruct Hin as [Hin|Hin].
  - destruct (JsSet.has sel (trademarkId e k)) eqn:Hk; [|contradiction].
    destruct Hin as [<-|[]]. simpl. rewrite Nat.sub_diag. repeat split; auto.
  - destruct (IH (S k) t Hin) as (H1 & H2 & H3 & H4 & H5).
    repeat split; auto; [lia|].
    replace (simIndex t - k) with (S (simIndex t - S k)) by lia. exact H4.
Qed.

Lemma collectSims_sorted sel en e sims :
  forall k, StronglySorted positionLt (map positionOf (collectSims sel en e k sims)).
Proof.
  induction sims as [|s sims IH]; intros k; simpl; [constructor|].
  rewrite map_app. apply StronglySorted_app.
  - destruct (JsSet.has sel (trademarkId e k)); simpl; repeat constructor.
  - apply IH.
  - intros x y Hx Hy.
    destruct (JsSet.has sel (trademarkId e k)); [|contradiction].
    destruct Hx as [<-|[]].
    apply in_map_iff in Hy. destruct Hy as [t [<- Ht]].
    destruct (collectSims_In _ _ _ _ _ _ Ht) as (_ & H2 & H3 & _).
    right. unfold positionOf. simpl. split; [symmetry; exact H2 | lia].
Qed.

Lemma collectEntries_In sel entries :
  forall e0 t,
    In t (collectEntries sel e0 entries) ->
    e0 <= entryIndex t
    /\ nth_error entries (entryIndex t - e0) = Some (entry t)
    /\ nth_error (similarTrademarksOf (entry t)) (simIndex t) = Some (sim t)
    /\ JsSet.has sel (keyOf t) = true.
Proof.
  induction entries as [|en entries IH]; intros e0 t; simpl; [contradiction|].
  intros Hin. apply in_app_or in Hin. destruct Hin as [Hin|Hin].
  - destruct (collectSims_In _ _ _ _ _ _ Hin) as (H1 & H2 & _ & H4 & H5).
    rewrite Nat.sub_0_r in H4. unfold keyOf. rewrite H2, Nat.sub_diag, H1.
    repeat split; auto.
  - destruct (IH (S e0) t Hin) as (H1 & H2 & H3 & H4).
    repeat split; auto; [lia|].
    replace (entryIndex t - e0) with (S (entryIndex t - S e0)) by lia. exact H2.
Qed.

Lemma collectEntries_sorted sel entries :
  forall e0, StronglySorted positionLt (map positionOf (collectEntries sel e0 entries)).
Proof.
  induction entries as [|en entries IH]; intros e0; simpl; [constructor|].
  rewrite map_app. apply StronglySorted_app.
  - apply collectSims_sorted.
  - apply IH.
  - intros x y Hx Hy.
    apply in_map_iff in Hx, Hy. destruct Hx as [t [<- Ht]]. destruct Hy as [u [<- Hu]].
    destruct (collectSims_In _ _ _ _ _ _ Ht) as (_ & H2 & _).
    destruct (collectEntries_In _ _ _ _ Hu) as (H1 & _).
    left. unfold positionOf. simpl. lia.
Qed.

Lemma collectSims_ext sel sel' en e sims :
  (forall i, JsSet.has sel (trademarkId e i) = JsSet.has sel' (trademarkId e i)) ->
  forall k, collectSims sel en e k sims = collectSims sel' en e k sims.
Proof.
  intros H. induction sims as [|s sims IH]; intros k; simpl; [reflexivity|].
  rewrite H, IH. reflexivity.
Qed.

Lemma collectEntries_ext sel sel' entries :
  (forall e i, JsSet.has sel (trademarkId e i) = JsSet.has sel' (trademarkId e i)) ->
  forall e0, collectEntries sel e0 entries = collectEntries sel' e0 entries.
Proof.
  intros H. induction entries as [|en entries IH]; intros e0; simpl; [reflexivity|].
  rewrite IH, (collectSims_ext sel sel'); [reflexivity | intros i; apply H].
Qed.

Lemma clicksOn_Permutation (e i : nat) (clicks clicks' : list (nat * nat)) :
  Permutation clicks clicks' -> clicksOn e i clicks = clicksOn e i clicks'.
Proof.
  intros H. unfold clicksOn. apply Permutation_length.
  induction H; simpl.
  - constructor.
  - destruct ((fst x =? e)%nat && (snd x =? i)%nat)%bool; [constructor|]; assumption.
  - destruct ((fst x =? e)%nat && (snd x =? i)%nat)%bool,
             ((fst y =? e)%nat && (snd y =? i)%nat)%bool;
      try apply Permutation_refl; apply perm_swap.
  - eapply Permutation_trans; eassumption.
Qed.

(** C10.  The list handed to the template page is in ascending order of
    original entry position and, within an entry, of original match
    position; each of its items is the entry and the match found at
    those positions, and its key is selected.  The list depends on the
    selection only through which keys it holds: two selections with the
    same members, and in particular the selections left by the same
    clicks made in another order, give the same list. *)
Theorem collected_in_original_order :
  forall (reportData : option ReportData.t) (sel sel' : JsSet.t)
         (clicks clicks' : list (nat * nat)),
    (forall e i, JsSet.has sel (trademarkId e i) = JsSet.has sel' (trademarkId e i)) ->
    Permutation clicks clicks' ->
    StronglySorted positionLt (map positionOf (getSelectedTrademarksData reportData sel))
    /\ (forall t, In t (getSelectedTrademarksData reportData sel) ->
         exists r, reportData = Some r
                   /\ nth_error (entriesOf r) (entryIndex t) = Some (entry t)
                   /\ nth_error (similarTrademarksOf (entry t)) (simIndex t) = Some (sim t)
                   /\ JsSet.has sel (keyOf t) = true)
    /\ getSelectedTrademarksData reportData sel' = getSelectedTrademarksData reportData sel
    /\ getSelectedTrademarksData reportData (clickCheckboxes clicks' JsSet.empty)
       = getSelectedTrademarksData reportData (clickCheckboxes clicks JsSet.empty).
Proof.
  intros reportData sel sel' clicks clicks' Hsame Hperm.
  destruct reportData as [r|]; simpl.
  - split; [apply collectEntries_sorted|]. split; [|split].
    + intros t Ht. exists r. split; [reflexivity|].
      destruct (collectEntries_In _ _ _ _ Ht) as (_ & H2 & H3 & H4).
      rewrite Nat.sub_0_r in H2. auto.
    + symmetry. apply collectEntries_ext. exact Hsame.
    + apply collectEntries_ext. intros e i.
      rewrite !has_clickCheckboxes, (clicksOn_Permutation e i clicks clicks' Hperm).
      reflexivity.
  - split; [constructor|]. split; [intros t []|]. split; reflexivity.
Qed.

Lemma collected_in_original_order_witness :
  map positionOf
    (getSelectedTrademarksData
       (Some (Sample.reportWith [Sample.entryWith (Some Sample.dupSims) None]))
       [trademarkId 0 1; trademarkId 0 0])
  = [(0, 0); (0, 1)]
  /\ getSelectedTrademarksData
       (Some (Sample.reportWith [Sample.entryWith (Some Sample.dupSims) None]))
       [trademarkId 0 0; trademarkId 0 1]
     = getSelectedTrademarksData
         (Some (Sample.reportWith [Sample.entryWith (Some Sample.dupSims) None]))
         [trademarkId 0 1; trademarkId 0 0].
Proof.
  assert (Hsame : forall e i,
             JsSet.has [trademarkId 0 1; trademarkId 0 0] (trademarkId e i)
             = JsSet.has [trademarkId 0 0; trademarkId 0 1] (trademarkId e i)).
  { intros e i. unfold JsSet.has. cbn [existsb].
    destruct (String.eqb (trademarkId e i) (trademarkId 0 1)),
             (String.eqb (trademarkId e i) (trademarkId 0 0)); reflexivity. }
  destruct (collected_in_original_order
              (Some (Sample.reportWith [Sample.entryWith (Some Sample.dupSims) None]))
              [trademarkId 0 1; trademarkId 0 0] [trademarkId 0 0; trademarkId 0 1]
              [(0, 1); (0, 0)] [(0, 0); (0, 1)] Hsame (perm_swap _ _ _))
    as (_ & _ & Heq & _).
  split; [reflexivity | exact Heq].
Defined.

(** ** Maps in insertion order *)

Section MapFacts.

Context {K V : Type} (eqb : K -> K -> bool).
Hypothesis eqb_eq : forall a b, eqb a b = true <-> a = b.

Lemma get_None_notin (m : list (K * V)) (k : K) :
  JsMap.get eqb k m = None -> ~ In k (map fst m).
Proof.
  induction m as [|[k' v] m IH]; simpl; intros H; [tauto|].
  destruct (eqb k' k) eqn:E; [discriminate|].
  intros [Hk|Hin]; [|exact (IH H Hin)].
  subst k'. rewrite (proj2 (eqb_eq k k) eq_refl) in E. discriminate.
Qed.

Lemma set_absent (m : list (K * V)) (k : K) (v : V) :
  JsMap.get eqb k m = None -> JsMap.set eqb k v m = (m ++ [(k, v)])%list.
Proof.
  induction m as [|[k' v'] m IH]; simpl; intros H; [reflexivity|].
  destruct (eqb k' k); [discriminate|]. rewrite (IH H). reflexivity.
Qed.

Lemma keys_set_present (m : list (K * V)) (k : K) (v v' : V) :
  JsMap.get eqb k m = Some v' -> map fst (JsMap.set eqb k v m) = map fst m.
Proof.
  induction m as [|[k' v0] m IH]; simpl; intros H; [discriminate|].
  destruct (eqb k' k); simpl; [reflexivity|]. rewrite (IH H). reflexivity.
Qed.

Lemma Forall_set (Q : V -> Prop) (m : list (K * V)) (k : K) (v : V) :
  Forall (fun kv => Q (snd kv)) m -> Q v ->
  Forall (fun kv => Q (snd kv)) (JsMap.set eqb k v m).
Proof.
  intros Hm Hv. induction m as [|[k' v0] m IH]; simpl.
  - constructor; [exact Hv | constructor].
  - inversion Hm as [|? ? H0 Hr]; subst.
    destruct (eqb k' k); constructor; auto.
Qed.

Lemma get_Forall (Q : V -> Prop) (m : list (K * V)) (k : K) (v : V) :
  Forall (fun kv => Q (snd kv)) m -> JsMap.get eqb k m = Some v -> Q v.
Proof.
  intros Hm. induction m as [|[k' v0] m IH]; simpl; [discriminate|].
  inversion Hm as [|? ? H0 Hr]; subst.
  destruct (eqb k' k); [intros [= <-]; exact H0 | apply IH; exact Hr].
Qed.

Lemma flat_set_present {B : Type} (f : K * V -> list B) (m : list (K * V))
    (k : K) (v v' : V) (extra : list B) :
  JsMap.get eqb k m = Some v ->
  Permutation (f (k, v')) (f (k, v) ++ extra) ->
  Permutation (flat_map f (JsMap.set eqb k v' m)) (flat_map f m ++ extra).
Proof.
  intros Hget Hf. induction m as [|[k' v0] m IH]; simpl in *; [discriminate|].
  destruct (eqb k' k) eqn:E.
  - apply eqb_eq in E. subst k'. injection Hget as ->. simpl.
    rewrite <- app_assoc.
    eapply Permutation_trans; [apply Permutation_app_tail; exact Hf|].
    rewrite <- app_assoc. apply Permutation_app_head. apply Permutation_app_comm.
  - simpl. rewrite <- app_assoc. apply Permutation_app_head. apply IH. exact Hget.
Qed.

Lemma get_ensure (m : list (K * V)) (k : K) (v0 : V) :
  JsMap.get eqb k (JsMap.ensure eqb k v0 m)
  = Some (match JsMap.get eqb k m with Some v => v | None => v0 end).
Proof.
  unfold JsMap.ensure, JsMap.has. destruct (JsMap.get eqb k m) as [v|] eqn:Hg.
  - exact Hg.
  - rewrite (set_absent m k v0 Hg).
    induction m as [|[k' v'] m IH]; simpl in *.
    + rewrite (proj2 (eqb_eq k k) eq_refl). reflexivity.
    + destruct (eqb k' k); [discriminate | exact (IH Hg)].
Qed.

Lemma flat_ensure {B : Type} (f : K * V -> list B) (m : list (K * V)) (k : K) (v0 : V) :
  f (k, v0) = [] -> flat_map f (JsMap.ensure eqb k v0 m) = flat_map f m.
Proof.
  intros Hf. unfold JsMap.ensure, JsMap.has.
  destruct (JsMap.get eqb k m) as [v|] eqn:Hg; [reflexivity|].
  rewrite (set_absent m k v0 Hg), flat_map_app. simpl.
  rewrite Hf, !app_nil_r. reflexivity.
Qed.

Lemma keys_ensure_NoDup (m : list (K * V)) (k : K) (v0 : V) :
  NoDup (map fst m) -> NoDup (map fst (JsMap.ensure eqb k v0 m)).
Proof.
  intros Hm. unfold JsMap.ensure, JsMap.has.
  destruct (JsMap.get eqb k m) as [v|] eqn:Hg; [exact Hm|].
  rewrite (set_absent m k v0 Hg), map_app. simpl.
  apply NoDup_app; [exact Hm | constructor; [intros [] | constructor] |].
  intros x Hx [<-|[]]. exact (get_None_notin m k Hg Hx).
Qed.

Lemma Forall_ensure (Q : V -> Prop) (m : list (K * V)) (k : K) (v0 : V) :
  Forall (fun kv => Q (snd kv)) m -> Q v0 ->
  Forall (fun kv => Q (snd kv)) (JsMap.ensure eqb k v0 m).
Proof.
  intros Hm Hv. unfold JsMap.ensure. destruct (JsMap.has eqb k m); [exact Hm|].
  apply Forall_set; assumption.
Qed.

End MapFacts.

Lemma get_set_same {K V : Type} (eqb : K -> K -> bool)
    (eqb_refl : forall a, eqb a a = true) (m : list (K * V)) (k : K) (v : V) :
  JsMap.get eqb k (JsMap.set eqb k v m) = Some v.
Proof.
  induction m as [|[k' v'] m IH]; simpl.
  - rewrite eqb_refl. reflexivity.
  - destruct (eqb k' k) eqn:E; simpl; rewrite E; [reflexivity | exact IH].
Qed.

Lemma groupOne_unfold (grouped : Grouped) (t : SelectedTrademark) :
  let name := applicantKey (sim t) in
  let g1 := JsMap.ensure String.eqb name [] grouped in
  let es := match JsMap.get String.eqb name grouped with Some v => v | None => [] end in
  let fresh := {| group_entry := entry t; similarTrademarks := [] |} in
  let es1 := JsMap.ensure Nat.eqb (entryIndex t) fresh es in
  let g0 := match JsMap.get Nat.eqb (entryIndex t) es with Some v => v | None => fresh end in
  groupOne grouped t
  = JsMap.set String.eqb name
      (JsMap.set Nat.eqb (entryIndex t)
         {| group_entry := group_entry g0;
            similarTrademarks := (similarTrademarks g0 ++ [sim t])%list |} es1) g1.
Proof.
  intros name g1 es fresh es1 g0. subst g1 es es1 g0 fresh name.
  unfold groupOne, JsMap.ensure, JsMap.has. unfold Grouped, ApplicantEntries in *.
  destruct (JsMap.get String.eqb (applicantKey (sim t)) grouped) as [es0|] eqn:Hg.
  - rewrite Hg.
    destruct (JsMap.get Nat.eqb (entryIndex t) es0) as [g|] eqn:He.
    + rewrite He. reflexivity.
    + rewrite (get_set_same Nat.eqb Nat.eqb_refl). reflexivity.
  - rewrite (get_set_same String.eqb String.eqb_refl).
    cbn [JsMap.get]. rewrite (get_set_same Nat.eqb Nat.eqb_refl). reflexivity.
Qed.

Lemma groupOne_spec (grouped : Grouped) (t : SelectedTrademark) :
  distinctKeys grouped ->
  distinctKeys (groupOne grouped t)
  /\ Permutation (membersOfGrouped (groupOne grouped t))
                 (membersOfGrouped grouped ++ [placeOf t]).
Proof.
  intros [Hk Hin]. rewrite groupOne_unfold. cbv zeta.
  set (name := applicantKey (sim t)).
  set (fresh := {| group_entry := entry t; similarTrademarks := [] |}).
  set (es := match JsMap.get String.eqb name grouped with Some v => v | None => [] end).
  set (g0 := match JsMap.get Nat.eqb (entryIndex t) es with Some v => v | None => fresh end).
  set (g' := {| group_entry := group_entry g0;
                similarTrademarks := (similarTrademarks g0 ++ [sim t])%list |}).
  set (es1 := JsMap.ensure Nat.eqb (entryIndex t) fresh es).
  set (g1 := JsMap.ensure String.eqb name [] grouped).
  assert (Hg1 : JsMap.get String.eqb name g1 = Some es)
    by apply (get_ensure String.eqb String.eqb_eq).
  assert (Hes1 : JsMap.get Nat.eqb (entryIndex t) es1 = Some g0)
    by apply (get_ensure Nat.eqb Nat.eqb_eq).
  assert (Hk1 : NoDup (map fst g1)) by (apply (keys_ensure_NoDup String.eqb String.eqb_eq); exact Hk).
  assert (Hin1 : Forall (fun ne => NoDup (map fst (snd ne))) g1).
  { apply (Forall_ensure String.eqb (fun v : ApplicantEntries => NoDup (map fst v)));
      [exact Hin | constructor]. }
  assert (Hes : NoDup (map fst es)).
  { exact (get_Forall String.eqb (fun v : ApplicantEntries => NoDup (map fst v))
             g1 name es Hin1 Hg1). }
  split.
  - split.
    + rewrite (keys_set_present String.eqb g1 name _ es Hg1). exact Hk1.
    + apply (Forall_set String.eqb (fun v : ApplicantEntries => NoDup (map fst v)));
        [exact Hin1|].
      rewrite (keys_set_present Nat.eqb es1 (entryIndex t) _ g0 Hes1).
      apply (keys_ensure_NoDup Nat.eqb Nat.eqb_eq). exact Hes.
  - unfold membersOfGrouped.
    assert (Hflat : flat_map (fun ne => membersOfEntries (fst ne) (snd ne)) g1
                    = flat_map (fun ne => membersOfEntries (fst ne) (snd ne)) grouped).
    { apply (flat_ensure String.eqb). reflexivity. }
    rewrite <- Hflat.
    apply (flat_set_present String.eqb String.eqb_eq) with (v := es); [exact Hg1|].
    cbn [fst snd]. unfold membersOfEntries at 1 2.
    assert (Hflat2 : flat_map (fun ie => map (fun s => (name, fst ie, s))
                                          (similarTrademarks (snd ie))) es1
                     = flat_map (fun ie => map (fun s => (name, fst ie, s))
                                            (similarTrademarks (snd ie))) es).
    { apply (flat_ensure Nat.eqb). reflexivity. }
    rewrite <- Hflat2.
    apply (flat_set_present Nat.eqb Nat.eqb_eq) with (v := g0); [exact Hes1|].
    subst g'. cbv beta. cbn [fst snd similarTrademarks]. rewrite map_app.
    apply Permutation_refl.
Qed.

Lemma groupFold_spec (l : list SelectedTrademark) :
  forall grouped,
    distinctKeys grouped ->
    distinctKeys (fold_left groupOne l grouped)
    /\ Permutation (membersOfGrouped (fold_left groupOne l grouped))
                   (membersOfGrouped grouped ++ map placeOf l).
Proof.
  induction l as [|t l IH]; intros grouped Hd; simpl.
  - split; [exact Hd | rewrite app_nil_r; apply Permutation_refl].
  - destruct (groupOne_spec grouped t Hd) as [Hd1 Hp1].
    destruct (IH (groupOne grouped t) Hd1) as [Hd2 Hp2].
    split; [exact Hd2|].
    eapply Permutation_trans; [exact Hp2|].
    change (placeOf t :: map placeOf l) with ([placeOf t] ++ map placeOf l)%list.
    rewrite app_assoc. apply Permutation_app_tail. exact Hp1.
Qed.

Lemma groupByApplicant_spec (l : list SelectedTrademark) :
  distinctKeys (groupByApplicant l)
  /\ Permutation (membersOfGrouped (groupByApplicant l)) (map placeOf l).
Proof.
  apply (groupFold_spec l []). split; constructor.
Qed.

Lemma membersOf_groupsOf (grouped : Grouped) :
  membersOf (groupsOf grouped) = membersOfGrouped grouped.
Proof.
  unfold membersOf, groupsOf, membersOfGrouped.
  induction grouped as [|ne grouped IH]; simpl; [reflexivity|].
  rewrite IH. reflexivity.
Qed.

Lemma fold_left_sum {A : Type} (f : A -> nat) (l : list A) :
  forall n, fold_left (fun acc x => acc + f x) l n = n + list_sum (map f l).
Proof.
  induction l as [|a l IH]; intros n; simpl; [lia|].
  rewrite IH. lia.
Qed.

Lemma trademarksInGroup_length (g : ApplicantGroup) :
  trademarksInGroup g = List.length (membersOfEntries (applicantName g) (entries g)).
Proof.
  unfold trademarksInGroup, membersOfEntries.
  rewrite (fold_left_sum (fun e => List.length (similarTrademarks e))). simpl.
  induction (entries g) as [|ie es IH]; simpl; [reflexivity|].
  rewrite length_app, length_map, IH. reflexivity.
Qed.

Lemma totalTrademarksInGroups_length (groups : list ApplicantGroup) :
  totalTrademarksInGroups groups = List.length (membersOf groups).
Proof.
  unfold totalTrademarksInGroups, membersOf.
  rewrite (fold_left_sum trademarksInGroup). simpl.
  induction groups as [|g groups IH]; simpl; [reflexivity|].
  rewrite length_app, IH, trademarksInGroup_length. reflexivity.
Qed.

(** ** Reachable selections hold each key once, and only keys of
    matches that exist *)

Lemma reachable_invariant (entries : list Entry) (sel : JsSet.t) :
  reachable entries sel ->
  NoDup sel /\ forall k, In k sel -> validKey entries k.
Proof.
  assert (Hstep : forall sel e en i checked (same : Sim -> bool),
             (NoDup sel /\ forall k, In k sel -> validKey entries k) ->
             nth_error entries e = Some en ->
             JsArray.findIndex same (similarTrademarksOf en) = Some i ->
             NoDup (handleTrademarkSelect e i checked sel)
             /\ forall k, In k (handleTrademarkSelect e i checked sel) -> validKey entries k).
  { intros s0 e en i checked same [Hnd Hval] He Hi. split.
    - apply NoDup_handleTrademarkSelect. exact Hnd.
    - intros k Hk. apply has_In in Hk. rewrite has_handleTrademarkSelect in Hk.
      destruct (String.eqb_spec k (trademarkId e i)) as [Heq|Hne].
      + destruct (findIndex_Some_first same _ i Hi) as [[x [Hx _]] _].
        exists e, i, en, x. auto.
      + apply Hval. apply has_In. exact Hk. }
  induction 1 as [|sel e en c i checked Hr IH He Hi|sel e en c i checked Hr IH He Hi].
  - split; [constructor | intros k []].
  - exact (Hstep sel e en i checked _ IH He Hi).
  - exact (Hstep sel e en i checked _ IH He Hi).
Qed.

Lemma collectSims_complete sel en e sims :
  forall k i s,
    nth_error sims i = Some s ->
    JsSet.has sel (trademarkId e (k + i)) = true ->
    In (mkSelected en s e (k + i)) (collectSims sel en e k sims).
Proof.
  induction sims as [|a sims IH]; intros k [|i] s; simpl; try discriminate.
  - intros [= ->] Hk. rewrite Nat.add_0_r in Hk |- *. rewrite Hk. left. reflexivity.
  - intros Hn Hk. apply in_or_app. right.
    replace (k + S i) with (S k + i) in Hk |- * by lia. apply IH; assumption.
Qed.

Lemma collectEntries_complete sel entries :
  forall e0 e i en s,
    nth_error entries e = Some en ->
    nth_error (similarTrademarksOf en) i = Some s ->
    JsSet.has sel (trademarkId (e0 + e) i) = true ->
    In (mkSelected en s (e0 + e) i) (collectEntries sel e0 entries).
Proof.
  induction entries as [|a entries IH]; intros e0 [|e] i en s; simpl; try discriminate.
  - intros [= ->] Hi Hk. rewrite Nat.add_0_r in Hk |- *. apply in_or_app. left.
    apply (collectSims_complete sel en e0 _ 0 i s Hi Hk).
  - intros He Hi Hk. apply in_or_app. right.
    replace (e0 + S e) with (S e0 + e) in Hk |- * by lia. apply IH; assumption.
Qed.

Lemma positionLt_irrefl_sorted (l : list (nat * nat)) :
  StronglySorted positionLt l -> NoDup l.
Proof.
  induction 1 as [|a l Hs IH Hf]; constructor; [|exact IH].
  intros Hin. rewrite Forall_forall in Hf. specialize (Hf a Hin).
  unfold positionLt in Hf. lia.
Qed.

Lemma NoDup_map_injective {A B : Type} (f : A -> B) (l : list A) :
  (forall x y, f x = f y -> x = y) -> NoDup l -> NoDup (map f l).
Proof.
  intros Hinj. induction 1 as [|a l Hn Hl IH]; simpl; constructor; [|exact IH].
  intros Hin. apply in_map_iff in Hin. destruct Hin as [x [Hx Hxl]].
  apply Hinj in Hx. subst x. exact (Hn Hxl).
Qed.

Lemma collected_keys_NoDup sel entries :
  NoDup (map keyOf (collectEntries sel 0 entries)).
Proof.
  assert (Hpos : NoDup (map positionOf (collectEntries sel 0 entries)))
    by (apply positionLt_irrefl_sorted, collectEntries_sorted).
  replace (map keyOf (collectEntries sel 0 entries))
    with (map (fun p => trademarkId (fst p) (snd p))
              (map positionOf (collectEntries sel 0 entries)))
    by (rewrite map_map; reflexivity).
  apply NoDup_map_injective; [|exact Hpos].
  intros [a b] [c d] H. simpl in H. apply trademarkId_inj in H.
  destruct H as [-> ->]. reflexivity.
Qed.

Lemma collected_keys_Permutation (entries : list Entry) (sel : JsSet.t) :
  reachable entries sel ->
  Permutation (map keyOf (collectEntries sel 0 entries)) sel.
Proof.
  intros Hr. destruct (reachable_invariant entries sel Hr) as [Hnd Hval].
  apply NoDup_Permutation; [apply collected_keys_NoDup | exact Hnd |].
  intros k. split.
  - intros Hin. apply in_map_iff in Hin. destruct Hin as [t [<- Ht]].
    destruct (collectEntries_In _ _ _ _ Ht) as (_ & _ & _ & H4).
    apply has_In. exact H4.
  - intros Hin. destruct (Hval k Hin) as (e & i & en & s & -> & He & Hi).
    apply in_map_iff. exists (mkSelected en s e i). split; [reflexivity|].
    apply (collectEntries_complete sel entries 0 e i en s He Hi).
    simpl. apply has_In. exact Hin.
Qed.

(** ** Grouping at template-generation time *)

(** C2.  At template-generation time, for every selection the report
    page can reach: the collected items correspond one to one to the
    active selection keys; every collected item is filed in exactly one
    place of exactly one applicant group (the groups, with the entry
    positions they file under, hold the collected matches and nothing
    else, group names and entry positions being distinct); the sum over
    the groups of their match counts equals the number of active keys;
    and the page's mismatch warning stays silent.  (Ambiguous duplicates
    need no exclusion: they change which key a click toggles, not the
    count.  The list the template page parses from the session storage
    is taken to be the list the report page serialized.) *)
Theorem groups_partition_selection :
  forall (reportData : ReportData.t) (sel : JsSet.t),
    reachable (entriesOf reportData) sel ->
    let selected := getSelectedTrademarksData (Some reportData) sel in
    let outcome := groupingEffect selected (Some reportData) in
    let groups := fst outcome in
    Permutation (map keyOf selected) sel
    /\ Permutation (membersOf groups) (map placeOf selected)
    /\ NoDup (map applicantName groups)
    /\ Forall (fun g => NoDup (map fst (entries g))) groups
    /\ totalTrademarksInGroups groups = JsSet.size sel
    /\ snd outcome = [].
Proof.
  intros reportData sel Hr selected outcome groups.
  assert (Hkeys : Permutation (map keyOf selected) sel)
    by (apply collected_keys_Permutation; exact Hr).
  assert (Hlen : List.length selected = JsSet.size sel).
  { rewrite <- (length_map keyOf). apply Permutation_length. exact Hkeys. }
  split; [exact Hkeys|].
  subst outcome groups. unfold groupingEffect.
  destruct selected as [|t l] eqn:Hsel.
  - simpl. repeat split; try constructor. exact Hlen.
  - rewrite <- Hsel in *. clear Hsel.
    destruct (groupByApplicant_spec selected) as [[Hk Hin] Hperm].
    assert (Hmem : Permutation (membersOf (groupsOf (groupByApplicant selected)))
                               (map placeOf selected))
      by (rewrite membersOf_groupsOf; exact Hperm).
    assert (Htotal : totalTrademarksInGroups (groupsOf (groupByApplicant selected))
                     = List.length selected).
    { rewrite totalTrademarksInGroups_length, (Permutation_length Hmem).
      apply length_map. }
    rewrite Htotal, Nat.eqb_refl. simpl.
    split; [exact Hmem|]. split; [|split; [|split]].
    + unfold groupsOf. rewrite map_map. simpl. exact Hk.
    + unfold groupsOf. apply Forall_map. simpl. exact Hin.
    + rewrite Htotal. exact Hlen.
    + reflexivity.
Qed.

Lemma groups_partition_selection_witness :
  totalTrademarksInGroups
    (fst (groupingEffect
            (getSelectedTrademarksData (Some Sample.report)
               (handleTrademarkSelect 0 0 true JsSet.empty))
            (Some Sample.report)))
  = 1.
Proof.
  pose proof (groups_partition_selection Sample.report
                (handleTrademarkSelect 0 0 true JsSet.empty)
                (reach_table (entriesOf Sample.report) JsSet.empty 0 Sample.tiger
                   Sample.tyger 0 true (reach_initial _) eq_refl eq_refl)) as H.
  cbv zeta in H. destruct H as (_ & _ & _ & _ & H & _). exact H.
Defined.

(** ** The grouping key *)

Lemma allChars_app (p : ascii -> bool) (a b : string) :
  JsString.allChars p (a ++ b) = (JsString.allChars p a && JsString.allChars p b)%bool.
Proof.
  induction a as [|c a IH]; simpl; [reflexivity|].
  rewrite IH. apply andb_assoc.
Qed.

Lemma trimStart_spec (s : string) :
  exists pre,
    s = pre ++ JsString.trimStart s
    /\ JsString.allChars JsString.isWhiteSpace pre = true
    /\ forall c, JsString.firstChar (JsString.trimStart s) = Some c ->
                 JsString.isWhiteSpace c = false.
Proof.
  induction s as [|c s IH]; simpl.
  - exists "". repeat split. intros c [=].
  - destruct (JsString.isWhiteSpace c) eqn:Hc.
    + destruct IH as [pre [Hs [Hpre Hfirst]]].
      exists (String c pre). simpl. rewrite Hc, Hpre. repeat split; [|exact Hfirst].
      f_equal. exact Hs.
    + exists "". repeat split. simpl. intros c' [= <-]. exact Hc.
Qed.

Lemma trimEnd_spec (s : string) :
  exists suf,
    s = JsString.trimEnd s ++ suf
    /\ JsString.allChars JsString.isWhiteSpace suf = true
    /\ (forall c, JsString.lastChar (JsString.trimEnd s) = Some c ->
                  JsString.isWhiteSpace c = false)
    /\ (forall c, JsString.firstChar (JsString.trimEnd s) = Some c ->
                  JsString.firstChar s = Some c).
Proof.
  induction s as [|c s IH]; simpl.
  - exists "". repeat split; intros c [=].
  - destruct IH as [suf [Hs [Hsuf [Hlast _]]]].
    destruct (JsString.trimEnd s) as [|a r] eqn:Ht.
    + destruct (JsString.isWhiteSpace c) eqn:Hc.
      * exists (String c suf). simpl in *. rewrite Hc, Hsuf.
        repeat split; try (intros c' [=]). f_equal. exact Hs.
      * exists suf. simpl in *. repeat split; try assumption.
        -- f_equal. exact Hs.
        -- intros c' [= <-]. exact Hc.
        -- intros c' H. exact H.
    + exists suf. simpl in *. repeat split; try assumption.
      * f_equal. exact Hs.
      * intros c' H. exact H.
Qed.

Lemma trim_spec (s : string) :
  exists pre suf,
    s = pre ++ JsString.trim s ++ suf
    /\ JsString.allChars JsString.isWhiteSpace pre = true
    /\ JsString.allChars JsString.isWhiteSpace suf = true
    /\ (forall c, JsString.firstChar (JsString.trim s) = Some c ->
                  JsString.isWhiteSpace c = false)
    /\ (forall c, JsString.lastChar (JsString.trim s) = Some c ->
                  JsString.isWhiteSpace c = false).
Proof.
  unfold JsString.trim.
  destruct (trimStart_spec s) as [pre [Hs [Hpre Hfirst]]].
  destruct (trimEnd_spec (JsString.trimStart s)) as [suf [Ht [Hsuf [Hlast Hkeep]]]].
  exists pre, suf. repeat split; try assumption.
  - rewrite <- Ht. exact Hs.
  - intros c Hc. apply Hfirst. apply Hkeep. exact Hc.
Qed.

Lemma trim_empty_iff (s : string) :
  JsString.trim s = "" <-> JsString.allChars JsString.isWhiteSpace s = true.
Proof.
  destruct (trim_spec s) as [pre [suf [Hs [Hpre [Hsuf [Hfirst _]]]]]]. split.
  - intros He. rewrite He in Hs. rewrite Hs. simpl.
    rewrite allChars_app, Hpre, Hsuf. reflexivity.
  - intros Hall. destruct (JsString.trim s) as [|c r] eqn:Ht; [reflexivity|].
    rewrite Hs in Hall. rewrite !allChars_app in Hall. simpl in Hall.
    rewrite (Hfirst c eq_refl) in Hall. rewrite andb_false_r in Hall. discriminate.
Qed.

Lemma applicantKey_cases (s : Sim) :
  applicantKey s
  = match JsField.value (SimilarTrademark.applicant_name s) with
    | Some n => if JsString.allChars JsString.isWhiteSpace n then "Unknown"
                else JsString.trim n
    | None => "Unknown"
    end.
Proof.
  unfold applicantKey. destruct (JsField.value (SimilarTrademark.applicant_name s)) as [n|]; [|reflexivity].
  destruct (JsString.allChars JsString.isWhiteSpace n) eqn:Hall.
  - rewrite (proj2 (trim_empty_iff n) Hall). reflexivity.
  - destruct (String.eqb_spec (JsString.trim n) "") as [He|]; [|reflexivity].
    apply trim_empty_iff in He. congruence.
Qed.

Lemma applicantKey_nonempty (s : Sim) : applicantKey s <> "".
Proof.
  unfold applicantKey.
  destruct (String.eqb_spec
              match JsField.value (SimilarTrademark.applicant_name s) with
              | Some n => JsString.trim n
              | None => ""
              end "") as [He|Hne]; [discriminate | exact Hne].
Qed.

(** C6.  The grouping key of a selected match is its applicant name
    with the white space at both ends removed (what is removed is white
    space only, and what remains neither starts nor ends with white
    space); when nothing remains, or the name is missing, the key is
    exactly "Unknown".  A group holds exactly the selected matches whose
    key is equal, as a string, to the group's name: every selected match
    is in the group named by its key, every member of a group has the
    group's name as its key, and no two groups share a name, so names
    that differ in letter case give different groups. *)
Theorem applicant_key_normalized :
  forall (selected : list SelectedTrademark) (s : Sim),
    let groups := groupsOf (groupByApplicant selected) in
    applicantKey s
      = match JsField.value (SimilarTrademark.applicant_name s) with
        | Some n => if JsString.allChars JsString.isWhiteSpace n then "Unknown"
                    else JsString.trim n
        | None => "Unknown"
        end
    /\ (forall n, exists pre suf,
           n = pre ++ JsString.trim n ++ suf
           /\ JsString.allChars JsString.isWhiteSpace pre = true
           /\ JsString.allChars JsString.isWhiteSpace suf = true
           /\ (forall c, JsString.firstChar (JsString.trim n) = Some c ->
                         JsString.isWhiteSpace c = false)
           /\ (forall c, JsString.lastChar (JsString.trim n) = Some c ->
                         JsString.isWhiteSpace c = false))
    /\ (forall t, In t selected ->
           exists g, In g groups
                     /\ applicantName g = applicantKey (sim t)
                     /\ In (placeOf t) (membersOfEntries (applicantName g) (entries g)))
    /\ (forall g e s', In g groups ->
           In (applicantName g, e, s') (membersOfEntries (applicantName g) (entries g)) ->
           applicantName g = applicantKey s')
    /\ NoDup (map applicantName groups)
    /\ map applicantName
         (groupsOf (groupByApplicant
                      [Sample.selectedOf 0 (JsField.text "Acme Corp");
                       Sample.selectedOf 1 (JsField.text "  ");
                       Sample.selectedOf 2 (JsField.text "ACME CORP");
                       Sample.selectedOf 3 JsField.undefined;
                       Sample.selectedOf 4 (JsField.text " Acme Corp ")]))
       = ["Acme Corp"; "Unknown"; "ACME CORP"].
Proof.
  intros selected s groups.
  destruct (groupByApplicant_spec selected) as [[Hk _] Hperm].
  rewrite <- membersOf_groupsOf in Hperm. fold groups in Hperm.
  assert (Hname : forall g x, In x (membersOfEntries (applicantName g) (entries g)) ->
                              fst (fst x) = applicantName g).
  { intros g x Hx. unfold membersOfEntries in Hx. apply in_flat_map in Hx.
    destruct Hx as [ie [_ Hx]]. apply in_map_iff in Hx. destruct Hx as [s0 [<- _]].
    reflexivity. }
  split; [apply applicantKey_cases|].
  split; [intros n; apply trim_spec|].
  split; [|split; [|split]].
  - intros t Ht.
    assert (Hin : In (placeOf t) (membersOf groups)).
    { apply (Permutation_in _ (Permutation_sym Hperm)). apply in_map. exact Ht. }
    unfold membersOf in Hin. apply in_flat_map in Hin. destruct Hin as [g [Hg Hin]].
    exists g. split; [exact Hg|]. split; [|exact Hin].
    symmetry. exact (Hname g _ Hin).
  - intros g e s' Hg Hin.
    assert (Hm : In (applicantName g, e, s') (membersOf groups)).
    { unfold membersOf. apply in_flat_map. exists g. split; assumption. }
    apply (Permutation_in _ Hperm) in Hm. apply in_map_iff in Hm.
    destruct Hm as [t [Ht _]]. unfold placeOf in Ht. congruence.
  - subst groups. unfold groupsOf. rewrite map_map. simpl. exact Hk.
  - vm_compute. reflexivity.
Qed.

Lemma applicant_key_normalized_witness :
  exists g,
    In g (groupsOf (groupByApplicant [Sample.selectedOf 0 (JsField.text "  ")]))
    /\ applicantName g = "Unknown".
Proof.
  destruct (applicant_key_normalized [Sample.selectedOf 0 (JsField.text "  ")] Sample.tyger)
    as (_ & _ & H & _).
  destruct (H (Sample.selectedOf 0 (JsField.text "  ")) (or_introl eq_refl)) as [g [Hg [Hn _]]].
  exists g. split; [exact Hg | exact Hn].
Defined.

(** ** Session storage between the two pages *)

Lemma getItem_removeItem_same (k : string) (st : SessionStorage.t) :
  SessionStorage.getItem k (SessionStorage.removeItem k st) = None.
Proof.
  unfold SessionStorage.removeItem. induction st as [|[k' v] st IH]; simpl; [reflexivity|].
  destruct (String.eqb k' k) eqn:E; simpl; [exact IH|]. rewrite E. exact IH.
Qed.

Lemma getItem_removeItem_other (k k' : string) (st : SessionStorage.t) :
  k <> k' ->
  SessionStorage.getItem k (SessionStorage.removeItem k' st) = SessionStorage.getItem k st.
Proof.
  intros Hne. unfold SessionStorage.removeItem.
  induction st as [|[k0 v] st IH]; simpl; [reflexivity|].
  destruct (String.eqb_spec k0 k') as [->|H0]; simpl.
  - destruct (String.eqb_spec k' k) as [->|]; [contradiction | exact IH].
  - rewrite IH. reflexivity.
Qed.

Lemma getItem_setItem_same (k v : string) (st : SessionStorage.t) :
  SessionStorage.getItem k (SessionStorage.setItem k v st) = Some v.
Proof.
  induction st as [|[k' v'] st IH]; simpl.
  - rewrite String.eqb_refl. reflexivity.
  - destruct (String.eqb k' k) eqn:E; simpl.
    + rewrite String.eqb_refl. reflexivity.
    + rewrite E. exact IH.
Qed.

Lemma getItem_setItem_other (k k' v : string) (st : SessionStorage.t) :
  k <> k' ->
  SessionStorage.getItem k (SessionStorage.setItem k' v st) = SessionStorage.getItem k st.
Proof.
  intros Hne. induction st as [|[k0 v0] st IH]; simpl.
  - destruct (String.eqb_spec k' k) as [->|]; [contradiction | reflexivity].
  - destruct (String.eqb_spec k0 k') as [->|H0]; simpl.
    + destruct (String.eqb_spec k' k) as [->|]; [contradiction | reflexivity].
    + rewrite IH. reflexivity.
Qed.

Lemma hasNull_In (l : list Json) : existsb isNull l = true <-> In JNull l.
Proof.
  rewrite existsb_exists. split.
  - intros [j [Hin Hj]]. destruct j; try discriminate Hj. exact Hin.
  - intros Hin. exists JNull. split; [exact Hin | reflexivity].
Qed.

Lemma noNull_In (l : list Json) : ~ In JNull l -> existsb isNull l = false.
Proof.
  intros Hn. destruct (existsb isNull l) eqn:He; [|reflexivity].
  exfalso. apply Hn, hasNull_In, He.
Qed.

Lemma cleared_both (storage : SessionStorage.t) :
  SessionStorage.getItem "selectedTrademarks"
    (SessionStorage.removeItem "reportData"
       (SessionStorage.removeItem "selectedTrademarks" storage)) = None
  /\ SessionStorage.getItem "reportData"
       (SessionStorage.removeItem "reportData"
          (SessionStorage.removeItem "selectedTrademarks" storage)) = None.
Proof.
  split.
  - rewrite getItem_removeItem_other by discriminate. apply getItem_removeItem_same.
  - apply getItem_removeItem_same.
Qed.

(** C9 (as the code has it).  With both keys stored and not empty, the
    template page

    - leaves both keys in place and takes the parsed selection and
      report, without an error, when both texts parse, the selection to
      an array that is not empty and holds no [null] element;
    - clears both keys when its [try] block throws, that is when either
      text does not parse or the parsed selection is an array with a
      [null] element: the page is then in an error state (an error
      message, loading finished, no data taken, no navigation) and the
      storage reads as absent from then on;
    - leaves both keys in place and shows an error when both texts
      parse but the selection is not an array or is an empty one.

    Absent content only puts the page in an error state too, with the
    storage as it was.  A "generate" action whose collected selection is
    not empty clears and rewrites both keys; with an empty collected
    selection it alerts and leaves the storage as it was. *)
Theorem handover_storage_lifecycle :
  forall (JSON_parse : string -> option Json)
         (stringifySelected : list SelectedTrademark -> string)
         (stringifyReport : option ReportData.t -> string)
         (storage : SessionStorage.t) (page : PageState) (authLoading : bool)
         (reportId : string) (reportData : option ReportData.t) (sel : JsSet.t),
    let out := loadFromSessionStorage JSON_parse authLoading true storage page in
    let gen := handleGenerateTemplates stringifySelected stringifyReport
                 reportId reportData sel storage in
    (forall tText rText t ts report,
        SessionStorage.getItem "selectedTrademarks" storage = Some tText -> tText <> "" ->
        SessionStorage.getItem "reportData" storage = Some rText -> rText <> "" ->
        JSON_parse tText = Some (JArray (t :: ts)) -> JSON_parse rText = Some report ->
        ~ In JNull (t :: ts) ->
        load_storage out = storage
        /\ page_selectedTrademarks (load_page out) = t :: ts
        /\ page_reportData (load_page out) = Some report
        /\ page_error (load_page out) = page_error page)
    /\ (forall tText rText,
        SessionStorage.getItem "selectedTrademarks" storage = Some tText -> tText <> "" ->
        SessionStorage.getItem "reportData" storage = Some rText -> rText <> "" ->
        JSON_parse tText = None \/ JSON_parse rText = None
        \/ (exists l, JSON_parse tText = Some (JArray l) /\ In JNull l) ->
        SessionStorage.getItem "selectedTrademarks" (load_storage out) = None
        /\ SessionStorage.getItem "reportData" (load_storage out) = None
        /\ page_error (load_page out)
           = Some "Failed to load selected trademarks data. Please go back and try again."
        /\ page_loading (load_page out) = false
        /\ page_selectedTrademarks (load_page out) = page_selectedTrademarks page
        /\ page_reportData (load_page out) = page_reportData page
        /\ load_navigate out = None)
    /\ (forall tText rText trademarks report,
        SessionStorage.getItem "selectedTrademarks" storage = Some tText -> tText <> "" ->
        SessionStorage.getItem "reportData" storage = Some rText -> rText <> "" ->
        JSON_parse tText = Some trademarks -> JSON_parse rText = Some report ->
        (forall t ts, trademarks <> JArray (t :: ts)) ->
        load_storage out = storage
        /\ page_error (load_page out)
           = Some "No valid selected trademarks found. Please go back and select trademarks."
        /\ page_loading (load_page out) = false
        /\ page_selectedTrademarks (load_page out) = page_selectedTrademarks page
        /\ load_navigate out = None)
    /\ (SessionStorage.getItem "selectedTrademarks" storage = None
        \/ SessionStorage.getItem "reportData" storage = None ->
        load_storage out = storage
        /\ page_error (load_page out)
           = Some "No selected trademarks found. Please go back and select trademarks."
        /\ page_loading (load_page out) = false
        /\ page_selectedTrademarks (load_page out) = page_selectedTrademarks page
        /\ load_navigate out = None)
    /\ (getSelectedTrademarksData reportData sel <> [] ->
        SessionStorage.getItem "selectedTrademarks" (gen_storage gen)
          = Some (stringifySelected (getSelectedTrademarksData reportData sel))
        /\ SessionStorage.getItem "reportData" (gen_storage gen)
          = Some (stringifyReport reportData)
        /\ gen_alert gen = None)
    /\ (getSelectedTrademarksData reportData sel = [] ->
        gen_storage gen = storage
        /\ gen_alert gen <> None
        /\ gen_navigate gen = None).
Proof.
  intros JSON_parse stringifySelected stringifyReport storage page authLoading
         reportId reportData sel out gen.
  assert (Hauth : (negb authLoading && negb true)%bool = false)
    by (destruct authLoading; reflexivity).
  destruct (cleared_both storage) as [Hc1 Hc2].
  split; [|split; [|split; [|split; [|split]]]].
  - intros tText rText t ts report Ht Hte Hr Hre Hpt Hpr Hnn.
    subst out. unfold loadFromSessionStorage. rewrite Hauth, Ht, Hr.
    destruct (String.eqb_spec tText "") as [|_]; [contradiction|].
    destruct (String.eqb_spec rText "") as [|_]; [contradiction|].
    cbv zeta. cbn [orb]. rewrite Hpt, Hpr, (noNull_In _ Hnn). simpl. repeat split.
  - intros tText rText Ht Hte Hr Hre Hfail.
    subst out. unfold loadFromSessionStorage. rewrite Hauth, Ht, Hr.
    destruct (String.eqb_spec tText "") as [|_]; [contradiction|].
    destruct (String.eqb_spec rText "") as [|_]; [contradiction|].
    cbv zeta. cbn [orb].
    destruct Hfail as [Hf | [Hf | [l [Hl Hin]]]].
    + rewrite Hf. simpl. repeat split; assumption.
    + rewrite Hf. destruct (JSON_parse tText); simpl; repeat split; assumption.
    + rewrite Hl. destruct (JSON_parse rText) as [jr|];
        [|simpl; repeat split; assumption].
      destruct l as [|t ts]; [destruct Hin|].
      rewrite (proj2 (hasNull_In (t :: ts)) Hin). simpl. repeat split; assumption.
  - intros tText rText trademarks report Ht Hte Hr Hre Hpt Hpr Hshape.
    subst out. unfold loadFromSessionStorage. rewrite Hauth, Ht, Hr.
    destruct (String.eqb_spec tText "") as [|_]; [contradiction|].
    destruct (String.eqb_spec rText "") as [|_]; [contradiction|].
    cbv zeta. cbn [orb]. rewrite Hpt, Hpr.
    destruct trademarks as [| | | |[|t ts]|];
      try (exfalso; exact (Hshape t ts eq_refl)); simpl; repeat split.
  - intros Habsent. subst out. unfold loadFromSessionStorage. rewrite Hauth.
    destruct Habsent as [H|H]; rewrite H.
    + repeat split.
    + destruct (SessionStorage.getItem "selectedTrademarks" storage); repeat split.
  - intros Hne. subst gen. unfold handleGenerateTemplates.
    destruct (getSelectedTrademarksData reportData sel) as [|t l] eqn:Hsel;
      [contradiction|].
    simpl. split; [|split; [|reflexivity]].
    + rewrite getItem_setItem_other by discriminate. apply getItem_setItem_same.
    + apply getItem_setItem_same.
  - intros He. subst gen. unfold handleGenerateTemplates. rewrite He. simpl.
    repeat split. discriminate.
Qed.

Lemma handover_storage_lifecycle_witness :
  load_storage (loadFromSessionStorage Sample.JSON_parse false true Sample.storedValid initialPage)
    = Sample.storedValid
  /\ SessionStorage.getItem "selectedTrademarks"
       (load_storage (loadFromSessionStorage Sample.JSON_parse false true
                        Sample.storedCorrupted initialPage)) = None
  /\ SessionStorage.getItem "selectedTrademarks"
       (load_storage (loadFromSessionStorage Sample.JSON_parse false true
                        Sample.storedNull initialPage)) = None
  /\ load_storage (loadFromSessionStorage Sample.JSON_parse false true
                     Sample.storedEmpty initialPage) = Sample.storedEmpty
  /\ page_loading
       (load_page (loadFromSessionStorage Sample.JSON_parse false true [] initialPage)) = false
  /\ SessionStorage.getItem "selectedTrademarks"
       (gen_storage (handleGenerateTemplates Sample.stringifySelected Sample.stringifyReport
                       "r1" (Some Sample.report) (trademarkId 0 0 :: nil) []))
     = Some "[{}]".
Proof.
  destruct (handover_storage_lifecycle Sample.JSON_parse Sample.stringifySelected
              Sample.stringifyReport Sample.storedValid initialPage false
              "r1" (Some Sample.report) (trademarkId 0 0 :: nil))
    as (Hok & _).
  destruct (handover_storage_lifecycle Sample.JSON_parse Sample.stringifySelected
              Sample.stringifyReport Sample.storedCorrupted initialPage false
              "r1" (Some Sample.report) (trademarkId 0 0 :: nil))
    as (_ & Hbad & _).
  destruct (handover_storage_lifecycle Sample.JSON_parse Sample.stringifySelected
              Sample.stringifyReport Sample.storedNull initialPage false
              "r1" (Some Sample.report) (trademarkId 0 0 :: nil))
    as (_ & Hnull & _).
  destruct (handover_storage_lifecycle Sample.JSON_parse Sample.stringifySelected
              Sample.stringifyReport Sample.storedEmpty initialPage false
              "r1" (Some Sample.report) (trademarkId 0 0 :: nil))
    as (_ & _ & Hempty & _).
  destruct (handover_storage_lifecycle Sample.JSON_parse Sample.stringifySelected
              Sample.stringifyReport [] initialPage false
              "r1" (Some Sample.report) (trademarkId 0 0 :: nil))
    as (_ & _ & _ & Habsent & Hgen & _).
  split; [|split; [|split; [|split; [|split]]]].
  - refine (proj1 (Hok "[{}]" "{}" (JObject []) [] (JObject [])
                     eq_refl _ eq_refl _ eq_refl eq_refl _)); try discriminate.
    intros [H|[]]. discriminate H.
  - refine (proj1 (Hbad "{oops" "{}" eq_refl _ eq_refl _ (or_introl eq_refl))); discriminate.
  - refine (proj1 (Hnull "[null]" "{}" eq_refl _ eq_refl _
                     (or_intror (or_intror (ex_intro _ [JNull]
                        (conj eq_refl (or_introl eq_refl)))))));
      discriminate.
  - refine (proj1 (Hempty "[]" "{}" (JArray []) (JObject [])
                     eq_refl _ eq_refl _ eq_refl eq_refl _)); discriminate.
  - exact (proj1 (proj2 (proj2 (Habsent (or_introl eq_refl))))).
  - refine (proj1 (Hgen _)). discriminate.
Defined.

(** C9 (as stated) fails on two counts.  After a successful parse the
    page has loaded the data, without an error, and both keys are still
    stored.  And a "generate" action does not always repopulate the
    keys: the button is shown for a selection that is not empty; when
    the one key of the selection names no match of the report held now
    (the report is fetched again when the user or the report changes,
    and the selection is kept), nothing is collected and nothing is
    stored. *)
Lemma storage_kept_counterexample :
  page_selectedTrademarks
    (load_page (loadFromSessionStorage Sample.JSON_parse false true
                  Sample.storedValid initialPage)) = [JObject []]
  /\ page_error
       (load_page (loadFromSessionStorage Sample.JSON_parse false true
                     Sample.storedValid initialPage)) = None
  /\ SessionStorage.getItem "selectedTrademarks"
       (load_storage (loadFromSessionStorage Sample.JSON_parse false true
                        Sample.storedValid initialPage)) = Some "[{}]"
  /\ SessionStorage.getItem "reportData"
       (load_storage (loadFromSessionStorage Sample.JSON_parse false true
                        Sample.storedValid initialPage)) = Some "{}"
  /\ JsSet.size (trademarkId 0 7 :: nil) = 1
  /\ SessionStorage.getItem "selectedTrademarks"
       (gen_storage (handleGenerateTemplates Sample.stringifySelected Sample.stringifyReport
                       "r1" (Some Sample.report) (trademarkId 0 7 :: nil) [])) = None.
Proof. repeat split. Qed.

(** ** The testable scenario, end to end *)

Lemma zoneOffsets_complete (z : Z) : (-720 <= z <= 840)%Z -> In z zoneOffsets.
Proof.
  intros Hz. unfold zoneOffsets. apply in_map_iff.
  exists (Z.to_nat (z + 720)). split; [lia|].
  apply in_seq. lia.
Qed.

Lemma scenarioHolds_everywhere : forallb scenarioHolds zoneOffsets = true.
Proof. vm_compute. reflexivity. Qed.

Lemma scenarioHolds_on_offsets :
  forall z, In z zoneOffsets -> scenarioHolds z = true.
Proof.
  exact (proj1 (forallb_forall scenarioHolds zoneOffsets) scenarioHolds_everywhere).
Qed.

Lemma scenarioHolds_in_range (z : Z) :
  (-720 <= z <= 840)%Z -> scenarioHolds z = true.
Proof.
  intros Hz. apply scenarioHolds_on_offsets. apply zoneOffsets_complete. exact Hz.
Qed.

Lemma scenarioHolds_sound (z : Z) :
  scenarioHolds z = true ->
  exists template,
    Sample.scenarioTemplates z = [("Acme Corp", template)]
    /\ JsString.includes ("Trademark: TIGER" ++ nl) template = true
    /\ JsString.includes ("Class: 25" ++ tab ++ tab ++ nl) template = true
    /\ JsString.includes "Trademark Journal Date: 2237 " template = true
    /\ JsString.includes (nl ++ "Trademark: TYGER" ++ nl ++ "Class: 25" ++ nl) template = true
    /\ JsString.includes "Class Class" template = false
    /\ JsString.includes "Class: Class" template = false
    /\ JsString.includes "Notice of Opposition on or before 6 May 2025." template = true.
Proof.
  unfold scenarioHolds.
  destruct (Sample.scenarioTemplates z) as [|[name template] [|]]; try discriminate.
  intros H.
  repeat (apply andb_true_iff in H; destruct H as [H ?]).
  apply String.eqb_eq in H. subst name.
  exists template.
  repeat match goal with
         | Hn : negb _ = true |- _ => apply negb_true_iff in Hn
         end.
  split; [reflexivity|]. repeat (split; [assumption|]). assumption.
Qed.

(** C3 (as the code has it).  For the entry "TIGER" (class 25, source
    "Journal_2237_Class25.pdf") with its one match "TYGER" (applicant
    "Acme Corp", class "Class 25", score 0.85) selected, and the reference
    Monday date "2025-01-06", one notice is rendered, for "Acme Corp".  It
    contains the lines "Trademark: TIGER" and "Class: 25", the journal
    number 2237, the line "Trademark: TYGER" followed by the line
    "Class: 25" (no doubled "Class"), and the deadline four calendar
    months after 6 January, written as the locale en-IN writes it:
    "6 May 2025".  This holds in every browser time zone of fixed offset
    between UTC-12:00 and UTC+14:00. *)
Theorem scenario_tiger_tyger :
  forall localOffsetMinutes : Z,
    (-720 <= localOffsetMinutes <= 840)%Z ->
    exists template,
      Sample.scenarioTemplates localOffsetMinutes = [("Acme Corp", template)]
      /\ JsString.includes ("Trademark: TIGER" ++ nl) template = true
      /\ JsString.includes ("Class: 25" ++ tab ++ tab ++ nl) template = true
      /\ JsString.includes "Trademark Journal Date: 2237 " template = true
      /\ JsString.includes (nl ++ "Trademark: TYGER" ++ nl ++ "Class: 25" ++ nl) template = true
      /\ JsString.includes "Class Class" template = false
      /\ JsString.includes "Class: Class" template = false
      /\ JsString.includes "Notice of Opposition on or before 6 May 2025." template = true.
Proof.
  intros off Hoff. apply scenarioHolds_sound. apply scenarioHolds_in_range. exact Hoff.
Qed.

Lemma scenario_tiger_tyger_witness :
  exists template,
    Sample.scenarioTemplates 330 = [("Acme Corp", template)]
    /\ JsString.includes "Notice of Opposition on or before 6 May 2025." template = true.
Proof.
  destruct (scenario_tiger_tyger 330 ltac:(lia))
    as [template (H1 & _ & _ & _ & _ & _ & _ & H8)].
  exists template. split; [exact H1 | exact H8].
Defined.

(** C3 (as stated) fails in its last item: the deadline line reads
    "6 May 2025", the form of the locale en-IN that the code asks for,
    and the text "May 6, 2025" (the form of en-US for the same date)
    occurs nowhere in the notice. *)
Lemma deadline_format_counterexample :
  formatOppositionDeadline 330 "2025-01-06" = "6 May 2025"
  /\ map (fun nt => JsString.includes "6 May 2025" (snd nt)) (Sample.scenarioTemplates 330)
     = [true]
  /\ map (fun nt => JsString.includes "May 6, 2025" (snd nt)) (Sample.scenarioTemplates 330)
     = [false]
  /\ JsDate.spec_toLocaleDateString_enUS
       (JsDate.setMonth 330 (DateText.parseServerDate "2025-01-06")
          (option_map (fun m => m + 4)%Z
             (JsDate.getMonth 330 (DateText.parseServerDate "2025-01-06"))))
     = "May 6, 2025".
Proof. repeat split; vm_compute; reflexivity. Qed.

(* ================================================================== *)
(** * Further properties of the pages *)
(* ================================================================== *)

(** ** Order of binary64 numbers *)

Lemma SFcompare_Lt_Gt (a b : spec_float) :
  SFcompare a b = Some Lt -> SFcompare b a = Some Gt.
Proof.
  destruct a as [sa|sa| |sa ma ea], b as [sb|sb| |sb mb eb]; simpl;
    try discriminate; try (destruct sa; discriminate); try (destruct sb; discriminate);
    try (destruct sa, sb; (discriminate || reflexivity)).
  assert (Hm : Pos.compare_cont Eq mb ma = CompOpp (Pos.compare_cont Eq ma mb))
    by (rewrite Pos.compare_cont_antisym; reflexivity).
  rewrite (Z.compare_antisym ea eb), Hm.
  destruct sa, sb; try discriminate; try reflexivity;
    destruct (ea ?= eb)%Z; simpl; try discriminate; try reflexivity;
    destruct (Pos.compare_cont Eq ma mb); simpl; try discriminate; reflexivity.
Qed.

Lemma ltb_asym (x y : float) : (x <? y)%float = true -> (y <? x)%float = false.
Proof.
  rewrite !ltb_spec. unfold SFltb. intros H.
  destruct (SFcompare (Prim2SF x) (Prim2SF y)) as [[| |]|] eqn:Hc; try discriminate.
  rewrite (SFcompare_Lt_Gt _ _ Hc). reflexivity.
Qed.

(** ** Stable sorting *)

Section StableSort.

Context {A : Type} (goesAfter : A -> A -> bool).

Lemma insertSorted_Permutation (x : A) (l : list A) :
  Permutation (insertSorted goesAfter x l) (x :: l).
Proof.
  induction l as [|y r IH]; simpl; [apply Permutation_refl|].
  destruct (goesAfter x y); [|apply Permutation_refl].
  eapply Permutation_trans; [apply perm_skip; exact IH | apply perm_swap].
Qed.

Lemma stableSort_Permutation (l : list A) : Permutation (stableSort goesAfter l) l.
Proof.
  induction l as [|x l IH]; simpl; [constructor|].
  eapply Permutation_trans; [apply insertSorted_Permutation | apply perm_skip; exact IH].
Qed.

Hypothesis goesAfter_asym : forall x y, goesAfter x y = true -> goesAfter y x = false.

Lemma insertSorted_Sorted (x : A) (l : list A) :
  Sorted (fun a b => goesAfter a b = false) l ->
  Sorted (fun a b => goesAfter a b = false) (insertSorted goesAfter x l).
Proof.
  induction l as [|y r IH]; simpl; intros Hs.
  - constructor; constructor.
  - destruct (goesAfter x y) eqn:Hxy.
    + inversion Hs as [|? ? Hr Hhd]; subst. constructor; [apply IH; exact Hr|].
      destruct r as [|z r']; simpl.
      * constructor. apply goesAfter_asym. exact Hxy.
      * inversion Hhd; subst. destruct (goesAfter x z); constructor.
        -- assumption.
        -- apply goesAfter_asym. exact Hxy.
    + constructor; [exact Hs | constructor; exact Hxy].
Qed.

Lemma stableSort_Sorted (l : list A) :
  Sorted (fun a b => goesAfter a b = false) (stableSort goesAfter l).
Proof.
  induction l as [|x l IH]; simpl; [constructor | apply insertSorted_Sorted; exact IH].
Qed.

End StableSort.

Lemma sortByScoreDesc_stableSort (l : list Match) :
  sortByScoreDesc l = stableSort scoreBelow l.
Proof.
  unfold sortByScoreDesc, stableSort. induction l as [|x l IH]; simpl; [reflexivity|].
  rewrite IH. generalize (fold_right (insertSorted scoreBelow) [] l) as s.
  induction s as [|y s IHs]; simpl; [reflexivity|]. rewrite IHs. reflexivity.
Qed.

(** ** Positions in [map] with index *)

Lemma in_concat_mapi_from {A B : Type} (f : A -> nat -> list B) (l : list A) (x : B) :
  forall k,
    In x (List.concat (JsArray.mapi_from f k l))
    <-> exists i a, nth_error l i = Some a /\ In x (f a (k + i)).
Proof.
  induction l as [|a l IH]; intros k; simpl.
  - split; [intros [] | intros [[|i] [a [H _]]]; discriminate].
  - rewrite in_app_iff, IH. split.
    + intros [H|[i [b [Hn Hin]]]].
      * exists 0, a. rewrite Nat.add_0_r. split; [reflexivity | exact H].
      * exists (S i), b. replace (k + S i) with (S k + i) by lia. split; assumption.
    + intros [[|i] [b [Hn Hin]]]; simpl in Hn.
      * injection Hn as <-. rewrite Nat.add_0_r in Hin. left. exact Hin.
      * right. exists i, b. replace (S k + i) with (k + S i) by lia. split; assumption.
Qed.

Lemma in_concat_mapi {A B : Type} (f : A -> nat -> list B) (l : list A) (x : B) :
  In x (List.concat (JsArray.mapi f l))
  <-> exists i a, nth_error l i = Some a /\ In x (f a i).
Proof. unfold JsArray.mapi. rewrite in_concat_mapi_from. reflexivity. Qed.

Lemma in_mapi_from {A B : Type} (f : A -> nat -> B) (l : list A) (x : B) :
  forall k,
    In x (JsArray.mapi_from f k l) <-> exists i a, nth_error l i = Some a /\ x = f a (k + i).
Proof.
  induction l as [|a l IH]; intros k; simpl.
  - split; [intros [] | intros [[|i] [a [H _]]]; discriminate].
  - rewrite IH. split.
    + intros [H|[i [b [Hn Hin]]]].
      * exists 0, a. rewrite Nat.add_0_r. split; [reflexivity | symmetry; exact H].
      * exists (S i), b. replace (k + S i) with (S k + i) by lia. split; assumption.
    + intros [[|i] [b [Hn Hin]]]; simpl in Hn.
      * injection Hn as <-. rewrite Nat.add_0_r in Hin. left. symmetry. exact Hin.
      * right. exists i, b. replace (S k + i) with (k + S i) by lia. split; assumption.
Qed.

(** ** The matches shown for one applicant *)

Lemma scoreBelow_asym (a b : Match) : scoreBelow a b = true -> scoreBelow b a = false.
Proof. unfold scoreBelow. apply ltb_asym. Qed.

Lemma trimStart_fixed (s : string) :
  (forall c, JsString.firstChar s = Some c -> JsString.isWhiteSpace c = false) ->
  JsString.trimStart s = s.
Proof.
  destruct s as [|c r]; simpl; intros H; [reflexivity|].
  rewrite (H c eq_refl). reflexivity.
Qed.

Lemma trimEnd_fixed (s : string) :
  (forall c, JsString.lastChar s = Some c -> JsString.isWhiteSpace c = false) ->
  JsString.trimEnd s = s.
Proof.
  induction s as [|c r IH]; simpl; intros H; [reflexivity|].
  destruct r as [|c' r'].
  - simpl. rewrite (H c eq_refl). reflexivity.
  - rewrite IH; [reflexivity | exact H].
Qed.

Lemma trim_idempotent (s : string) : JsString.trim (JsString.trim s) = JsString.trim s.
Proof.
  destruct (trim_spec s) as [pre [suf [_ [_ [_ [Hfirst Hlast]]]]]].
  unfold JsString.trim at 1.
  rewrite (trimStart_fixed _ Hfirst). apply trimEnd_fixed. exact Hlast.
Qed.

Lemma view_membership (applicantName : string) (entries : list Entry) (m : Match) :
  In m (getFilteredMatchesByApplicant applicantName entries)
  <-> exists en,
        nth_error entries (match_entry m) = Some en
        /\ In (match_sim m) (similarTrademarksOf en)
        /\ matchesApplicant applicantName (match_sim m) = true.
Proof.
  unfold getFilteredMatchesByApplicant. rewrite sortByScoreDesc_stableSort.
  split.
  - intros H. apply (Permutation_in _ (stableSort_Permutation scoreBelow _)) in H.
    apply in_concat_mapi in H. destruct H as [i [en [Hn Hin]]].
    apply in_map_iff in Hin. destruct Hin as [s [<- Hs]].
    apply filter_In in Hs. destruct Hs as [Hs Hm]. simpl.
    exists en. auto.
  - intros [en [Hn [Hs Hm]]].
    apply (Permutation_in _ (Permutation_sym (stableSort_Permutation scoreBelow _))).
    apply in_concat_mapi. exists (match_entry m), en. split; [exact Hn|].
    apply in_map_iff. exists (match_sim m). split; [destruct m; reflexivity|].
    apply filter_In. auto.
Qed.

Lemma matchesApplicant_key (applicantName : string) (s : Sim) :
  JsString.trim applicantName <> "" ->
  matchesApplicant applicantName s = true ->
  applicantKey s = JsString.trim applicantName.
Proof.
  unfold matchesApplicant, applicantKey. intros Hne.
  destruct (JsField.value (SimilarTrademark.applicant_name s)) as [n|]; [|discriminate].
  intros H. apply andb_true_iff in H. destruct H as [H _].
  apply andb_true_iff in H. destruct H as [_ H]. apply String.eqb_eq in H.
  rewrite H. destruct (String.eqb_spec (JsString.trim applicantName) ""); [contradiction|].
  reflexivity.
Qed.

(** X1.  The applicant-filtered view holds exactly the matches of the
    report whose applicant name is not empty, equals the chosen name
    after both are trimmed, and whose normalized score is 0.3 or more,
    each with the position of its entry; no match is directly followed by
    one of strictly higher normalized score; and when the chosen name is
    not blank, every match of the view gets, on the template page, the
    grouping key that is the trimmed chosen name. *)
Theorem applicant_view_matches :
  forall (applicantName : string) (entries : list Entry) (m : Match),
    (In m (getFilteredMatchesByApplicant applicantName entries)
     <-> exists en,
           nth_error entries (match_entry m) = Some en
           /\ In (match_sim m) (similarTrademarksOf en)
           /\ matchesApplicant applicantName (match_sim m) = true)
    /\ Sorted (fun a b => scoreBelow a b = false)
              (getFilteredMatchesByApplicant applicantName entries)
    /\ (JsString.trim applicantName <> "" ->
        In m (getFilteredMatchesByApplicant applicantName entries) ->
        applicantKey (match_sim m) = JsString.trim applicantName).
Proof.
  intros applicantName entries m. split; [apply view_membership|]. split.
  - unfold getFilteredMatchesByApplicant. rewrite sortByScoreDesc_stableSort.
    apply stableSort_Sorted. exact scoreBelow_asym.
  - intros Hne Hin. apply view_membership in Hin. destruct Hin as [en [_ [_ Hm]]].
    apply matchesApplicant_key; assumption.
Qed.

Lemma applicant_view_matches_witness :
  applicantKey Sample.tyger = "Acme Corp".
Proof.
  destruct (applicant_view_matches " Acme Corp " [Sample.tiger] (mkMatch 0 Sample.tyger))
    as (Hmem & _ & Hkey).
  apply Hkey; [discriminate|].
  apply Hmem. exists Sample.tiger. repeat split. left. reflexivity.
Defined.

(** ** More on maps in insertion order *)

Section MapLookup.

Context {K V : Type} (eqb : K -> K -> bool).
Hypothesis eqb_eq : forall a b, eqb a b = true <-> a = b.

Lemma get_set_other (m : list (K * V)) (k k' : K) (v : V) :
  k <> k' -> JsMap.get eqb k' (JsMap.set eqb k v m) = JsMap.get eqb k' m.
Proof.
  intros Hne. induction m as [|[k0 v0] m IH]; simpl.
  - destruct (eqb k k') eqn:E; [apply eqb_eq in E; contradiction | reflexivity].
  - destruct (eqb k0 k) eqn:E0; simpl.
    + apply eqb_eq in E0. subst k0.
      destruct (eqb k k') eqn:E; [apply eqb_eq in E; contradiction | reflexivity].
    + rewrite IH. reflexivity.
Qed.

Lemma get_ensure_other (m : list (K * V)) (k k' : K) (v0 : V) :
  k <> k' -> JsMap.get eqb k' (JsMap.ensure eqb k v0 m) = JsMap.get eqb k' m.
Proof.
  intros Hne. unfold JsMap.ensure. destruct (JsMap.has eqb k m); [reflexivity|].
  apply get_set_other. exact Hne.
Qed.

Lemma keys_set_ensure_NoDup (m : list (K * V)) (k : K) (v0 v : V) :
  NoDup (map fst m) -> NoDup (map fst (JsMap.set eqb k v (JsMap.ensure eqb k v0 m))).
Proof.
  intros Hm.
  rewrite (keys_set_present eqb _ k v _ (get_ensure eqb eqb_eq m k v0)).
  apply (keys_ensure_NoDup eqb eqb_eq). exact Hm.
Qed.

Lemma get_In (m : list (K * V)) (k : K) (v : V) :
  NoDup (map fst m) -> In (k, v) m -> JsMap.get eqb k m = Some v.
Proof.
  induction m as [|[k0 v0] m IH]; simpl; intros Hnd Hin; [contradiction|].
  inversion Hnd as [|? ? Hnotin Hnd']; subst.
  destruct Hin as [[= -> ->]|Hin].
  - rewrite (proj2 (eqb_eq k k) eq_refl). reflexivity.
  - destruct (eqb k0 k) eqn:E.
    + apply eqb_eq in E. subst k0. exfalso. apply Hnotin.
      apply in_map_iff. exists (k, v). split; [reflexivity | exact Hin].
    + apply IH; assumption.
Qed.

Lemma In_get (m : list (K * V)) (k : K) (v : V) :
  JsMap.get eqb k m = Some v -> In (k, v) m.
Proof.
  induction m as [|[k0 v0] m IH]; simpl; [discriminate|].
  destruct (eqb k0 k) eqn:E.
  - apply eqb_eq in E. subst k0. intros [= ->]. left. reflexivity.
  - intros H. right. apply IH. exact H.
Qed.

End MapLookup.

(** ** Matches of the applicant view, grouped by entry *)

Lemma groupByEntryStep_get (entries : list Entry) (g : list (nat * list Match))
    (done : list Match) (m : Match) :
  (NoDup (map fst g)
   /\ forall k, JsMap.get Nat.eqb k g = asGroup (validMatchesOf entries k done)) ->
  NoDup (map fst (groupByEntryStep entries g m))
  /\ forall k, JsMap.get Nat.eqb k (groupByEntryStep entries g m)
               = asGroup (validMatchesOf entries k (done ++ [m])).
Proof.
  intros [Hnd Hget]. unfold groupByEntryStep, entryIndexOf, validMatchesOf.
  destruct (match_entry m <? List.length entries)%nat eqn:Hv.
  - change (if JsMap.has Nat.eqb (match_entry m) g then g
            else JsMap.set Nat.eqb (match_entry m) [] g)
      with (JsMap.ensure Nat.eqb (match_entry m) [] g).
    rewrite (get_ensure Nat.eqb Nat.eqb_eq). split.
    + apply (keys_set_ensure_NoDup Nat.eqb Nat.eqb_eq). exact Hnd.
    + intros k. rewrite filter_app. simpl. rewrite Hv, andb_true_r.
      destruct (Nat.eqb_spec (match_entry m) k) as [->|Hne].
      * rewrite (get_set_same Nat.eqb Nat.eqb_refl). rewrite Hget.
        unfold validMatchesOf.
        destruct (filter _ done); reflexivity.
      * rewrite (get_set_other Nat.eqb Nat.eqb_eq) by exact Hne.
        rewrite (get_ensure_other Nat.eqb Nat.eqb_eq) by exact Hne.
        rewrite app_nil_r. apply Hget.
  - split; [exact Hnd|]. intros k. rewrite filter_app. simpl.
    rewrite Hv, andb_false_r, app_nil_r. apply Hget.
Qed.

Lemma groupByEntryFold_get (entries : list Entry) (rest : list Match) :
  forall (g : list (nat * list Match)) (done : list Match),
    (NoDup (map fst g)
     /\ forall k, JsMap.get Nat.eqb k g = asGroup (validMatchesOf entries k done)) ->
    NoDup (map fst (fold_left (groupByEntryStep entries) rest g))
    /\ forall k, JsMap.get Nat.eqb k (fold_left (groupByEntryStep entries) rest g)
                 = asGroup (validMatchesOf entries k (done ++ rest)).
Proof.
  induction rest as [|m rest IH]; intros g done H; simpl.
  - rewrite app_nil_r. exact H.
  - replace (done ++ m :: rest)%list with ((done ++ [m]) ++ rest)%list
      by (rewrite <- app_assoc; reflexivity).
    apply IH. apply groupByEntryStep_get. exact H.
Qed.

Lemma groupedByEntry_get (entries : list Entry) (filteredMatches : list Match) :
  NoDup (map fst (groupedByEntry entries filteredMatches))
  /\ forall k, JsMap.get Nat.eqb k (groupedByEntry entries filteredMatches)
               = asGroup (validMatchesOf entries k filteredMatches).
Proof.
  apply (groupByEntryFold_get entries filteredMatches [] []).
  split; [constructor | reflexivity].
Qed.

(** X2.  [groupedByEntry] files every match of the applicant view under
    the position of its entry and nowhere else: the group stored for an
    entry position is the list of the view's matches of that entry, in
    the order of the view, and an entry position has a group only when
    that list is not empty; no entry position has two groups. *)
Theorem groupedByEntry_exact :
  forall (entries : list Entry) (filteredMatches : list Match) (k : nat),
    NoDup (map fst (groupedByEntry entries filteredMatches))
    /\ JsMap.get Nat.eqb k (groupedByEntry entries filteredMatches)
       = match filter (fun m => (match_entry m =? k)%nat
                                && (match_entry m <? List.length entries)%nat)
                      filteredMatches with
         | [] => None
         | ms => Some ms
         end.
Proof.
  intros entries filteredMatches k.
  destruct (groupedByEntry_get entries filteredMatches) as [Hnd Hget].
  split; [exact Hnd|]. rewrite Hget. unfold asGroup, validMatchesOf.
  destruct (filter _ filteredMatches); reflexivity.
Qed.

(** ** No row of the page's own data is skipped *)

Lemma flat_map_nil {A B : Type} (f : A -> list B) (l : list A) :
  (forall a, In a l -> f a = []) -> flat_map f l = [].
Proof.
  induction l as [|a l IH]; intros H; simpl; [reflexivity|].
  rewrite (H a (or_introl eq_refl)), IH; [reflexivity|].
  intros b Hb. apply H. right. exact Hb.
Qed.

Lemma table_reconciles (sims : list Sim) (s : Sim) :
  In s sims -> is_infinity (SimilarTrademark.similarity_score s) = false ->
  exists j, actualSimIndexTable sims s = Some j /\ j < List.length sims.
Proof.
  intros Hin Hfin. apply In_nth_error in Hin. destruct Hin as [i Hi].
  destruct (findIndex_hit (sameSimTable s) sims i s Hi (sameSimTable_refl s Hfin))
    as [j [Hj _]].
  exists j. split; [exact Hj | exact (findIndex_lt _ _ _ Hj)].
Qed.

Lemma applicantView_reconciles (sims : list Sim) (s : Sim) :
  In s sims -> is_infinity (SimilarTrademark.similarity_score s) = false ->
  exists j, actualSimIndexApplicantView sims s = Some j /\ j < List.length sims.
Proof.
  intros Hin Hfin. apply In_nth_error in Hin. destruct Hin as [i Hi].
  destruct (findIndex_hit (sameSimApplicantView s) sims i s Hi
              (sameSimApplicantView_refl s Hfin)) as [j [Hj _]].
  exists j. split; [exact Hj | exact (findIndex_lt _ _ _ Hj)].
Qed.

Lemma entriesWithMatches_In (entries : list Entry) (item : EntryWithMatches) :
  In item (entriesWithMatches entries)
  <-> nth_error entries (ewm_entryIndex item) = Some (ewm_entry item)
      /\ ewm_filtered item
         = getFilteredSimilarTrademarks (similarTrademarksOf (ewm_entry item))
             Score.minThresholdDefault
      /\ ewm_filtered item <> [].
Proof.
  unfold entriesWithMatches. split.
  - intros H. apply (Permutation_in _ (stableSort_Permutation _ _)) in H.
    apply filter_In in H. destruct H as [H Hne].
    apply in_mapi_from in H. destruct H as [i [en [Hn ->]]]. simpl in *.
    repeat split; try assumption.
    intros He. rewrite He in Hne. discriminate.
  - intros [Hn [Hf Hne]].
    apply (Permutation_in _ (Permutation_sym (stableSort_Permutation _ _))).
    apply filter_In. split.
    + apply in_mapi_from. exists (ewm_entryIndex item), (ewm_entry item).
      split; [exact Hn|]. destruct item as [i en f]. simpl in *. subst f. reflexivity.
    + destruct (ewm_filtered item); [contradiction | reflexivity].
Qed.

(** X3.  The list of entries shown on the report page holds exactly the
    entries that have a match of normalized score 0.3 or more, each with
    its own position and with all its matches of that kind; no item is
    directly followed by one of strictly higher top raw score.  In the
    table of every item, when no score is infinite, every visible match
    is rendered with a checkbox bound to an existing position of the
    entry's original sequence, and nothing is logged or skipped. *)
Theorem entries_table_complete :
  forall (entries : list Entry) (sel : JsSet.t) (item : EntryWithMatches),
    (In item (entriesWithMatches entries)
     <-> nth_error entries (ewm_entryIndex item) = Some (ewm_entry item)
         /\ ewm_filtered item
            = getFilteredSimilarTrademarks (similarTrademarksOf (ewm_entry item))
                Score.minThresholdDefault
         /\ ewm_filtered item <> [])
    /\ Sorted (fun a b => (maxRawScore a <? maxRawScore b)%float = false)
              (entriesWithMatches entries)
    /\ (In item (entriesWithMatches entries) ->
        (forall s, In s (ewm_filtered item) ->
                   is_infinity (SimilarTrademark.similarity_score s) = false) ->
        snd (renderTableRows sel (ewm_entry item) (ewm_entryIndex item) (ewm_filtered item)) = []
        /\ forall slot,
             In slot (fst (renderTableRows sel (ewm_entry item) (ewm_entryIndex item)
                             (ewm_filtered item))) ->
             exists row j,
               slot = Some row
               /\ row_trademarkId row = trademarkId (ewm_entryIndex item) j
               /\ j < List.length (similarTrademarksOf (ewm_entry item))).
Proof.
  intros entries sel item. split; [apply entriesWithMatches_In|]. split.
  - unfold entriesWithMatches. apply stableSort_Sorted.
    intros x y. apply ltb_asym.
  - intros Hin Hfin. apply entriesWithMatches_In in Hin. destruct Hin as [Hn [Hf _]].
    assert (Hsub : forall s, In s (ewm_filtered item) ->
                             In s (similarTrademarksOf (ewm_entry item))).
    { intros s Hs. rewrite Hf in Hs. unfold getFilteredSimilarTrademarks in Hs.
      apply filter_In in Hs. apply Hs. }
    unfold renderTableRows. rewrite renderTableRowsFrom_parts. simpl. split.
    + apply flat_map_nil. intros s Hs. unfold tableWarnings.
      destruct (table_reconciles _ s (Hsub s Hs) (Hfin s Hs)) as [j [-> _]]. reflexivity.
    + intros slot Hslot. apply in_mapi_from in Hslot.
      destruct Hslot as [i [s [Hi ->]]]. apply nth_error_In in Hi.
      destruct (table_reconciles _ s (Hsub s Hi) (Hfin s Hi)) as [j [Hj Hlt]].
      unfold tableSlot, renderTableRow. rewrite Hj. simpl.
      eexists. exists j. split; [reflexivity|]. split; [reflexivity | exact Hlt].
Qed.

Lemma entries_table_complete_witness :
  snd (renderTableRows JsSet.empty Sample.tiger 0 [Sample.tyger]) = [].
Proof.
  destruct (entries_table_complete [Sample.tiger] JsSet.empty
              (mkEntryWithMatches 0 Sample.tiger [Sample.tyger]))
    as (Hmem & _ & Hrows).
  refine (proj1 (Hrows _ _)).
  - apply Hmem. repeat split. discriminate.
  - intros s [<-|[]]. reflexivity.
Defined.

(** X4.  In the applicant-filtered view, the cards of a group of
    [groupedByEntry] (built from the view of a chosen applicant) are all
    rendered, each with a checkbox bound to an existing position of that
    entry's original sequence, and nothing is logged or skipped, when no
    score of the group is infinite. *)
Theorem applicant_cards_complete :
  forall (entries : list Entry) (sel : JsSet.t) (applicantName : string)
         (k : nat) (ms : list Match),
    In (k, ms) (groupedByEntry entries (getFilteredMatchesByApplicant applicantName entries)) ->
    (forall m, In m ms -> is_infinity (SimilarTrademark.similarity_score (match_sim m)) = false) ->
    ms <> []
    /\ snd (renderMatchCards sel entries k ms) = []
    /\ forall slot,
         In slot (fst (renderMatchCards sel entries k ms)) ->
         exists card j en,
           slot = Some card
           /\ card_trademarkId card = trademarkId k j
           /\ nth_error entries k = Some en
           /\ j < List.length (similarTrademarksOf en).
Proof.
  intros entries sel applicantName k ms Hin Hfin.
  destruct (groupedByEntry_get entries (getFilteredMatchesByApplicant applicantName entries))
    as [Hnd Hget].
  apply (get_In Nat.eqb Nat.eqb_eq _ _ _ Hnd) in Hin. rewrite Hget in Hin.
  unfold asGroup in Hin.
  destruct (validMatchesOf entries k (getFilteredMatchesByApplicant applicantName entries))
    as [|m0 ms0] eqn:Hv; [discriminate|].
  injection Hin as <-.
  assert (Hms : forall m, In m (m0 :: ms0) ->
                  match_entry m = k
                  /\ exists en, nth_error entries k = Some en
                                /\ In (match_sim m) (similarTrademarksOf en)).
  { intros m Hm. rewrite <- Hv in Hm. unfold validMatchesOf in Hm.
    apply filter_In in Hm. destruct Hm as [Hm Hk].
    apply andb_true_iff in Hk. destruct Hk as [Hk _]. apply Nat.eqb_eq in Hk.
    split; [exact Hk|].
    apply view_membership in Hm. destruct Hm as [en [Hn [Hs _]]].
    rewrite Hk in Hn. exists en. auto. }
  split; [discriminate|].
  unfold renderMatchCards. rewrite renderMatchCardsFrom_parts. cbn [fst snd]. split.
  - apply flat_map_nil. intros m Hm. destruct (Hms m Hm) as [_ [en [Hn Hs]]].
    unfold cardWarnings. rewrite Hn.
    destruct (applicantView_reconciles _ _ Hs (Hfin m Hm)) as [j [-> _]]. reflexivity.
  - intros slot Hslot. apply in_mapi_from in Hslot.
    destruct Hslot as [i [m [Hi ->]]]. apply nth_error_In in Hi.
    destruct (Hms m Hi) as [_ [en [Hn Hs]]].
    destruct (applicantView_reconciles _ _ Hs (Hfin m Hi)) as [j [Hj Hlt]].
    unfold cardSlot, renderMatchCard. rewrite Hn, Hj. simpl.
    eexists. exists j, en. repeat split; assumption.
Qed.

Lemma applicant_cards_complete_witness :
  snd (renderMatchCards JsSet.empty [Sample.tiger] 0 [mkMatch 0 Sample.tyger]) = [].
Proof.
  refine (proj1 (proj2 (applicant_cards_complete [Sample.tiger] JsSet.empty "Acme Corp" 0
                          [mkMatch 0 Sample.tyger] _ _))).
  - vm_compute. left. reflexivity.
  - intros m [<-|[]]. reflexivity.
Defined.

Lemma SFcompare_le_trans (a b c : spec_float) :
  cmpLe (SFcompare a b) = true -> cmpLe (SFcompare b c) = true ->
  cmpLe (SFcompare a c) = true.
Proof.
  destruct a as [sa|sa| |sa ma ea], b as [sb|sb| |sb mb eb], c as [sc|sc| |sc mc ec];
    simpl; try discriminate; try reflexivity;
    try (destruct sa; simpl; try discriminate; try reflexivity; fail);
    try (destruct sb; simpl; try discriminate; try reflexivity; fail);
    try (destruct sc; simpl; try discriminate; try reflexivity; fail);
    try (destruct sa, sb; simpl; try discriminate; try reflexivity; fail);
    try (destruct sa, sc; simpl; try discriminate; try reflexivity; fail);
    try (destruct sb, sc; simpl; try discriminate; try reflexivity; fail);
    try (destruct sa, sb, sc; simpl; try discriminate; try reflexivity; fail).
  destruct sa, sb, sc; simpl; try discriminate; try reflexivity;
    destruct (Z.compare_spec ea eb), (Z.compare_spec eb ec), (Z.compare_spec ea ec);
    simpl; try (intros; congruence); try reflexivity; try (exfalso; lia);
    change (PosDef.Pos.compare_cont Eq ma mb) with (Pos.compare ma mb);
    change (PosDef.Pos.compare_cont Eq mb mc) with (Pos.compare mb mc);
    change (PosDef.Pos.compare_cont Eq ma mc) with (Pos.compare ma mc);
    destruct (Pos.compare_spec ma mb), (Pos.compare_spec mb mc), (Pos.compare_spec ma mc);
    simpl; intros; try congruence; try reflexivity; exfalso; lia.
Qed.

Lemma leb_trans (x y z : float) :
  (x <=? y)%float = true -> (y <=? z)%float = true -> (x <=? z)%float = true.
Proof.
  rewrite !leb_spec. unfold SFleb. intros H1 H2.
  pose proof (SFcompare_le_trans (Prim2SF x) (Prim2SF y) (Prim2SF z)) as H.
  unfold cmpLe in H.
  destruct (SFcompare (Prim2SF x) (Prim2SF y)) as [[| |]|]; try discriminate;
  destruct (SFcompare (Prim2SF y) (Prim2SF z)) as [[| |]|]; try discriminate;
  specialize (H eq_refl eq_refl);
  destruct (SFcompare (Prim2SF x) (Prim2SF z)) as [[| |]|]; try discriminate; reflexivity.
Qed.

(** ** The header checkbox of a table *)

Lemma has_headerOnChange (checked : bool) (en : Entry) (e : nat) (filtered : list Sim) :
  forall (sel : JsSet.t) (k : string),
    JsSet.has (headerOnChange checked en e filtered sel) k
    = if addressedBy en e filtered k then checked else JsSet.has sel k.
Proof.
  unfold headerOnChange, addressedBy.
  induction filtered as [|s rest IH]; intros sel k; simpl; [reflexivity|].
  rewrite IH.
  destruct (actualSimIndexTable (similarTrademarksOf en) s) as [i|]; simpl.
  - rewrite has_handleTrademarkSelect.
    destruct (String.eqb k (trademarkId e i)); simpl; [|reflexivity].
    destruct (existsb _ rest); reflexivity.
  - reflexivity.
Qed.

(** X5.  A change of the header checkbox of an entry's table sets the
    membership of the key of every visible match that reconciles to the
    value of the checkbox, and leaves every other key, in particular all
    keys of other entries, as it was.  Afterwards the header checkbox is
    unchecked if it was unchecked; if it was checked, it shows checked
    as soon as the table is not empty and every visible match is a match
    of the entry with a score that is not infinite. *)
Theorem header_checkbox_selects_visible :
  forall (checked : bool) (en : Entry) (e : nat) (filtered : list Sim) (sel : JsSet.t),
    (forall k, JsSet.has (headerOnChange checked en e filtered sel) k
               = if addressedBy en e filtered k then checked else JsSet.has sel k)
    /\ (forall e' i', e' <> e ->
          JsSet.has (headerOnChange checked en e filtered sel) (trademarkId e' i')
          = JsSet.has sel (trademarkId e' i'))
    /\ headerChecked (headerOnChange false en e filtered sel) en e filtered = false
    /\ (filtered <> [] ->
        (forall s, In s filtered ->
                   In s (similarTrademarksOf en)
                   /\ is_infinity (SimilarTrademark.similarity_score s) = false) ->
        headerChecked (headerOnChange true en e filtered sel) en e filtered = true).
Proof.
  intros checked en e filtered sel.
  split; [apply has_headerOnChange|]. split; [|split].
  - intros e' i' Hne. rewrite has_headerOnChange.
    replace (addressedBy en e filtered (trademarkId e' i')) with false; [reflexivity|].
    symmetry. unfold addressedBy. apply not_true_is_false. intros H.
    apply existsb_exists in H. destruct H as [s [_ Hs]].
    destruct (actualSimIndexTable (similarTrademarksOf en) s) as [i|]; [|discriminate].
    apply String.eqb_eq in Hs. apply trademarkId_inj in Hs. destruct Hs as [He _].
    contradiction.
  - unfold headerChecked. destruct filtered as [|s rest]; [reflexivity|].
    apply andb_false_iff. right. cbn [forallb]. apply andb_false_iff. left.
    destruct (actualSimIndexTable (similarTrademarksOf en) s) as [i|] eqn:Hi; [|reflexivity].
    rewrite has_headerOnChange.
    replace (addressedBy en e (s :: rest) (trademarkId e i)) with true; [reflexivity|].
    symmetry. unfold addressedBy. cbn [existsb]. rewrite Hi, String.eqb_refl. reflexivity.
  - intros Hne Hall. unfold headerChecked. apply andb_true_iff. split.
    + destruct filtered; [contradiction | reflexivity].
    + apply forallb_forall. intros s Hs. destruct (Hall s Hs) as [Hin Hfin].
      destruct (table_reconciles _ s Hin Hfin) as [j [Hj _]]. rewrite Hj.
      rewrite has_headerOnChange.
      replace (addressedBy en e filtered (trademarkId e j)) with true; [reflexivity|].
      symmetry. unfold addressedBy. apply existsb_exists. exists s. split; [exact Hs|].
      rewrite Hj. apply String.eqb_refl.
Qed.

Lemma header_checkbox_selects_visible_witness :
  headerChecked (headerOnChange true Sample.tiger 0 [Sample.tyger] JsSet.empty)
    Sample.tiger 0 [Sample.tyger] = true.
Proof.
  destruct (header_checkbox_selects_visible true Sample.tiger 0 [Sample.tyger] JsSet.empty)
    as (_ & _ & _ & H).
  apply H; [discriminate|].
  intros s [<-|[]]. split; [left; reflexivity | reflexivity].
Defined.

(** ** Risk levels, colours and the high-similarity count *)

Lemma leb_false_below (c1 c2 x : float) :
  (c1 <=? c2)%float = true -> (c1 <=? x)%float = false -> (c2 <=? x)%float = false.
Proof.
  intros Hc Hx. destruct (c2 <=? x)%float eqn:H2; [|reflexivity].
  rewrite (leb_trans c1 c2 x Hc H2) in Hx. discriminate.
Qed.

(** X6.  The risk level and the colour of a score agree: a score is
    coloured red exactly when its risk level is "HIGH RISK"; a score of
    "MEDIUM RISK" is coloured orange or yellow; a score coloured gray
    (below 0.5, or not a number) has "LOW RISK". *)
Theorem risk_level_and_colour_agree :
  forall score : float,
    (getScoreColor score = "bg-red-100 text-red-800 border-red-300"
     <-> risk_level (getRiskLevel score) = "HIGH RISK")
    /\ (risk_level (getRiskLevel score) = "MEDIUM RISK" ->
        getScoreColor score = "bg-orange-100 text-orange-800 border-orange-300"
        \/ getScoreColor score = "bg-yellow-100 text-yellow-800 border-yellow-300")
    /\ (getScoreColor score = "bg-gray-100 text-gray-800 border-gray-300" ->
        risk_level (getRiskLevel score) = "LOW RISK")
    /\ getScoreColor nan = "bg-gray-100 text-gray-800 border-gray-300".
Proof.
  intros score. unfold getScoreColor, getRiskLevel.
  destruct (0x1.999999999999ap-1 <=? score)%float eqn:H8; simpl.
  - repeat split; intros; try reflexivity; discriminate.
  - destruct (0x1.3333333333333p-1 <=? score)%float eqn:H6; simpl.
    + assert (H5 : (0.5 <=? score)%float = true)
        by (apply (leb_trans 0.5 0x1.3333333333333p-1 score); [reflexivity | exact H6]).
      rewrite H5.
      destruct (0x1.6666666666666p-1 <=? score)%float;
        repeat split; intros; try discriminate; try reflexivity; auto.
    + assert (H7 : (0x1.6666666666666p-1 <=? score)%float = false)
        by (apply (leb_false_below 0x1.3333333333333p-1); [reflexivity | exact H6]).
      rewrite H7.
      destruct (0.5 <=? score)%float;
        repeat split; intros; try discriminate; try reflexivity.
Qed.

Lemma risk_level_and_colour_agree_witness :
  getScoreColor 0.875 = "bg-red-100 text-red-800 border-red-300".
Proof.
  apply (proj2 (proj1 (risk_level_and_colour_agree 0.875))). reflexivity.
Defined.

(** ** Every card of the applicant view is in one group *)

Lemma groupByEntryStep_flat (entries : list Entry) (g : list (nat * list Match)) (m : Match) :
  Permutation (flat_map snd (groupByEntryStep entries g m))
              (flat_map snd g
               ++ (if (match_entry m <? List.length entries)%nat then [m] else []))%list.
Proof.
  unfold groupByEntryStep, entryIndexOf.
  destruct (match_entry m <? List.length entries)%nat.
  - change (if JsMap.has Nat.eqb (match_entry m) g then g
            else JsMap.set Nat.eqb (match_entry m) [] g)
      with (JsMap.ensure Nat.eqb (match_entry m) [] g).
    rewrite (get_ensure Nat.eqb Nat.eqb_eq).
    rewrite <- (flat_ensure Nat.eqb snd g (match_entry m) []) by reflexivity.
    apply (flat_set_present Nat.eqb Nat.eqb_eq snd _ _ _ _ [m]
             (get_ensure Nat.eqb Nat.eqb_eq g (match_entry m) [])).
    simpl. apply Permutation_refl.
  - rewrite app_nil_r. apply Permutation_refl.
Qed.

Lemma groupByEntryFold_flat (entries : list Entry) (rest : list Match) :
  forall g : list (nat * list Match),
    Permutation (flat_map snd (fold_left (groupByEntryStep entries) rest g))
                (flat_map snd g
                 ++ filter (fun m => (match_entry m <? List.length entries)%nat) rest)%list.
Proof.
  induction rest as [|m rest IH]; intros g; simpl.
  - rewrite app_nil_r. apply Permutation_refl.
  - eapply Permutation_trans; [apply IH|].
    eapply Permutation_trans;
      [apply Permutation_app_tail; apply groupByEntryStep_flat|].
    rewrite <- app_assoc.
    destruct (match_entry m <? List.length entries)%nat; apply Permutation_refl.
Qed.

Lemma view_refers_to_entries (applicantName : string) (entries : list Entry) :
  filter (fun m => (match_entry m <? List.length entries)%nat)
         (getFilteredMatchesByApplicant applicantName entries)
  = getFilteredMatchesByApplicant applicantName entries.
Proof.
  apply forallb_filter_id. apply forallb_forall. intros m Hm.
  apply view_membership in Hm. destruct Hm as [en [Hn _]].
  apply Nat.ltb_lt. apply nth_error_Some. rewrite Hn. discriminate.
Qed.

Lemma length_flat_map_snd {K B : Type} (g : list (K * list B)) :
  List.length (flat_map snd g) = list_sum (map (fun kv => List.length (snd kv)) g).
Proof.
  induction g as [|[k v] g IH]; simpl; [reflexivity|].
  rewrite length_app, IH. reflexivity.
Qed.

Lemma groups_nonempty_count {K B : Type} (g : list (K * list B)) :
  (forall kv, In kv g -> snd kv <> []) ->
  List.length g <= list_sum (map (fun kv => List.length (snd kv)) g).
Proof.
  induction g as [|[k v] g IH]; simpl; intros H; [lia|].
  assert (Hv : v <> []) by exact (H (k, v) (or_introl eq_refl)).
  assert (Hg : List.length g <= list_sum (map (fun kv => List.length (snd kv)) g))
    by (apply IH; intros kv Hkv; apply H; right; exact Hkv).
  destruct v; [contradiction | simpl; lia].
Qed.

(** X7.  The groups of the applicant-filtered view hold the matches of
    the view, each match in one group (with its multiplicity): the
    number of matches shown in the header of the view is the number of
    cards in all groups together, and the number of entries shown beside
    it is at most that number. *)
Theorem view_cards_in_one_group :
  forall (applicantName : string) (entries : list Entry),
    let filteredMatches := getFilteredMatchesByApplicant applicantName entries in
    let groups := groupedByEntry entries filteredMatches in
    Permutation (flat_map snd groups) filteredMatches
    /\ list_sum (map (fun kv => List.length (snd kv)) groups) = List.length filteredMatches
    /\ List.length groups <= List.length filteredMatches.
Proof.
  intros applicantName entries filteredMatches groups.
  assert (HP : Permutation (flat_map snd groups) filteredMatches).
  { unfold groups, groupedByEntry.
    eapply Permutation_trans; [apply groupByEntryFold_flat|]. simpl.
    unfold filteredMatches. rewrite view_refers_to_entries. apply Permutation_refl. }
  assert (HS : list_sum (map (fun kv => List.length (snd kv)) groups)
               = List.length filteredMatches).
  { rewrite <- length_flat_map_snd. apply Permutation_length. exact HP. }
  split; [exact HP|]. split; [exact HS|].
  rewrite <- HS. apply groups_nonempty_count. intros [k ms] Hin.
  destruct (groupedByEntry_get entries filteredMatches) as [Hnd Hget].
  apply (get_In Nat.eqb Nat.eqb_eq _ _ _ Hnd) in Hin. rewrite Hget in Hin.
  unfold asGroup in Hin. simpl.
  destruct (validMatchesOf entries k filteredMatches); [discriminate|].
  injection Hin as <-. discriminate.
Qed.

(** ** The applicants of a report *)

Lemma dataOf_snoc (ms : list Match) (m : Match) :
  dataOf (ms ++ [m])
  = Some match dataOf ms with
         | Some d =>
             {| data_count := S (data_count d);
                data_highestScore := max2 (data_highestScore d) (normalizedScoreOf m);
                data_matches := (data_matches d ++ [m])%list |}
         | None =>
             {| data_count := 1;
                data_highestScore := max2 (normalizedScoreOf m) (normalizedScoreOf m);
                data_matches := [m] |}
         end.
Proof.
  destruct ms as [|m0 ms]; [reflexivity|].
  unfold dataOf. cbn [app data_count data_highestScore data_matches].
  change (m0 :: (ms ++ [m]))%list with ((m0 :: ms) ++ [m])%list.
  rewrite map_app, fold_left_app, length_app, Nat.add_1_r. reflexivity.
Qed.

Lemma countedUnder_skipped (m : Match) :
  (match JsField.value (SimilarTrademark.applicant_name (match_sim m)) with
   | Some n => String.eqb n "" || String.eqb (JsString.trim n) ""
   | None => true
   end) = true ->
  forall name, countedUnder name m = false.
Proof.
  unfold countedUnder. intros H name.
  destruct (JsField.value (SimilarTrademark.applicant_name (match_sim m))) as [n|]; [|reflexivity].
  destruct (String.eqb n ""); [reflexivity|]. simpl in H. rewrite H. reflexivity.
Qed.

Lemma uniqueApplicantsStep_invariant (st : list (string * ApplicantData))
    (done : list Match) (m : Match) :
  applicantsInvariant st done ->
  applicantsInvariant (uniqueApplicantsStep st m) (done ++ [m]).
Proof.
  intros [Hnd Hget]. unfold uniqueApplicantsStep.
  destruct (JsField.value (SimilarTrademark.applicant_name (match_sim m))) as [n|] eqn:Hn.
  - destruct (String.eqb n "" || String.eqb (JsString.trim n) "") eqn:Hskip.
    + split; [exact Hnd|]. intros name. rewrite filter_app. simpl.
      rewrite (countedUnder_skipped m) by (rewrite Hn; exact Hskip).
      rewrite app_nil_r. apply Hget.
    + apply orb_false_iff in Hskip. destruct Hskip as [Hn1 Hn2].
      match goal with
      | |- context [if JsMap.has String.eqb ?k st then st else JsMap.set String.eqb ?k ?v st] =>
          change (if JsMap.has String.eqb k st then st else JsMap.set String.eqb k v st)
            with (JsMap.ensure String.eqb k v st)
      end.
      rewrite (get_ensure String.eqb String.eqb_eq). split.
      * apply (keys_set_ensure_NoDup String.eqb String.eqb_eq). exact Hnd.
      * intros name. rewrite filter_app. simpl.
        unfold countedUnder at 2. rewrite Hn, Hn1, Hn2. simpl.
        destruct (String.eqb_spec (JsString.trim n) name) as [<-|Hne].
        -- rewrite (get_set_same String.eqb String.eqb_refl).
           rewrite dataOf_snoc, Hget.
           destruct (dataOf (filter (countedUnder (JsString.trim n)) done)) as [d|];
             reflexivity.
        -- rewrite (get_set_other String.eqb String.eqb_eq) by exact Hne.
           rewrite (get_ensure_other String.eqb String.eqb_eq) by exact Hne.
           rewrite app_nil_r. apply Hget.
  - split; [exact Hnd|]. intros name. rewrite filter_app. simpl.
    rewrite (countedUnder_skipped m) by (rewrite Hn; reflexivity).
    rewrite app_nil_r. apply Hget.
Qed.

Lemma uniqueApplicantsFold_invariant (rest : list Match) :
  forall (st : list (string * ApplicantData)) (done : list Match),
    applicantsInvariant st done ->
    applicantsInvariant (fold_left uniqueApplicantsStep rest st) (done ++ rest).
Proof.
  induction rest as [|m rest IH]; intros st done H; simpl.
  - rewrite app_nil_r. exact H.
  - replace (done ++ m :: rest)%list with ((done ++ [m]) ++ rest)%list
      by (rewrite <- app_assoc; reflexivity).
    apply IH. apply uniqueApplicantsStep_invariant. exact H.
Qed.

Lemma applicantMap_invariant (entries : list Entry) :
  applicantsInvariant (fold_left uniqueApplicantsStep (allMatches entries) [])
                      (allMatches entries).
Proof.
  apply (uniqueApplicantsFold_invariant (allMatches entries) [] []).
  split; [constructor | reflexivity].
Qed.

(** ** The largest of a list of scores *)

Lemma SFcompare_antisym (a b : spec_float) :
  SFcompare b a = option_map CompOpp (SFcompare a b).
Proof.
  destruct a as [sa|sa| |sa ma ea], b as [sb|sb| |sb mb eb]; simpl;
    try reflexivity; try (destruct sa; reflexivity); try (destruct sb; reflexivity);
    try (destruct sa, sb; reflexivity).
  assert (Hm : Pos.compare_cont Eq mb ma = CompOpp (Pos.compare_cont Eq ma mb))
    by (rewrite Pos.compare_cont_antisym; reflexivity).
  rewrite (Z.compare_antisym ea eb), Hm.
  destruct sa, sb; try reflexivity;
    destruct (ea ?= eb)%Z; simpl; try reflexivity;
    destruct (Pos.compare_cont Eq ma mb); reflexivity.
Qed.

Lemma SFcompare_None (a b : spec_float) :
  a <> S754_nan -> b <> S754_nan -> SFcompare a b <> None.
Proof.
  destruct a as [sa|sa| |sa ma ea], b as [sb|sb| |sb mb eb]; simpl; intros Ha Hb;
    try congruence; try (destruct sa; discriminate); try (destruct sb; discriminate);
    destruct sa, sb; discriminate.
Qed.

Lemma SFcompare_refl (a : spec_float) : a <> S754_nan -> SFcompare a a = Some Eq.
Proof.
  destruct a as [sa|sa| |sa ma ea]; simpl; intros Ha; try congruence.
  - destruct sa; reflexivity.
  - rewrite Z.compare_refl.
    change (PosDef.Pos.compare_cont Eq ma ma) with (Pos.compare ma ma).
    rewrite Pos.compare_refl. destruct sa; reflexivity.
Qed.

Lemma Prim2SF_not_nan (x : float) : is_nan x = false -> Prim2SF x <> S754_nan.
Proof.
  intros Hn. unfold Prim2SF. rewrite Hn.
  destruct (is_zero x); [discriminate|].
  destruct (is_infinity x); [discriminate|].
  destruct (Z.frexp x) as [r e].
  destruct (shr_fexp prec emax (Uint63Axioms.to_Z (normfr_mantissa r)) (e - prec) loc_Exact)
    as [shr e'].
  destruct (shr_m shr); discriminate.
Qed.

Lemma max2_spec (a b : float) :
  is_nan a = false -> is_nan b = false ->
  (max2 a b = a \/ max2 a b = b)
  /\ (a <=? max2 a b)%float = true /\ (b <=? max2 a b)%float = true.
Proof.
  intros Ha Hb. unfold max2. rewrite Ha, Hb. simpl.
  pose proof (Prim2SF_not_nan a Ha) as Na. pose proof (Prim2SF_not_nan b Hb) as Nb.
  pose proof (SFcompare_None _ _ Na Nb) as Hab.
  pose proof (SFcompare_antisym (Prim2SF a) (Prim2SF b)) as Hba.
  pose proof (SFcompare_refl _ Na) as Haa. pose proof (SFcompare_refl _ Nb) as Hbb.
  rewrite !ltb_spec. unfold SFltb.
  destruct (SFcompare (Prim2SF a) (Prim2SF b)) as [[| |]|] eqn:Hc;
    simpl in Hba; try congruence; rewrite ?Hba; cbv iota.
  - destruct (get_sign a); (split; [auto|]); rewrite !leb_spec; unfold SFleb;
      rewrite ?Haa, ?Hbb, ?Hc, ?Hba; split; reflexivity.
  - split; [auto|]. rewrite !leb_spec. unfold SFleb. rewrite Hbb, Hc. split; reflexivity.
  - split; [auto|]. rewrite !leb_spec. unfold SFleb. rewrite Haa, Hba. split; reflexivity.
Qed.

Lemma fold_max2_spec (l : list float) :
  forall init : float,
    is_nan init = false -> (forall x, In x l -> is_nan x = false) ->
    let r := fold_left max2 l init in
    is_nan r = false
    /\ (init <=? r)%float = true
    /\ (forall x, In x l -> (x <=? r)%float = true)
    /\ (r = init \/ In r l).
Proof.
  induction l as [|y l IH]; intros init Hi Hl; simpl.
  - split; [exact Hi|]. split.
    + rewrite leb_spec. unfold SFleb.
      rewrite (SFcompare_refl _ (Prim2SF_not_nan init Hi)). reflexivity.
    + split; [intros x [] | left; reflexivity].
  - assert (Hy : is_nan y = false) by (apply Hl; left; reflexivity).
    destruct (max2_spec init y Hi Hy) as [Hsel [Hle1 Hle2]].
    assert (Hm : is_nan (max2 init y) = false)
      by (destruct Hsel as [->| ->]; assumption).
    destruct (IH (max2 init y) Hm (fun x Hx => Hl x (or_intror Hx)))
      as [Hr [Hle [Hall Hin]]].
    split; [exact Hr|]. split; [exact (leb_trans _ _ _ Hle1 Hle)|]. split.
    + intros x [<-|Hx]; [exact (leb_trans _ _ _ Hle2 Hle) | apply Hall; exact Hx].
    + destruct Hin as [Hin|Hin]; [|right; right; exact Hin].
      rewrite Hin. destruct Hsel as [->| ->]; [left; reflexivity | right; left; reflexivity].
Qed.

(** ** The applicants of a report, continued *)

Lemma filter_map_comm {A B : Type} (p : B -> bool) (f : A -> B) (l : list A) :
  filter p (map f l) = map f (filter (fun a => p (f a)) l).
Proof.
  induction l as [|a l IH]; simpl; [reflexivity|].
  rewrite IH. destruct (p (f a)); reflexivity.
Qed.

Lemma concat_mapi_filter (p : Sim -> bool) (entries : list Entry) :
  forall k,
    List.concat
      (JsArray.mapi_from
         (fun entry entryIndex =>
            map (mkMatch entryIndex) (filter p (similarTrademarksOf entry))) k entries)
    = filter (fun m => p (match_sim m))
        (List.concat
           (JsArray.mapi_from
              (fun entry entryIndex => map (mkMatch entryIndex) (similarTrademarksOf entry))
              k entries)).
Proof.
  induction entries as [|en entries IH]; intros k; simpl; [reflexivity|].
  rewrite filter_app, IH, filter_map_comm. reflexivity.
Qed.

Lemma filter_filter {A : Type} (p q : A -> bool) (l : list A) :
  filter p (filter q l) = filter (fun a => q a && p a) l.
Proof.
  induction l as [|a l IH]; simpl; [reflexivity|].
  destruct (q a); simpl; rewrite IH; reflexivity.
Qed.

Lemma matchesApplicant_countedUnder (name : string) (m : Match) :
  JsString.trim name = name -> name <> "" ->
  matchesApplicant name (match_sim m)
  = countedUnder name m
    && (Score.minThresholdDefault <=? normalizedScoreOf m)%float.
Proof.
  intros Ht Hne. unfold matchesApplicant, countedUnder, normalizedScoreOf.
  destruct (JsField.value (SimilarTrademark.applicant_name (match_sim m))) as [n|]; [|reflexivity].
  rewrite Ht. destruct (String.eqb n ""); [reflexivity|]. simpl.
  destruct (String.eqb_spec (JsString.trim n) name) as [->|Hn]; simpl.
  - destruct (String.eqb_spec name ""); [contradiction | reflexivity].
  - rewrite andb_false_r. reflexivity.
Qed.

Lemma countedUnder_name (name : string) (m : Match) :
  countedUnder name m = true -> JsString.trim name = name /\ name <> "".
Proof.
  unfold countedUnder.
  destruct (JsField.value (SimilarTrademark.applicant_name (match_sim m))) as [n|]; [|discriminate].
  intros H. apply andb_true_iff in H. destruct H as [H Hn].
  apply andb_true_iff in H. destruct H as [_ Hb].
  apply String.eqb_eq in Hn. subst name. split; [apply trim_idempotent|].
  intros He. rewrite He in Hb. discriminate.
Qed.

Lemma uniqueApplicant_data (entries : list Entry) (a : UniqueApplicant) :
  In a (getUniqueApplicants entries)
  <-> dataOf (filter (countedUnder (ua_name a)) (allMatches entries))
      = Some {| data_count := ua_matchCount a;
                data_highestScore := ua_highestScore a;
                data_matches := ua_matches a |}.
Proof.
  destruct (applicantMap_invariant entries) as [Hnd Hget].
  unfold getUniqueApplicants. split.
  - intros H. apply (Permutation_in _ (stableSort_Permutation _ _)) in H.
    apply in_map_iff in H. destruct H as [[name d] [<- Hin]]. simpl.
    rewrite <- Hget. rewrite (get_In String.eqb String.eqb_eq _ _ _ Hnd Hin).
    destruct d; reflexivity.
  - intros H. apply (Permutation_in _ (Permutation_sym (stableSort_Permutation _ _))).
    apply in_map_iff. rewrite <- Hget in H.
    apply (In_get String.eqb String.eqb_eq) in H.
    eexists. split; [|exact H]. destruct a; reflexivity.
Qed.

(** X8.  [getUniqueApplicants] lists every applicant name once; a name
    is listed exactly when some match of the report carries it (a name
    that is not empty and not blank, compared after trimming); the
    listed name is trimmed and not empty; the matches kept with it are
    all matches of the report with that name, in document order; the
    count is the number of these matches; and when none of their
    normalized scores is [NaN], the highest score is the normalized
    score of one of them and no normalized score of them exceeds it. *)
Theorem unique_applicants_exact :
  forall entries : list Entry,
    NoDup (map ua_name (getUniqueApplicants entries))
    /\ (forall a, In a (getUniqueApplicants entries) ->
          ua_name a <> "" /\ JsString.trim (ua_name a) = ua_name a
          /\ ua_matches a = filter (countedUnder (ua_name a)) (allMatches entries)
          /\ ua_matches a <> []
          /\ ua_matchCount a = List.length (ua_matches a)
          /\ ((forall m, In m (ua_matches a) -> is_nan (normalizedScoreOf m) = false) ->
              (exists m, In m (ua_matches a) /\ normalizedScoreOf m = ua_highestScore a)
              /\ forall m, In m (ua_matches a) ->
                   (normalizedScoreOf m <=? ua_highestScore a)%float = true))
    /\ (forall name m, In m (allMatches entries) -> countedUnder name m = true ->
          exists a, In a (getUniqueApplicants entries) /\ ua_name a = name).
Proof.
  intros entries. split; [|split].
  - destruct (applicantMap_invariant entries) as [Hnd _].
    unfold getUniqueApplicants.
    eapply Permutation_NoDup;
      [apply Permutation_sym; apply Permutation_map; apply stableSort_Permutation|].
    rewrite map_map. simpl. exact Hnd.
  - intros a Ha. apply uniqueApplicant_data in Ha.
    destruct (filter (countedUnder (ua_name a)) (allMatches entries)) as [|m0 ms] eqn:Hf;
      [discriminate|].
    assert (Hm0 : countedUnder (ua_name a) m0 = true).
    { assert (Hin : In m0 (filter (countedUnder (ua_name a)) (allMatches entries)))
        by (rewrite Hf; left; reflexivity).
      apply filter_In in Hin. apply Hin. }
    destruct (countedUnder_name _ _ Hm0) as [Ht Hne].
    unfold dataOf in Ha. injection Ha as Hc Hh Hmatches.
    split; [exact Hne|]. split; [exact Ht|]. rewrite <- Hmatches.
    split; [reflexivity|]. split; [discriminate|]. split; [symmetry; exact Hc|].
    intros Hnan.
    destruct (fold_max2_spec (map normalizedScoreOf (m0 :: ms)) (normalizedScoreOf m0))
      as [_ [_ [Hall Hin]]].
    { apply Hnan. left. reflexivity. }
    { intros x Hx. apply in_map_iff in Hx. destruct Hx as [m [<- Hm]]. apply Hnan. exact Hm. }
    assert (Hh' : fold_left max2 (map normalizedScoreOf (m0 :: ms)) (normalizedScoreOf m0)
                  = ua_highestScore a) by exact Hh.
    cbv zeta in Hall, Hin. rewrite Hh' in Hall, Hin. split.
    + destruct Hin as [Hin|Hin].
      * exists m0. split; [left; reflexivity | symmetry; exact Hin].
      * apply in_map_iff in Hin. destruct Hin as [m [Hm Hin]]. exists m. split; assumption.
    + intros m Hm. apply Hall. apply in_map. exact Hm.
  - intros name m Hin Hc.
    assert (Hf : In m (filter (countedUnder name) (allMatches entries)))
      by (apply filter_In; split; assumption).
    destruct (dataOf (filter (countedUnder name) (allMatches entries))) as [d|] eqn:Hd.
    + exists {| ua_name := name; ua_matchCount := data_count d;
                ua_highestScore := data_highestScore d; ua_matches := data_matches d |}.
      split; [|reflexivity]. apply uniqueApplicant_data. simpl. rewrite Hd.
      destruct d; reflexivity.
    + unfold dataOf in Hd.
      destruct (filter (countedUnder name) (allMatches entries)); [contradiction | discriminate].
Qed.

Lemma unique_applicants_exact_witness :
  exists a, In a (getUniqueApplicants [Sample.tiger]) /\ ua_name a = "Acme Corp".
Proof.
  destruct (unique_applicants_exact [Sample.tiger]) as (_ & _ & H).
  apply (H "Acme Corp" (mkMatch 0 Sample.tyger)); [left; reflexivity | reflexivity].
Defined.

(** X9.  Opening the view of an applicant taken from the applicant list
    shows the matches kept for that applicant whose normalized score is
    0.3 or more, in descending order of normalized score; so the view
    never shows more matches than the count given in the list. *)
Theorem listed_applicant_view :
  forall (entries : list Entry) (a : UniqueApplicant),
    In a (getUniqueApplicants entries) ->
    getFilteredMatchesByApplicant (ua_name a) entries
    = sortByScoreDesc
        (filter (fun m => (Score.minThresholdDefault <=? normalizedScoreOf m)%float)
                (ua_matches a))
    /\ List.length (getFilteredMatchesByApplicant (ua_name a) entries) <= ua_matchCount a.
Proof.
  intros entries a Ha. apply uniqueApplicant_data in Ha.
  destruct (filter (countedUnder (ua_name a)) (allMatches entries)) as [|m0 ms] eqn:Hf;
    [discriminate|].
  assert (Hm0 : countedUnder (ua_name a) m0 = true).
  { assert (Hin : In m0 (filter (countedUnder (ua_name a)) (allMatches entries)))
      by (rewrite Hf; left; reflexivity).
    apply filter_In in Hin. apply Hin. }
  destruct (countedUnder_name _ _ Hm0) as [Ht Hne].
  unfold dataOf in Ha. injection Ha as Hc Hh Hmatches.
  assert (Heq : getFilteredMatchesByApplicant (ua_name a) entries
                = sortByScoreDesc
                    (filter (fun m => (Score.minThresholdDefault <=? normalizedScoreOf m)%float)
                            (ua_matches a))).
  { unfold getFilteredMatchesByApplicant, JsArray.mapi. rewrite concat_mapi_filter.
    rewrite <- Hmatches, <- Hf, filter_filter. f_equal.
    apply filter_ext. intros m. apply matchesApplicant_countedUnder; assumption. }
  split; [exact Heq|]. rewrite Heq, sortByScoreDesc_stableSort.
  rewrite (Permutation_length (stableSort_Permutation _ _)).
  rewrite <- Hc, <- Hmatches. apply filter_length_le.
Qed.

Lemma listed_applicant_view_witness :
  List.length (getFilteredMatchesByApplicant "Acme Corp" [Sample.tiger]) <= 1.
Proof.
  refine (proj2 (listed_applicant_view [Sample.tiger]
                   {| ua_name := "Acme Corp"; ua_matchCount := 1;
                      ua_highestScore := 0x1.b333333333333p-1;
                      ua_matches := [mkMatch 0 Sample.tyger] |} _)).
  vm_compute. left. reflexivity.
Defined.

(** ** The entries of the attention banner *)

Lemma filter_length_mono {A : Type} (p q : A -> bool) (l : list A) :
  (forall x, In x l -> p x = true -> q x = true) ->
  List.length (filter p l) <= List.length (filter q l).
Proof.
  induction l as [|x l IH]; intros H; simpl; [lia|].
  assert (IH' : List.length (filter p l) <= List.length (filter q l))
    by (apply IH; intros y Hy; apply H; right; exact Hy).
  destruct (p x) eqn:Hp.
  - rewrite (H x (or_introl eq_refl) Hp). simpl. lia.
  - destruct (q x); simpl; lia.
Qed.

Lemma length_filter_mapi_from {A B : Type} (f : A -> nat -> B) (q : B -> bool)
    (q' : A -> bool) (l : list A) :
  (forall a i, q (f a i) = q' a) ->
  forall k, List.length (filter q (JsArray.mapi_from f k l)) = List.length (filter q' l).
Proof.
  intros H. induction l as [|a l IH]; intros k; simpl; [reflexivity|].
  rewrite H. destruct (q' a); simpl; rewrite IH; reflexivity.
Qed.

Lemma high_passes_default (s : Sim) :
  (highThresholdDefault <=? Score.normalize (SimilarTrademark.similarity_score s))%float = true ->
  (Score.minThresholdDefault <=? Score.normalize (SimilarTrademark.similarity_score s))%float
  = true.
Proof. apply leb_trans. reflexivity. Qed.

(** X10.  An entry is counted by the attention banner exactly when it
    is an entry of the report with a match of normalized score 0.8 or
    more.  Every such entry is shown in the list of entries, with that
    match among the visible ones, so the banner never counts more
    entries than the list shows. *)
Theorem high_similarity_entries_are_shown :
  forall (entries : list Entry) (entry : Entry),
    (In entry (getHighSimilarityEntries entries highThresholdDefault)
     <-> In entry entries
         /\ exists sim,
              In sim (similarTrademarksOf entry)
              /\ (highThresholdDefault
                  <=? Score.normalize (SimilarTrademark.similarity_score sim))%float = true)
    /\ (In entry (getHighSimilarityEntries entries highThresholdDefault) ->
        exists item sim,
          In item (entriesWithMatches entries) /\ ewm_entry item = entry
          /\ In sim (ewm_filtered item)
          /\ (highThresholdDefault
              <=? Score.normalize (SimilarTrademark.similarity_score sim))%float = true)
    /\ List.length (getHighSimilarityEntries entries highThresholdDefault)
       <= List.length (entriesWithMatches entries).
Proof.
  intros entries entry.
  assert (Hmem : In entry (getHighSimilarityEntries entries highThresholdDefault)
                 <-> In entry entries
                     /\ exists sim,
                          In sim (similarTrademarksOf entry)
                          /\ (highThresholdDefault
                              <=? Score.normalize (SimilarTrademark.similarity_score sim))%float
                             = true).
  { unfold getHighSimilarityEntries. rewrite filter_In, existsb_exists. reflexivity. }
  split; [exact Hmem|]. split.
  - intros H. apply Hmem in H. destruct H as [Hin [sim [Hs Hhigh]]].
    apply In_nth_error in Hin. destruct Hin as [i Hi].
    assert (Hf : In sim (getFilteredSimilarTrademarks (similarTrademarksOf entry)
                           Score.minThresholdDefault)).
    { unfold getFilteredSimilarTrademarks. apply filter_In.
      split; [exact Hs | apply high_passes_default; exact Hhigh]. }
    exists (mkEntryWithMatches i entry
              (getFilteredSimilarTrademarks (similarTrademarksOf entry)
                 Score.minThresholdDefault)), sim.
    split; [|split; [reflexivity | split; [exact Hf | exact Hhigh]]].
    apply entriesWithMatches_In. simpl. split; [exact Hi|]. split; [reflexivity|].
    intros He. rewrite He in Hf. exact Hf.
  - unfold entriesWithMatches.
    rewrite (Permutation_length (stableSort_Permutation _ _)).
    unfold JsArray.mapi.
    rewrite (length_filter_mapi_from _ _
               (fun en => negb (List.length
                                  (getFilteredSimilarTrademarks (similarTrademarksOf en)
                                     Score.minThresholdDefault) =? 0)%nat))
      by (intros; reflexivity).
    unfold getHighSimilarityEntries. apply filter_length_mono.
    intros en _ Hex. apply existsb_exists in Hex. destruct Hex as [sim [Hs Hhigh]].
    assert (Hf : In sim (getFilteredSimilarTrademarks (similarTrademarksOf en)
                           Score.minThresholdDefault)).
    { unfold getFilteredSimilarTrademarks. apply filter_In.
      split; [exact Hs | apply high_passes_default; exact Hhigh]. }
    destruct (getFilteredSimilarTrademarks (similarTrademarksOf en) Score.minThresholdDefault);
      [contradiction | reflexivity].
Qed.

Lemma high_similarity_entries_are_shown_witness :
  exists item sim,
    In item (entriesWithMatches [Sample.tiger]) /\ ewm_entry item = Sample.tiger
    /\ In sim (ewm_filtered item)
    /\ (highThresholdDefault
        <=? Score.normalize (SimilarTrademark.similarity_score sim))%float = true.
Proof.
  destruct (high_similarity_entries_are_shown [Sample.tiger] Sample.tiger) as (_ & H & _).
  apply H. vm_compute. left. reflexivity.
Defined.

(** ** Substrings *)

Lemma prefix_app (p a b : string) :
  String.prefix p a = true -> String.prefix p (a ++ b) = true.
Proof.
  revert a. induction p as [|c p IH]; intros a H;
    [destruct a; [destruct b|]; reflexivity|].
  destruct a as [|c' a]; simpl in *; [discriminate|].
  destruct (Ascii.ascii_dec c c'); [apply IH; exact H | discriminate].
Qed.

Lemma prefix_self_app (p b : string) : String.prefix p (p ++ b) = true.
Proof.
  induction p as [|c p IH]; simpl; [destruct b; reflexivity|].
  destruct (Ascii.ascii_dec c c); [exact IH | contradiction].
Qed.

Lemma includes_unfold (x hay : string) :
  JsString.includes x hay
  = if String.prefix x hay then true
    else match hay with
         | EmptyString => false
         | String _ r => JsString.includes x r
         end.
Proof. destruct hay; reflexivity. Qed.

Lemma includes_app_r (x a b : string) :
  JsString.includes x b = true -> JsString.includes x (a ++ b) = true.
Proof.
  intros H. induction a as [|c a IH]; [exact H|].
  rewrite includes_unfold. cbn [append].
  destruct (String.prefix x (String c (a ++ b))); [reflexivity | exact IH].
Qed.

Lemma includes_app_l (x a b : string) :
  JsString.includes x a = true -> JsString.includes x (a ++ b) = true.
Proof.
  induction a as [|c a IH]; intros H.
  - rewrite includes_unfold in H. destruct x; [|discriminate H].
    rewrite includes_unfold. destruct b; reflexivity.
  - rewrite includes_unfold in H. rewrite includes_unfold. cbn [append].
    destruct (String.prefix x (String c a)) eqn:Hp.
    + change (String c (a ++ b)) with (String c a ++ b).
      rewrite (prefix_app _ _ b Hp). reflexivity.
    + destruct (String.prefix x (String c (a ++ b))); [reflexivity | apply IH; exact H].
Qed.

Lemma prefix_refl (x : string) : String.prefix x x = true.
Proof.
  induction x as [|c x IH]; simpl; [reflexivity|].
  destruct (Ascii.ascii_dec c c); [exact IH | contradiction].
Qed.

Lemma includes_self (x : string) : JsString.includes x x = true.
Proof. rewrite includes_unfold, prefix_refl. reflexivity. Qed.

Lemma includes_concat (x y : string) (l : list string) :
  In y l -> JsString.includes x y = true ->
  JsString.includes x (String.concat "" l) = true.
Proof.
  intros Hin Hx. induction l as [|a l IH]; [contradiction|].
  destruct l as [|b l].
  - destruct Hin as [->|[]]. exact Hx.
  - change (String.concat "" (a :: b :: l)) with (a ++ String.concat "" (b :: l)).
    destruct Hin as [->|Hin].
    + apply includes_app_l. exact Hx.
    + apply includes_app_r. apply IH. exact Hin.
Qed.

(** ** The notice of an applicant lists the selected matches *)

Ltac skip_to_concat :=
  repeat lazymatch goal with
         | |- JsString.includes _ (String.concat _ _ ++ _) = true => fail
         | |- JsString.includes _ (_ ++ _) = true => apply includes_app_r
         end.

Lemma entrySection_includes (mondayDate : string) (len i : nat) (g : EntryGroup) (s : Sim) :
  In s (similarTrademarks g) ->
  JsString.includes (similarTrademarkLines s) (entrySection mondayDate len i g) = true.
Proof.
  intros Hs. unfold entrySection. cbv zeta. skip_to_concat.
  apply includes_app_l.
  apply (includes_concat _ (similarTrademarkLines s)); [|apply includes_self].
  apply in_map. exact Hs.
Qed.

Lemma template_includes (offset : Z) (name : string) (es : ApplicantEntries)
    (mondayDate : string) (ie : nat * EntryGroup) (s : Sim) :
  In ie es -> In s (similarTrademarks (snd ie)) ->
  JsString.includes (similarTrademarkLines s)
    (generateEmailTemplate offset name es mondayDate) = true.
Proof.
  intros Hie Hs. unfold generateEmailTemplate. cbv zeta.
  do 5 apply includes_app_l. apply includes_app_r.
  apply In_nth_error in Hie. destruct Hie as [i Hi].
  apply (includes_concat _ (entrySection mondayDate (List.length es) i (snd ie)));
    [|apply entrySection_includes; exact Hs].
  unfold JsArray.mapi. apply in_mapi_from. exists i, ie. split; [exact Hi | reflexivity].
Qed.

(** X11.  The template page shows one notice for each applicant name
    (no name twice), and every selected match has its two lines
    ("Trademark: ..." and "Class: ...") in the notice of its own
    applicant, the one named by the grouping key of the match. *)
Theorem notice_lists_every_selected_match :
  forall (localOffsetMinutes : Z) (selectedTrademarks : list SelectedTrademark)
         (monday_date : string),
    let notices :=
      templatesOf localOffsetMinutes (groupsOf (groupByApplicant selectedTrademarks))
        monday_date in
    NoDup (map fst notices)
    /\ forall t, In t selectedTrademarks ->
         exists template,
           In (applicantKey (sim t), template) notices
           /\ JsString.includes (similarTrademarkLines (sim t)) template = true.
Proof.
  intros offset l monday notices.
  destruct (groupByApplicant_spec l) as [[Hnd _] Hperm]. split.
  - unfold notices, templatesOf, groupsOf. rewrite !map_map. simpl. exact Hnd.
  - intros t Ht.
    assert (Hin : In (placeOf t) (membersOfGrouped (groupByApplicant l))).
    { apply (Permutation_in _ (Permutation_sym Hperm)). apply in_map. exact Ht. }
    unfold membersOfGrouped in Hin. apply in_flat_map in Hin.
    destruct Hin as [ne [Hne Hin]]. unfold membersOfEntries in Hin.
    apply in_flat_map in Hin. destruct Hin as [ie [Hie Hin]].
    apply in_map_iff in Hin. destruct Hin as [s [Heq Hs]].
    unfold placeOf in Heq. injection Heq as Hname _ Hsim. subst s.
    exists (generateEmailTemplate offset (fst ne) (snd ne) monday). split.
    + unfold notices, templatesOf, groupsOf. rewrite map_map. simpl.
      apply in_map_iff. exists ne. split; [|exact Hne]. rewrite Hname. reflexivity.
    + apply (template_includes offset _ _ _ ie); assumption.
Qed.

Lemma notice_lists_every_selected_match_witness :
  exists template,
    In ("Acme Corp", template)
       (templatesOf 330 (groupsOf (groupByApplicant [Sample.selectedOf 0 (JsField.text "Acme Corp")]))
          "2025-01-06")
    /\ JsString.includes
         (similarTrademarkLines (Sample.withApplicant (JsField.text "Acme Corp"))) template = true.
Proof.
  destruct (notice_lists_every_selected_match 330
              [Sample.selectedOf 0 (JsField.text "Acme Corp")] "2025-01-06") as [_ H].
  apply (H (Sample.selectedOf 0 (JsField.text "Acme Corp"))). left. reflexivity.
Defined.

(** ** The source name shown in a notice *)

Lemma underscoresToSpaces_clean (s : string) :
  JsString.allChars notUnderscore (underscoresToSpaces s) = true.
Proof.
  induction s as [|c s IH]; simpl; [reflexivity|]. rewrite IH, andb_true_r.
  unfold notUnderscore. destruct (Ascii.eqb c "_") eqn:E; [reflexivity|].
  rewrite E. reflexivity.
Qed.

Lemma collapseSpacesFrom_allChars (p : ascii -> bool) (s : string) :
  p " "%char = true -> JsString.allChars p s = true ->
  forall inRun, JsString.allChars p (collapseSpacesFrom inRun s) = true.
Proof.
  intros Hsp. induction s as [|c s IH]; simpl; intros H inRun; [reflexivity|].
  apply andb_true_iff in H. destruct H as [Hc Hs].
  destruct (JsString.isWhiteSpace c); [destruct inRun|]; simpl;
    rewrite ?Hsp, ?Hc, (IH Hs); reflexivity.
Qed.

Lemma collapseSpacesFrom_spaceIfWhite (s : string) :
  forall inRun, JsString.allChars spaceIfWhite (collapseSpacesFrom inRun s) = true.
Proof.
  induction s as [|c s IH]; simpl; intros inRun; [reflexivity|].
  destruct (JsString.isWhiteSpace c) eqn:Hc; [destruct inRun|]; simpl; rewrite ?IH;
    try reflexivity.
  unfold spaceIfWhite. rewrite Hc. reflexivity.
Qed.

Lemma collapseSpacesFrom_noAdjacent (s : string) :
  forall inRun,
    noAdjacentSpaces (collapseSpacesFrom inRun s) = true
    /\ (inRun = true ->
        forall c, JsString.firstChar (collapseSpacesFrom inRun s) = Some c ->
                  JsString.isWhiteSpace c = false).
Proof.
  induction s as [|c s IH]; intros inRun.
  - split; [reflexivity | intros _ c [=]].
  - cbn [collapseSpacesFrom]. destruct (JsString.isWhiteSpace c) eqn:Hc.
    + destruct inRun.
      * apply IH.
      * destruct (IH true) as [Hn Hf]. split; [|discriminate].
        cbn [noAdjacentSpaces]. rewrite Hn, andb_true_r.
        destruct (collapseSpacesFrom true s) as [|b r] eqn:Hr; [reflexivity|].
        rewrite (Hf eq_refl b eq_refl), andb_false_r. reflexivity.
    + destruct (IH false) as [Hn _]. split.
      * cbn [noAdjacentSpaces]. rewrite Hn, Hc, andb_true_r.
        destruct (collapseSpacesFrom false s); reflexivity.
      * intros _ c' [= <-]. exact Hc.
Qed.

Lemma noAdjacentSpaces_app_r (a b : string) :
  noAdjacentSpaces (a ++ b) = true -> noAdjacentSpaces b = true.
Proof.
  induction a as [|c a IH]; [auto|]. cbn [append noAdjacentSpaces].
  intros H. apply andb_true_iff in H. apply IH. apply H.
Qed.

Lemma noAdjacentSpaces_app_l (a b : string) :
  noAdjacentSpaces (a ++ b) = true -> noAdjacentSpaces a = true.
Proof.
  induction a as [|c a IH]; [reflexivity|]. cbn [append noAdjacentSpaces].
  intros H. apply andb_true_iff in H. destruct H as [Hh Ht].
  rewrite (IH Ht), andb_true_r.
  destruct a as [|d a]; [reflexivity | exact Hh].
Qed.

Lemma formatPdfSource_unfold (c : ascii) (r : string) :
  formatPdfSource (Some (String c r))
  = JsString.trim (collapseSpaces (underscoresToSpaces (removePdfExtension (String c r)))).
Proof. reflexivity. Qed.

(** X12.  The source name written in a notice is "N/A" when the entry
    has no source or an empty one.  Otherwise it has no underscore, its
    only white space is the space, no two spaces follow each other, and
    it neither begins nor ends with white space. *)
Theorem formatPdfSource_is_tidy :
  formatPdfSource None = "N/A"
  /\ formatPdfSource (Some "") = "N/A"
  /\ forall pdfSource : string,
       pdfSource <> "" ->
       let shown := formatPdfSource (Some pdfSource) in
       JsString.allChars notUnderscore shown = true
       /\ JsString.allChars spaceIfWhite shown = true
       /\ noAdjacentSpaces shown = true
       /\ (forall c, JsString.firstChar shown = Some c -> JsString.isWhiteSpace c = false)
       /\ (forall c, JsString.lastChar shown = Some c -> JsString.isWhiteSpace c = false).
Proof.
  split; [reflexivity|]. split; [reflexivity|].
  intros pdfSource Hne shown. destruct pdfSource as [|c r]; [contradiction|].
  unfold shown. rewrite formatPdfSource_unfold.
  set (u := underscoresToSpaces (removePdfExtension (String c r))).
  destruct (trim_spec (collapseSpaces u)) as [pre [suf [Hs [_ [_ [Hfirst Hlast]]]]]].
  assert (H1 : JsString.allChars notUnderscore (collapseSpaces u) = true)
    by (apply collapseSpacesFrom_allChars;
        [reflexivity | apply underscoresToSpaces_clean]).
  assert (H2 : JsString.allChars spaceIfWhite (collapseSpaces u) = true)
    by apply collapseSpacesFrom_spaceIfWhite.
  assert (H3 : noAdjacentSpaces (collapseSpaces u) = true)
    by apply collapseSpacesFrom_noAdjacent.
  rewrite Hs in H1, H2, H3. rewrite !allChars_app in H1, H2.
  apply andb_true_iff in H1, H2.
  destruct H1 as [_ H1]. destruct H2 as [_ H2].
  apply andb_true_iff in H1, H2.
  apply noAdjacentSpaces_app_r, noAdjacentSpaces_app_l in H3.
  repeat split; try assumption; [apply H1 | apply H2].
Qed.

Lemma formatPdfSource_is_tidy_witness :
  noAdjacentSpaces (formatPdfSource (Some "Journal_2237__Class25.PDF")) = true.
Proof.
  destruct formatPdfSource_is_tidy as (_ & _ & H).
  destruct (H "Journal_2237__Class25.PDF") as (_ & _ & Hn & _); [discriminate|].
  exact Hn.
Defined.

(** ** The journal number *)

Lemma matchJournalNumber_unfold (pdfSource : string) :
  matchJournalNumber pdfSource
  = match (if String.prefix "Journal_" pdfSource
           then takeDigits (JsString.substringFrom 8 pdfSource) else "") with
    | String c ds => Some (String c ds)
    | EmptyString =>
        match pdfSource with
        | EmptyString => None
        | String _ r => matchJournalNumber r
        end
    end.
Proof. destruct pdfSource; reflexivity. Qed.

Lemma takeDigits_spec (s : string) :
  exists rest,
    s = takeDigits s ++ rest
    /\ JsString.allChars JsString.isDigit (takeDigits s) = true
    /\ forall c, JsString.firstChar rest = Some c -> JsString.isDigit c = false.
Proof.
  induction s as [|c s IH]; simpl.
  - exists "". repeat split. intros c [=].
  - destruct (JsString.isDigit c) eqn:Hc.
    + destruct IH as [rest [Hs [Hd Hf]]]. exists rest. simpl. rewrite Hc, Hd.
      repeat split; [f_equal; exact Hs | exact Hf].
    + exists (String c s). repeat split. simpl. intros c' [= <-]. exact Hc.
Qed.

Lemma prefix_split (p s : string) :
  String.prefix p s = true -> s = p ++ JsString.substringFrom (String.length p) s.
Proof.
  revert s. induction p as [|c p IH]; intros s H; [destruct s; reflexivity|].
  destruct s as [|c' s]; simpl in H; [discriminate|].
  destruct (Ascii.ascii_dec c c') as [->|]; [|discriminate].
  simpl. f_equal. apply IH. exact H.
Qed.

(** X13.  The journal number taken from a source name is a non-empty
    run of decimal digits that stands in the name right after
    "Journal_" and is not followed by a further digit; and a number is
    found whenever the name holds "Journal_" followed by a digit. *)
Theorem matchJournalNumber_spec :
  forall pdfSource : string,
    (forall number, matchJournalNumber pdfSource = Some number ->
       number <> ""
       /\ JsString.allChars JsString.isDigit number = true
       /\ exists before rest,
            pdfSource = before ++ "Journal_" ++ number ++ rest
            /\ forall c, JsString.firstChar rest = Some c -> JsString.isDigit c = false)
    /\ (forall before d rest,
          pdfSource = before ++ "Journal_" ++ String d rest ->
          JsString.isDigit d = true ->
          exists number, matchJournalNumber pdfSource = Some number).
Proof.
  intros pdfSource. split.
  - induction pdfSource as [|c s IH]; intros number; rewrite matchJournalNumber_unfold.
    + simpl. discriminate.
    + destruct (String.prefix "Journal_" (String c s)) eqn:Hp.
      * destruct (takeDigits_spec (JsString.substringFrom 8 (String c s)))
          as [rest [Hs [Hd Hf]]].
        destruct (takeDigits (JsString.substringFrom 8 (String c s))) as [|d ds] eqn:Ht.
        -- intros H. destruct (IH number H) as [Hne [Hdig [before [rest' [Heq Hr]]]]].
           split; [exact Hne|]. split; [exact Hdig|].
           exists (String c before), rest'. split; [|exact Hr].
           simpl. f_equal. exact Heq.
        -- intros [= <-]. split; [discriminate|]. split; [exact Hd|].
           exists "", rest. split; [|exact Hf].
           rewrite (prefix_split _ _ Hp) at 1. cbn [String.length append].
           change (String "J" (String "o" (String "u" (String "r" (String "n" (String "a"
                     (String "l" (String "_" (JsString.substringFrom 8 (String c s))))))))))
             with ("Journal_" ++ JsString.substringFrom 8 (String c s)).
           rewrite Hs at 1. reflexivity.
      * intros H. destruct (IH number H) as [Hne [Hdig [before [rest' [Heq Hr]]]]].
        split; [exact Hne|]. split; [exact Hdig|].
        exists (String c before), rest'. split; [|exact Hr].
        simpl. f_equal. exact Heq.
  - intros before d rest -> Hd. induction before as [|c before IH].
    + rewrite matchJournalNumber_unfold.
      change ("" ++ "Journal_" ++ String d rest) with ("Journal_" ++ String d rest).
      rewrite prefix_self_app.
      change (JsString.substringFrom 8 ("Journal_" ++ String d rest)) with (String d rest).
      simpl. rewrite Hd. eexists. reflexivity.
    + rewrite matchJournalNumber_unfold.
      destruct (if String.prefix "Journal_" (String c before ++ "Journal_" ++ String d rest)
                then takeDigits (JsString.substringFrom 8
                                   (String c before ++ "Journal_" ++ String d rest))
                else "") as [|x xs].
      * exact IH.
      * eexists. reflexivity.
Qed.

Lemma matchJournalNumber_spec_witness :
  exists number, matchJournalNumber "Trade_Journal_2237_Class25.pdf" = Some number.
Proof.
  destruct (matchJournalNumber_spec "Trade_Journal_2237_Class25.pdf") as [_ H].
  apply (H "Trade_" "2"%char "237_Class25.pdf"); reflexivity.
Defined.

(** ** From "generate" to the loaded template page *)

(** X14.  Pressing "generate" with a collected selection that is not
    empty and then opening the template page hands the selection over
    whatever the storage held before: the page reads what was just
    written (stale values under the two keys are gone), it gets the
    parsed selection and report without an error, it leaves the storage
    as "generate" wrote it, and every other key of the storage is as it
    was before "generate".  The serializer and the parser are
    parameters; the selection and the report are taken to serialize to
    texts that are not empty and that parse back, the selection to an
    array that is not empty and holds no [null] element (every element
    that "generate" serializes is an object). *)
Theorem generate_then_load_hands_over :
  forall (JSON_parse : string -> option Json)
         (stringifySelected : list SelectedTrademark -> string)
         (stringifyReport : option ReportData.t -> string)
         (storage : SessionStorage.t) (page : PageState) (authLoading : bool)
         (reportId : string) (reportData : option ReportData.t) (sel : JsSet.t)
         (t : Json) (ts : list Json) (report : Json),
    let selectedData := getSelectedTrademarksData reportData sel in
    let gen := handleGenerateTemplates stringifySelected stringifyReport
                 reportId reportData sel storage in
    let out := loadFromSessionStorage JSON_parse authLoading true (gen_storage gen) page in
    selectedData <> [] ->
    stringifySelected selectedData <> "" ->
    stringifyReport reportData <> "" ->
    JSON_parse (stringifySelected selectedData) = Some (JArray (t :: ts)) ->
    ~ In JNull (t :: ts) ->
    JSON_parse (stringifyReport reportData) = Some report ->
    gen_alert gen = None
    /\ gen_navigate gen = Some ("/app/report/" ++ reportId ++ "/email-templates")
    /\ page_selectedTrademarks (load_page out) = t :: ts
    /\ page_reportData (load_page out) = Some report
    /\ page_error (load_page out) = page_error page
    /\ load_navigate out = None
    /\ load_storage out = gen_storage gen
    /\ forall k, k <> "selectedTrademarks" -> k <> "reportData" ->
         SessionStorage.getItem k (gen_storage gen) = SessionStorage.getItem k storage.
Proof.
  intros JSON_parse stringifySelected stringifyReport storage page authLoading
         reportId reportData sel t ts report selectedData gen out
         Hne HsT HsR HpT Hnn HpR.
  assert (Hgen : gen_alert gen = None
                 /\ gen_navigate gen = Some ("/app/report/" ++ reportId ++ "/email-templates")
                 /\ gen_storage gen
                    = SessionStorage.setItem "reportData" (stringifyReport reportData)
                        (SessionStorage.setItem "selectedTrademarks"
                           (stringifySelected selectedData)
                           (SessionStorage.removeItem "reportData"
                              (SessionStorage.removeItem "selectedTrademarks" storage)))).
  { unfold gen, handleGenerateTemplates. fold selectedData.
    destruct selectedData; [contradiction | repeat split]. }
  destruct Hgen as [Ha [Hn Hst]].
  assert (HgT : SessionStorage.getItem "selectedTrademarks" (gen_storage gen)
                = Some (stringifySelected selectedData)).
  { rewrite Hst, getItem_setItem_other by discriminate. apply getItem_setItem_same. }
  assert (HgR : SessionStorage.getItem "reportData" (gen_storage gen)
                = Some (stringifyReport reportData)).
  { rewrite Hst. apply getItem_setItem_same. }
  assert (Hload : out
                  = {| load_storage := gen_storage gen;
                       load_page := {| page_selectedTrademarks := t :: ts;
                                       page_reportData := Some report;
                                       page_loading := page_loading page;
                                       page_error := page_error page |};
                       load_navigate := None |}).
  { unfold out, loadFromSessionStorage. rewrite andb_false_r. cbv zeta.
    rewrite HgT, HgR.
    destruct (String.eqb_spec (stringifySelected selectedData) ""); [contradiction|].
    destruct (String.eqb_spec (stringifyReport reportData) ""); [contradiction|].
    cbn [orb]. rewrite HpT, HpR, (noNull_In _ Hnn). reflexivity. }
  rewrite Hload. simpl. repeat split; try assumption.
  intros k Hk1 Hk2. rewrite Hst.
  rewrite getItem_setItem_other, getItem_setItem_other by assumption.
  rewrite getItem_removeItem_other, getItem_removeItem_other by assumption.
  reflexivity.
Qed.

Lemma generate_then_load_hands_over_witness :
  page_selectedTrademarks
    (load_page
       (loadFromSessionStorage Sample.JSON_parse false true
          (gen_storage
             (handleGenerateTemplates Sample.stringifySelected Sample.stringifyReport
                "r1" (Some Sample.report) (trademarkId 0 0 :: nil) Sample.storedCorrupted))
          initialPage))
  = [JObject []].
Proof.
  refine (proj1 (proj2 (proj2
            (generate_then_load_hands_over Sample.JSON_parse Sample.stringifySelected
               Sample.stringifyReport Sample.storedCorrupted initialPage false "r1"
               (Some Sample.report) (trademarkId 0 0 :: nil)
               (JObject []) [] (JObject []) _ _ _ eq_refl _ eq_refl))));
    try discriminate.
  intros [H|[]]. discriminate H.
Defined.

(** ** Days and calendar dates *)

Lemma allFrom_spec (p : Z -> bool) (n : nat) :
  forall start : Z,
    allFrom p n start = true ->
    forall z : Z, (start <= z < start + Z.of_nat n)%Z -> p z = true.
Proof.
  induction n as [|n IH]; intros start H z Hz; [lia|].
  cbn [allFrom] in H. apply andb_true_iff in H. destruct H as [H0 H1].
  destruct (Z.eq_dec z start) as [->|Hne]; [exact H0|].
  apply (IH (start + 1)%Z H1). lia.
Qed.

Section EraArithmetic.

Open Scope Z_scope.

(** The year of the era of a day, and the day of that year. *)
Lemma year_of_day (doe : Z) :
  0 <= doe < 146097 ->
  let yoe := (doe - doe / 1460 + doe / 36524 - doe / 146096) / 365 in
  let doy := doe - (365 * yoe + yoe / 4 - yoe / 100) in
  0 <= yoe < 400 /\ 0 <= doy <= 365
  /\ (doe < 365 * (yoe + 1) + (yoe + 1) / 4 - (yoe + 1) / 100 \/ yoe = 399).
Proof. intros H. cbv zeta. Z.div_mod_to_equations. lia. Qed.

(** The month (counted from March) and the day of the month of a day
    of the year. *)
Lemma month_of_day (doy : Z) :
  0 <= doy <= 365 ->
  let mp := (5 * doy + 2) / 153 in
  let d := doy - (153 * mp + 2) / 5 + 1 in
  0 <= mp <= 11 /\ 1 <= d <= 31 /\ (153 * mp + 2) / 5 + d - 1 = doy
  /\ doy < (153 * (mp + 1) + 2) / 5.
Proof. intros H. cbv zeta. Z.div_mod_to_equations. lia. Qed.

Lemma year_unique (yoe yoe' doe : Z) :
  0 <= yoe < 400 -> 0 <= yoe' < 400 ->
  365 * yoe + yoe / 4 - yoe / 100 <= doe <= 365 * yoe + yoe / 4 - yoe / 100 + 364 ->
  365 * yoe' + yoe' / 4 - yoe' / 100 <= doe ->
  (doe < 365 * (yoe' + 1) + (yoe' + 1) / 4 - (yoe' + 1) / 100 \/ yoe' = 399) ->
  yoe' = yoe.
Proof. intros. Z.div_mod_to_equations. lia. Qed.

Lemma month_unique (mp mp' d d' : Z) :
  0 <= mp <= 11 -> 0 <= mp' <= 11 -> 1 <= d <= 28 -> 1 <= d' ->
  (153 * mp + 2) / 5 + d - 1 = (153 * mp' + 2) / 5 + d' - 1 ->
  (153 * mp' + 2) / 5 + d' - 1 < (153 * (mp' + 1) + 2) / 5 ->
  mp' = mp /\ d' = d.
Proof. intros. Z.div_mod_to_equations. lia. Qed.

Lemma month_from_March (m : Z) :
  1 <= m <= 12 ->
  let mp := if 2 <? m then m - 3 else m + 9 in
  0 <= mp <= 11 /\ (if mp <? 10 then mp + 3 else mp - 9) = m.
Proof.
  intros Hm. cbv zeta. destruct (Z.ltb_spec 2 m).
  - split; [lia|]. destruct (Z.ltb_spec (m - 3) 10); lia.
  - split; [lia|]. destruct (Z.ltb_spec (m + 9) 10); lia.
Qed.

Lemma month_to_March (mp : Z) :
  0 <= mp <= 11 ->
  let m := if mp <? 10 then mp + 3 else mp - 9 in
  1 <= m <= 12 /\ (if 2 <? m then m - 3 else m + 9) = mp.
Proof.
  intros Hmp. cbv zeta. destruct (Z.ltb_spec mp 10).
  - split; [lia|]. destruct (Z.ltb_spec 2 (mp + 3)); lia.
  - split; [lia|]. destruct (Z.ltb_spec 2 (mp - 9)); lia.
Qed.

(** A day of the era names a date of the calendar that names it back. *)
Lemma civilOfDayOfEra_spec (doe : Z) :
  0 <= doe < 146097 ->
  exists yoe m d : Z,
    civilOfDayOfEra doe = (yoe, m, d)
    /\ 0 <= yoe < 400 /\ 1 <= m <= 12 /\ 1 <= d <= 31
    /\ dayOfEra yoe m d = doe.
Proof.
  intros Hdoe. unfold civilOfDayOfEra. cbv zeta.
  destruct (year_of_day doe Hdoe) as [Hyoe [Hdoy _]]. cbv zeta in Hyoe, Hdoy.
  set (yoe := (doe - doe / 1460 + doe / 36524 - doe / 146096) / 365) in *.
  set (doy := doe - (365 * yoe + yoe / 4 - yoe / 100)) in *.
  destruct (month_of_day doy Hdoy) as [Hmp [Hd [Hback _]]]. cbv zeta in Hmp, Hd, Hback.
  set (mp := (5 * doy + 2) / 153) in *.
  destruct (month_to_March mp Hmp) as [Hm Hmonth]. cbv zeta in Hm, Hmonth.
  eexists. eexists. eexists. split; [reflexivity|].
  repeat split; try lia.
  unfold dayOfEra. cbv zeta. rewrite Hmonth. unfold doy in *. lia.
Qed.

(** A date up to the 28th names a day of the era that names it back. *)
Lemma dayOfEra_spec (yoe m d : Z) :
  0 <= yoe < 400 -> 1 <= m <= 12 -> 1 <= d <= 28 ->
  0 <= dayOfEra yoe m d < 146097
  /\ civilOfDayOfEra (dayOfEra yoe m d) = (yoe, m, d).
Proof.
  intros Hyoe Hm Hd.
  destruct (month_from_March m Hm) as [Hmp Hmonth]. cbv zeta in Hmp, Hmonth.
  set (mp := if 2 <? m then m - 3 else m + 9) in *.
  assert (Hdoe : dayOfEra yoe m d
                 = 365 * yoe + yoe / 4 - yoe / 100 + ((153 * mp + 2) / 5 + d - 1))
    by (unfold dayOfEra; cbv zeta; fold mp; lia).
  assert (Hg : 0 <= (153 * mp + 2) / 5 <= 337) by (Z.div_mod_to_equations; lia).
  assert (Hr : 0 <= dayOfEra yoe m d < 146097)
    by (rewrite Hdoe; Z.div_mod_to_equations; lia).
  split; [exact Hr|].
  destruct (year_of_day _ Hr) as [Hyoe' [Hdoy' Hnext]]. cbv zeta in Hyoe', Hdoy', Hnext.
  unfold civilOfDayOfEra. cbv zeta.
  set (doe := dayOfEra yoe m d) in *.
  set (yoe' := (doe - doe / 1460 + doe / 36524 - doe / 146096) / 365) in *.
  assert (Hy : yoe' = yoe) by (apply (year_unique yoe yoe' doe); lia).
  rewrite Hy in *.
  replace (doe - (365 * yoe + yoe / 4 - yoe / 100)) with ((153 * mp + 2) / 5 + d - 1)
    in * by lia.
  destruct (month_of_day _ Hdoy') as [Hmp' [Hd' [Hback Hlen]]].
  cbv zeta in Hmp', Hd', Hback, Hlen.
  set (mp' := (5 * ((153 * mp + 2) / 5 + d - 1) + 2) / 153) in *.
  destruct (month_unique mp mp'
              d ((153 * mp + 2) / 5 + d - 1 - (153 * mp' + 2) / 5 + 1))
    as [Hmp_eq Hd_eq]; try lia.
  rewrite Hmp_eq in *. rewrite Hmonth. f_equal. lia.
Qed.

End EraArithmetic.

Lemma daysFromCivil_era (y m d era yoe : Z) :
  ((if m <=? 2 then y - 1 else y) = era * 400 + yoe)%Z -> (0 <= yoe < 400)%Z ->
  JsDate.daysFromCivil y m d = (era * 146097 + dayOfEra yoe m d - 719468)%Z.
Proof.
  intros Hy Hyoe. unfold JsDate.daysFromCivil, dayOfEra. cbv zeta. rewrite Hy.
  replace ((era * 400 + yoe) / 400)%Z with era by (Z.div_mod_to_equations; lia).
  replace (era * 400 + yoe - era * 400)%Z with yoe by lia.
  lia.
Qed.

Lemma civilFromDays_era (z era doe : Z) :
  (z + 719468 = era * 146097 + doe)%Z -> (0 <= doe < 146097)%Z ->
  JsDate.civilFromDays z
  = let '(yoe, m, d) := civilOfDayOfEra doe in
    ((if m <=? 2 then yoe + era * 400 + 1 else yoe + era * 400)%Z, m, d).
Proof.
  intros Hz Hdoe. unfold JsDate.civilFromDays, civilOfDayOfEra. cbv zeta. rewrite Hz.
  replace ((era * 146097 + doe) / 146097)%Z with era by (Z.div_mod_to_equations; lia).
  replace (era * 146097 + doe - era * 146097)%Z with doe by lia.
  reflexivity.
Qed.

(** Every day number names a date of the calendar, and that date names
    the day number back. *)
Lemma civil_of_day (z : Z) :
  exists y m d : Z,
    JsDate.civilFromDays z = (y, m, d)
    /\ JsDate.daysFromCivil y m d = z
    /\ (1 <= m <= 12)%Z /\ (1 <= d <= 31)%Z
    /\ ((0 <= z)%Z -> (1600 <= y)%Z).
Proof.
  set (era := ((z + 719468) / 146097)%Z).
  set (doe := (z + 719468 - era * 146097)%Z).
  assert (Hdoe : (0 <= doe < 146097)%Z)
    by (unfold doe, era; Z.div_mod_to_equations; lia).
  assert (Hz : (z + 719468 = era * 146097 + doe)%Z) by (unfold doe; lia).
  rewrite (civilFromDays_era z era doe Hz Hdoe).
  destruct (civilOfDayOfEra_spec doe Hdoe) as [yoe [m [d [Hc [Hyoe [Hm [Hd Hback]]]]]]].
  rewrite Hc.
  exists (if (m <=? 2)%Z then yoe + era * 400 + 1 else yoe + era * 400)%Z, m, d.
  split; [reflexivity|].
  assert (Hera : (0 <= z -> 4 <= era)%Z)
    by (intros; unfold era; Z.div_mod_to_equations; lia).
  split; [|destruct (m <=? 2)%Z; lia].
  rewrite (daysFromCivil_era _ m d era yoe); [lia | destruct (m <=? 2)%Z; lia | lia].
Qed.

(** A date up to the 28th of a month names a day number that names the
    date back. *)
Lemma day_of_civil (y m d : Z) :
  (1 <= m <= 12)%Z -> (1 <= d <= 28)%Z ->
  JsDate.civilFromDays (JsDate.daysFromCivil y m d) = (y, m, d).
Proof.
  intros Hm Hd.
  set (y' := (if m <=? 2 then y - 1 else y)%Z).
  set (era := (y' / 400)%Z). set (yoe := (y' - era * 400)%Z).
  assert (Hyoe : (0 <= yoe < 400)%Z) by (unfold yoe, era; Z.div_mod_to_equations; lia).
  assert (Hy : ((if m <=? 2 then y - 1 else y) = era * 400 + yoe)%Z)
    by (fold y'; unfold yoe; lia).
  rewrite (daysFromCivil_era y m d era yoe Hy Hyoe).
  destruct (dayOfEra_spec yoe m d Hyoe Hm Hd) as [Hr Hback].
  rewrite (civilFromDays_era _ era (dayOfEra yoe m d)) by lia.
  rewrite Hback. f_equal. f_equal. unfold y' in Hy. destruct (m <=? 2)%Z; lia.
Qed.

(** ** The Mondays offered by the upload tab *)

Lemma TimeClip_in_range (x : Z) :
  (Z.abs x <= 8640000000000000)%Z -> JsDate.TimeClip x = Some x.
Proof.
  intros H. unfold JsDate.TimeClip.
  destruct (Z.ltb_spec 8640000000000000 (Z.abs x)); [lia | reflexivity].
Qed.

Lemma daysFromCivil_day (y m d : Z) :
  JsDate.daysFromCivil y m d = (JsDate.daysFromCivil y m 1 + d - 1)%Z.
Proof. unfold JsDate.daysFromCivil. cbv zeta. lia. Qed.

Lemma MakeDay_same_month (y m d dt : Z) :
  (1 <= m <= 12)%Z ->
  JsDate.MakeDay y (m - 1) dt = (JsDate.daysFromCivil y m d + (dt - d))%Z.
Proof.
  intros Hm. unfold JsDate.MakeDay. cbv zeta.
  replace ((m - 1) / 12)%Z with 0%Z by (Z.div_mod_to_equations; lia).
  replace ((m - 1) mod 12 + 1)%Z with m by (Z.div_mod_to_equations; lia).
  rewrite Z.add_0_r, (daysFromCivil_day y m d). lia.
Qed.

(** [date.setDate(date.getDate() + k)] moves a date by [k] days. *)
Lemma setDate_shift (offset tv k : Z) :
  setDate offset (Some tv) (plus (getDate offset (Some tv)) (Some k))
  = JsDate.TimeClip (tv + k * JsDate.msPerDay).
Proof.
  unfold setDate, getDate, plus, localDay.
  destruct (civil_of_day (JsDate.localTime offset tv / JsDate.msPerDay))
    as [y [m [d [Hc [Hround [Hm _]]]]]].
  rewrite Hc. rewrite (MakeDay_same_month y m d) by exact Hm. rewrite Hround.
  f_equal. unfold JsDate.MakeDate, JsDate.localTime, JsDate.msPerDay, JsDate.msPerMinute.
  Z.div_mod_to_equations. lia.
Qed.

Lemma setDate_shift_back (offset tv k : Z) :
  setDate offset (Some tv) (minus (getDate offset (Some tv)) (Some k))
  = JsDate.TimeClip (tv - k * JsDate.msPerDay).
Proof.
  unfold setDate, getDate, minus, localDay.
  destruct (civil_of_day (JsDate.localTime offset tv / JsDate.msPerDay))
    as [y [m [d [Hc [Hround [Hm _]]]]]].
  rewrite Hc. rewrite (MakeDay_same_month y m d) by exact Hm. rewrite Hround.
  f_equal. unfold JsDate.MakeDate, JsDate.localTime, JsDate.msPerDay, JsDate.msPerMinute.
  Z.div_mod_to_equations. lia.
Qed.

Lemma localDay_localMidnight (offset day : Z) :
  localDay offset (localMidnight offset day) = day.
Proof.
  unfold localDay, localMidnight, JsDate.localTime, JsDate.msPerDay, JsDate.msPerMinute.
  Z.div_mod_to_equations. lia.
Qed.

Lemma localMidnight_near (offset tv day : Z) :
  (localDay offset tv - 34 <= day <= localDay offset tv + 28)%Z ->
  (Z.abs tv <= 8640000000000000 - 3024000000)%Z ->
  (Z.abs (localMidnight offset day) <= 8640000000000000)%Z.
Proof.
  unfold localDay, localMidnight, JsDate.localTime, JsDate.msPerDay, JsDate.msPerMinute.
  intros Hd Ht. Z.div_mod_to_equations. lia.
Qed.

Lemma availableMondays_values (offset now : Z) :
  (Z.abs now <= 8640000000000000 - 3024000000)%Z ->
  availableMondays offset (Some now)
  = map (fun j =>
           let monday := Some (localMidnight offset (mondayOf (localDay offset now) + 7 * j)) in
           (monday, formatDateForAPI offset monday))
        [-4; -3; -2; -1; 0; 1; 2; 3; 4]%Z.
Proof.
  intros Hnow. unfold availableMondays. cbv zeta.
  set (L := localDay offset now). set (M := mondayOf L).
  assert (HM : (L - 6 <= M <= L)%Z)
    by (unfold M, mondayOf; Z.div_mod_to_equations; lia).
  assert (Hk : option_map (fun c => if (c =? 0)%Z then 6%Z else (c - 1)%Z)
                          (getDay offset (Some now))
               = Some (L - M)%Z).
  { unfold getDay. fold L. simpl. f_equal. unfold M, mondayOf.
    destruct (Z.eqb_spec ((L + 4) mod 7) 0); Z.div_mod_to_equations; lia. }
  rewrite Hk, setDate_shift_back.
  assert (Hs1 : JsDate.TimeClip (now - (L - M) * JsDate.msPerDay)
                = Some (now - (L - M) * JsDate.msPerDay)%Z).
  { apply TimeClip_in_range. unfold JsDate.msPerDay. lia. }
  rewrite Hs1.
  assert (Hs2 : setHours offset (Some (now - (L - M) * JsDate.msPerDay)%Z) 0 0 0 0
                = Some (localMidnight offset M)).
  { unfold setHours.
    replace (JsDate.MakeDate
               (JsDate.localTime offset (now - (L - M) * JsDate.msPerDay)
                / JsDate.msPerDay) (JsDate.MakeTime 0 0 0 0)
             - offset * JsDate.msPerMinute)%Z
      with (localMidnight offset M).
    - apply TimeClip_in_range. apply (localMidnight_near offset now); [fold L; lia | exact Hnow].
    - unfold localMidnight, JsDate.MakeDate, JsDate.MakeTime. f_equal.
      unfold L, localDay, JsDate.localTime, JsDate.msPerDay, JsDate.msPerMinute in *.
      Z.div_mod_to_equations. lia. }
  rewrite Hs2.
  assert (Hback : forall i, (0 <= i <= 4)%Z ->
            setDate offset (Some (localMidnight offset M))
              (minus (getDate offset (Some (localMidnight offset M))) (Some (i * 7)%Z))
            = Some (localMidnight offset (M + 7 * - i))).
  { intros i Hi. rewrite setDate_shift_back.
    replace (localMidnight offset M - i * 7 * JsDate.msPerDay)%Z
      with (localMidnight offset (M + 7 * - i))
      by (unfold localMidnight, JsDate.msPerDay; lia).
    apply TimeClip_in_range. apply (localMidnight_near offset now); [fold L; lia | exact Hnow]. }
  assert (Hahead : forall i, (0 <= i <= 4)%Z ->
            setDate offset (Some (localMidnight offset M))
              (plus (getDate offset (Some (localMidnight offset M))) (Some (i * 7)%Z))
            = Some (localMidnight offset (M + 7 * i))).
  { intros i Hi. rewrite setDate_shift.
    replace (localMidnight offset M + i * 7 * JsDate.msPerDay)%Z
      with (localMidnight offset (M + 7 * i))
      by (unfold localMidnight, JsDate.msPerDay; lia).
    apply TimeClip_in_range. apply (localMidnight_near offset now); [fold L; lia | exact Hnow]. }
  cbn [map app].
  rewrite !Hback, !Hahead by lia.
  replace (M + 7 * 0)%Z with M by lia.
  reflexivity.
Qed.

(** X15.  The upload tab offers nine Mondays: the Monday on or before
    today (in the zone of the browser), the four before it and the four
    after it, in this order, each as the local midnight of its day, each
    a Monday for [getDay], each with the text [formatDateForAPI] writes
    for it; the Monday chosen by default is the middle one, the Monday
    on or before today.  (Today is any date whose neighbours within 35
    days are dates of the platform.) *)
Theorem upload_tab_offers_mondays :
  forall (offset now : Z),
    (Z.abs now <= 8640000000000000 - 3024000000)%Z ->
    let mondays := availableMondays offset (Some now) in
    let thisMonday := mondayOf (localDay offset now) in
    List.length mondays = 9
    /\ (thisMonday <= localDay offset now < thisMonday + 7)%Z
    /\ (forall i date text,
          nth_error mondays i = Some (date, text) ->
          date = Some (localMidnight offset (thisMonday + 7 * (Z.of_nat i - 4)))
          /\ getDay offset date = Some 1%Z
          /\ text = formatDateForAPI offset date)
    /\ defaultMonday "" mondays
       = formatDateForAPI offset (Some (localMidnight offset thisMonday)).
Proof.
  intros offset now Hnow mondays thisMonday.
  unfold mondays. rewrite (availableMondays_values offset now Hnow). fold thisMonday.
  assert (HM : (thisMonday <= localDay offset now < thisMonday + 7)%Z)
    by (unfold thisMonday, mondayOf; Z.div_mod_to_equations; lia).
  assert (Hday : forall day, ((day - thisMonday) mod 7 = 0)%Z ->
                             getDay offset (Some (localMidnight offset day)) = Some 1%Z).
  { intros day Hmod. unfold getDay. rewrite localDay_localMidnight. f_equal.
    unfold thisMonday, mondayOf in *. Z.div_mod_to_equations. lia. }
  split; [reflexivity|]. split; [exact HM|]. split.
  - intros i date text Hi.
    do 9 (destruct i as [|i];
          [cbn [nth_error map] in Hi; cbv beta zeta in Hi; injection Hi as <- <-;
           split; [reflexivity
                  | split; [apply Hday; Z.div_mod_to_equations; lia | reflexivity]]|]).
    destruct i; discriminate.
  - unfold defaultMonday. cbn [map List.length String.eqb andb Nat.ltb Nat.leb].
    change (9 / 2)%nat with 4%nat. cbn [nth_error snd]. cbv beta zeta.
    replace (thisMonday + 7 * 0)%Z with thisMonday by lia. reflexivity.
Qed.

Lemma upload_tab_offers_mondays_witness :
  defaultMonday "" (availableMondays 330 (Some 1736409600000%Z))
  = formatDateForAPI 330
      (Some (localMidnight 330 (mondayOf (localDay 330 1736409600000%Z)))).
Proof.
  refine (proj2 (proj2 (proj2 (upload_tab_offers_mondays 330 1736409600000%Z _)))).
  vm_compute. discriminate.
Defined.

(** ** Reading a number of a date text *)

Lemma digitsValue_step (acc : Z) (c : ascii) (r : string) :
  JsString.isDigit c = true ->
  DateText.digitsValue acc (String c r)
  = DateText.digitsValue (10 * acc + (Z.of_N (N_of_ascii c) - 48))%Z r.
Proof. intros H. cbn [DateText.digitsValue]. rewrite H. reflexivity. Qed.

Ltac digit_value :=
  match goal with
  | |- context [Z.of_N (N_of_ascii ?c)] =>
      let v := eval vm_compute in (Z.of_N (N_of_ascii c)) in
      change (Z.of_N (N_of_ascii c)) with v
  end.

Lemma digitsValue_acc (d : Decimal.uint) :
  forall acc : positive,
    DateText.digitsValue (Z.pos acc) (NilEmpty.string_of_uint d)
    = Some (Z.pos (Pos.of_uint_acc d acc)).
Proof.
  induction d as [|d IH|d IH|d IH|d IH|d IH|d IH|d IH|d IH|d IH|d IH]; intros acc;
    cbn [NilEmpty.string_of_uint Pos.of_uint_acc]; [reflexivity|..];
    rewrite digitsValue_step by reflexivity; digit_value; rewrite <- IH; f_equal; lia.
Qed.

Lemma digitsValue_uint (d : Decimal.uint) :
  DateText.digitsValue 0 (NilEmpty.string_of_uint d) = Some (Z.of_N (Pos.of_uint d)).
Proof.
  induction d as [|d IH|d IH|d IH|d IH|d IH|d IH|d IH|d IH|d IH|d IH];
    cbn [NilEmpty.string_of_uint Pos.of_uint]; [reflexivity|..];
    rewrite digitsValue_step by reflexivity; digit_value;
    [exact IH | apply digitsValue_acc ..].
Qed.

Lemma digit_not_space (c : ascii) :
  JsString.isDigit c = true -> JsString.isWhiteSpace c = false.
Proof. destruct c as [[] [] [] [] [] [] [] []]; vm_compute; congruence. Qed.

Lemma digit_not_dash (c : ascii) : JsString.isDigit c = true -> Ascii.eqb c "-" = false.
Proof. destruct c as [[] [] [] [] [] [] [] []]; vm_compute; congruence. Qed.

Lemma lastChar_allChars (p : ascii -> bool) (s : string) (c : ascii) :
  JsString.allChars p s = true -> JsString.lastChar s = Some c -> p c = true.
Proof.
  induction s as [|a s IH]; [discriminate|]. cbn [JsString.allChars JsString.lastChar].
  intros H. apply andb_true_iff in H. destruct H as [Ha Hs].
  destruct s as [|b s]; [intros [= <-]; exact Ha | apply IH; exact Hs].
Qed.

Lemma trim_digits (s : string) :
  JsString.allChars JsString.isDigit s = true -> JsString.trim s = s.
Proof.
  intros H. unfold JsString.trim. rewrite trimStart_fixed.
  - apply trimEnd_fixed. intros c Hc. apply digit_not_space.
    exact (lastChar_allChars _ _ _ H Hc).
  - intros c Hc. apply digit_not_space. destruct s as [|a s]; [discriminate|].
    injection Hc as <-. simpl in H. apply andb_true_iff in H. apply H.
Qed.

Lemma Number_digits (s : string) :
  s <> "" -> JsString.allChars JsString.isDigit s = true ->
  DateText.Number s = DateText.digitsValue 0 s.
Proof.
  intros Hne H. unfold DateText.Number. rewrite (trim_digits s H).
  destruct s as [|c r]; [contradiction|].
  cbn [JsString.allChars] in H. apply andb_true_iff in H. destruct H as [Hc _].
  destruct c as [[] [] [] [] [] [] [] []]; vm_compute in Hc; try discriminate Hc; reflexivity.
Qed.

Lemma ofZ_digits (z : Z) :
  (0 <= z)%Z ->
  JsString.ofZ z <> "" /\ JsString.allChars JsString.isDigit (JsString.ofZ z) = true.
Proof.
  intros Hz. destruct z as [|p|p]; [split; [discriminate | reflexivity] | | lia].
  unfold JsString.ofZ. cbn [Z.to_int NilEmpty.string_of_int].
  split; [|apply string_of_uint_digits].
  intros He. pose proof (DecimalPos.Unsigned.of_to p) as Hp.
  destruct (Pos.to_uint p); try discriminate He. discriminate Hp.
Qed.

Lemma Number_ofZ (z : Z) : (0 <= z)%Z -> DateText.Number (JsString.ofZ z) = Some z.
Proof.
  intros Hz. destruct (ofZ_digits z Hz) as [Hne Hd]. rewrite (Number_digits _ Hne Hd).
  destruct z as [|p|p]; [reflexivity | | lia].
  unfold JsString.ofZ. cbn [Z.to_int NilEmpty.string_of_int].
  rewrite digitsValue_uint, DecimalPos.Unsigned.of_to. reflexivity.
Qed.

Lemma two_digits_ok : allFrom checkTwoDigits 60 0 = true.
Proof. vm_compute. reflexivity. Qed.

Lemma Number_two_digits (n : Z) :
  (0 <= n <= 59)%Z ->
  JsString.allChars JsString.isDigit (padStart2 (JsString.ofZ n)) = true
  /\ DateText.Number (padStart2 (JsString.ofZ n)) = Some n.
Proof.
  intros Hn. pose proof (allFrom_spec _ _ _ two_digits_ok n ltac:(lia)) as H.
  unfold checkTwoDigits in H. cbv zeta in H.
  apply andb_true_iff in H. destruct H as [Hd Hv]. split; [exact Hd|].
  destruct (DateText.Number (padStart2 (JsString.ofZ n))) as [v|]; [|discriminate].
  apply Z.eqb_eq in Hv. subst v. reflexivity.
Qed.

(** ** Splitting a date text *)

Lemma split_digits (a : string) :
  JsString.allChars JsString.isDigit a = true -> DateText.split "-" a = [a].
Proof.
  induction a as [|c a IH]; [reflexivity|]. cbn [JsString.allChars DateText.split].
  intros H. apply andb_true_iff in H. destruct H as [Hc Ha].
  rewrite (digit_not_dash c Hc), (IH Ha). reflexivity.
Qed.

Lemma split_digits_dash (a b : string) :
  JsString.allChars JsString.isDigit a = true ->
  DateText.split "-" (a ++ "-" ++ b) = a :: DateText.split "-" b.
Proof.
  induction a as [|c a IH]; [reflexivity|]. cbn [JsString.allChars].
  intros H. apply andb_true_iff in H. destruct H as [Hc Ha].
  change ((String c a) ++ "-" ++ b) with (String c (a ++ "-" ++ b)).
  cbn [DateText.split]. rewrite (digit_not_dash c Hc), (IH Ha). reflexivity.
Qed.

Lemma includes_char_absent (t : ascii) (s : string) :
  JsString.allChars (fun c => negb (Ascii.eqb c t)) s = true ->
  JsString.includes (String t "") s = false.
Proof.
  induction s as [|c s IH]; [reflexivity|]. cbn [JsString.allChars].
  intros H. apply andb_true_iff in H. destruct H as [Hc Hs].
  rewrite includes_unfold. cbn [String.prefix].
  destruct (Ascii.ascii_dec t c) as [->|_]; [|exact (IH Hs)].
  rewrite Ascii.eqb_refl in Hc. discriminate.
Qed.

Lemma allChars_impl (p q : ascii -> bool) (s : string) :
  (forall c, p c = true -> q c = true) ->
  JsString.allChars p s = true -> JsString.allChars q s = true.
Proof.
  intros Hpq. induction s as [|c s IH]; [reflexivity|]. cbn [JsString.allChars].
  intros H. apply andb_true_iff in H. destruct H as [Hc Hs].
  rewrite (Hpq c Hc), (IH Hs). reflexivity.
Qed.

Lemma digit_not_T (c : ascii) : JsString.isDigit c = true -> negb (Ascii.eqb c "T") = true.
Proof. destruct c as [[] [] [] [] [] [] [] []]; vm_compute; congruence. Qed.

Lemma digit_not_blank (c : ascii) : JsString.isDigit c = true -> negb (Ascii.eqb c " ") = true.
Proof. destruct c as [[] [] [] [] [] [] [] []]; vm_compute; congruence. Qed.

Lemma ymdText_plain (t : ascii) (y m d : Z) :
  (forall c, JsString.isDigit c = true -> negb (Ascii.eqb c t) = true) ->
  Ascii.eqb "-" t = false ->
  (0 <= y)%Z -> (0 <= m <= 59)%Z -> (0 <= d <= 59)%Z ->
  JsString.includes (String t "") (ymdText y m d) = false.
Proof.
  intros Hdig Hdash Hy Hm Hd. apply includes_char_absent. unfold ymdText.
  rewrite !allChars_app. cbn [JsString.allChars]. rewrite Hdash. cbn [negb andb].
  rewrite (allChars_impl _ _ _ Hdig (proj2 (ofZ_digits y Hy))).
  rewrite (allChars_impl _ _ _ Hdig (proj1 (Number_two_digits m Hm))).
  rewrite (allChars_impl _ _ _ Hdig (proj1 (Number_two_digits d Hd))).
  reflexivity.
Qed.

(** The date text of a year from 100 on is read as the UTC midnight of
    its day. *)
Lemma parseServerDate_ymd (y m d : Z) :
  (100 <= y)%Z -> (1 <= m <= 12)%Z -> (1 <= d <= 31)%Z ->
  DateText.parseServerDate (ymdText y m d)
  = JsDate.TimeClip (JsDate.daysFromCivil y m d * JsDate.msPerDay).
Proof.
  intros Hy Hm Hd. unfold DateText.parseServerDate. cbv zeta.
  rewrite (ymdText_plain "T" y m d digit_not_T eq_refl) by lia.
  rewrite (ymdText_plain " " y m d digit_not_blank eq_refl) by lia.
  assert (Hsplit : DateText.split "-" (ymdText y m d)
                   = [JsString.ofZ y; padStart2 (JsString.ofZ m); padStart2 (JsString.ofZ d)]).
  { unfold ymdText.
    rewrite split_digits_dash by (apply ofZ_digits; lia).
    rewrite split_digits_dash by (apply Number_two_digits; lia).
    rewrite split_digits by (apply Number_two_digits; lia). reflexivity. }
  rewrite Hsplit. cbn [map nth_error].
  rewrite (Number_ofZ y) by lia.
  rewrite (proj2 (Number_two_digits m ltac:(lia))), (proj2 (Number_two_digits d ltac:(lia))).
  cbn [option_map]. unfold JsDate.UTC.
  replace ((0 <=? y)%Z && (y <=? 99)%Z) with false
    by (symmetry; apply andb_false_iff; right; apply Z.leb_gt; lia).
  f_equal. rewrite (MakeDay_same_month y m d d Hm).
  unfold JsDate.MakeDate, JsDate.MakeTime. lia.
Qed.

Lemma formatDateForAPI_ymd (offset tv y m d : Z) :
  JsDate.civilFromDays (localDay offset tv) = (y, m, d) ->
  formatDateForAPI offset (Some tv) = ymdText y m d.
Proof.
  intros Hc. unfold formatDateForAPI, getFullYear, getDate, JsDate.getMonth. cbv zeta.
  change (JsDate.localTime offset tv / JsDate.msPerDay)%Z with (localDay offset tv).
  rewrite Hc. cbn [option_map numberText]. unfold ymdText.
  replace (m - 1 + 1)%Z with m by lia. reflexivity.
Qed.

Lemma toLocaleDateString_midnight (day y m d : Z) :
  JsDate.civilFromDays day = (y, m, d) ->
  JsDate.toLocaleDateString_enIN (Some (day * JsDate.msPerDay)%Z)
  = JsString.ofZ d ++ " " ++ JsDate.monthName m ++ " " ++ JsString.ofZ y.
Proof.
  intros Hc. unfold JsDate.toLocaleDateString_enIN.
  replace ((day * JsDate.msPerDay + 330 * JsDate.msPerMinute) / JsDate.msPerDay)%Z with day
    by (unfold JsDate.msPerDay, JsDate.msPerMinute; Z.div_mod_to_equations; lia).
  rewrite Hc. reflexivity.
Qed.

(** X16.  The text the upload tab sends for a date (year, month and day
    of the date in the zone of the browser) is read back by the template
    page as the UTC midnight of that same calendar day, and the notice
    shows that day, month and year, for every date from 1 January 1970
    on (local) and every zone. *)
Theorem api_date_reads_back :
  forall (offset tv y m d : Z),
    (0 <= localDay offset tv <= 100000000)%Z ->
    JsDate.civilFromDays (localDay offset tv) = (y, m, d) ->
    formatDateForAPI offset (Some tv) = ymdText y m d
    /\ DateText.parseServerDate (formatDateForAPI offset (Some tv))
       = Some (localDay offset tv * JsDate.msPerDay)%Z
    /\ formatDate (formatDateForAPI offset (Some tv))
       = JsString.ofZ d ++ " " ++ JsDate.monthName m ++ " " ++ JsString.ofZ y.
Proof.
  intros offset tv y m d Hday Hc.
  destruct (civil_of_day (localDay offset tv)) as [y' [m' [d' [Hc' [Hround [Hm [Hd Hy]]]]]]].
  rewrite Hc in Hc'. injection Hc' as <- <- <-.
  assert (Hparse : DateText.parseServerDate (ymdText y m d)
                   = Some (localDay offset tv * JsDate.msPerDay)%Z).
  { rewrite parseServerDate_ymd by lia. rewrite Hround.
    apply TimeClip_in_range. unfold JsDate.msPerDay. lia. }
  rewrite (formatDateForAPI_ymd offset tv y m d Hc).
  split; [reflexivity|]. split; [exact Hparse|].
  unfold formatDate. rewrite Hparse. apply toLocaleDateString_midnight. exact Hc.
Qed.

Lemma api_date_reads_back_witness :
  formatDate (formatDateForAPI 330 (Some 1736121600000%Z)) = "6 January 2025".
Proof.
  refine (proj2 (proj2 (api_date_reads_back 330 1736121600000 2025 1 6 _ _))).
  - vm_compute. split; discriminate.
  - vm_compute. reflexivity.
Defined.

(** ** The deadline of a notice *)

Lemma daysFromCivil_bound (y m d : Z) :
  (0 <= y <= 10000)%Z -> (1 <= m <= 12)%Z -> (1 <= d <= 28)%Z ->
  (Z.abs (JsDate.daysFromCivil y m d * JsDate.msPerDay) <= 8640000000000000)%Z.
Proof.
  intros Hy Hm Hd. unfold JsDate.daysFromCivil, JsDate.msPerDay. cbv zeta.
  destruct (m <=? 2)%Z, (2 <? m)%Z; Z.div_mod_to_equations; lia.
Qed.

Lemma localDay_of_midnight (offset day : Z) :
  (0 <= offset < 1440)%Z ->
  (JsDate.localTime offset (day * JsDate.msPerDay) / JsDate.msPerDay)%Z = day
  /\ (JsDate.localTime offset (day * JsDate.msPerDay) mod JsDate.msPerDay)%Z
     = (offset * JsDate.msPerMinute)%Z.
Proof.
  intros Ho. unfold JsDate.localTime, JsDate.msPerDay, JsDate.msPerMinute.
  split; Z.div_mod_to_equations; lia.
Qed.

Lemma MakeDay_four_months_later (y m d : Z) :
  (1 <= m <= 12)%Z ->
  JsDate.MakeDay y (m - 1 + 4) d
  = JsDate.daysFromCivil (yearAfterFour y m) (monthAfterFour m) d.
Proof.
  intros Hm. unfold JsDate.MakeDay, yearAfterFour, monthAfterFour. cbv zeta.
  replace (m - 1 + 4)%Z with (m + 3)%Z by lia.
  rewrite (daysFromCivil_day _ _ d). lia.
Qed.

Lemma after_four_months_range (y m : Z) :
  (100 <= y <= 9999)%Z -> (1 <= m <= 12)%Z ->
  (0 <= yearAfterFour y m <= 10000)%Z /\ (1 <= monthAfterFour m <= 12)%Z.
Proof.
  intros Hy Hm. unfold yearAfterFour, monthAfterFour. split; Z.div_mod_to_equations; lia.
Qed.

(** X17.  For a journal date written as year-month-day with a day up
    to the 28th, the notice shows that date, and the deadline it gives
    is the same day of the month four calendar months later (in the
    following year from September on), whenever the browser's zone is
    at or east of UTC.  West of UTC the deadline can differ: the date
    is read as a UTC midnight and moved by the local calendar, where it
    is still the day before. *)
Theorem deadline_four_months_later :
  (forall (offset y m d : Z),
      (0 <= offset < 1440)%Z -> (100 <= y <= 9999)%Z ->
      (1 <= m <= 12)%Z -> (1 <= d <= 28)%Z ->
      formatDate (ymdText y m d)
      = JsString.ofZ d ++ " " ++ JsDate.monthName m ++ " " ++ JsString.ofZ y
      /\ formatOppositionDeadline offset (ymdText y m d)
         = JsString.ofZ d ++ " " ++ JsDate.monthName (monthAfterFour m) ++ " "
           ++ JsString.ofZ (yearAfterFour y m))
  /\ formatOppositionDeadline (-300) (ymdText 2025 3 1) = "29 June 2025".
Proof.
  split; [|vm_compute; reflexivity].
  intros offset y m d Ho Hy Hm Hd.
  assert (Hparse : DateText.parseServerDate (ymdText y m d)
                   = Some (JsDate.daysFromCivil y m d * JsDate.msPerDay)%Z).
  { rewrite parseServerDate_ymd by lia. apply TimeClip_in_range.
    apply daysFromCivil_bound; lia. }
  pose proof (day_of_civil y m d Hm Hd) as Hcivil.
  destruct (after_four_months_range y m Hy Hm) as [Hy' Hm'].
  pose proof (day_of_civil (yearAfterFour y m) (monthAfterFour m) d Hm' Hd) as Hcivil'.
  destruct (localDay_of_midnight offset (JsDate.daysFromCivil y m d) Ho) as [Hday Htime].
  split.
  - unfold formatDate. rewrite Hparse. apply toLocaleDateString_midnight. exact Hcivil.
  - unfold formatOppositionDeadline. cbv zeta. rewrite Hparse.
    unfold JsDate.getMonth. rewrite Hday, Hcivil. cbn [option_map].
    unfold JsDate.setMonth. rewrite Hday, Hcivil, Htime.
    rewrite (MakeDay_four_months_later y m d Hm).
    replace (JsDate.MakeDate
               (JsDate.daysFromCivil (yearAfterFour y m) (monthAfterFour m) d)
               (offset * JsDate.msPerMinute) - offset * JsDate.msPerMinute)%Z
      with (JsDate.daysFromCivil (yearAfterFour y m) (monthAfterFour m) d
            * JsDate.msPerDay)%Z
      by (unfold JsDate.MakeDate; lia).
    rewrite TimeClip_in_range by (apply daysFromCivil_bound; lia).
    apply toLocaleDateString_midnight. exact Hcivil'.
Qed.

Lemma deadline_four_months_later_witness :
  formatOppositionDeadline 330 (ymdText 2025 10 27) = "27 February 2026".
Proof.
  refine (proj2 (proj1 deadline_four_months_later 330 2025 10 27 _ _ _ _)%Z); lia.
Defined.

(** ** The risk label of the entries the banner counts *)

Lemma SFcompare_nan_r (a : spec_float) : SFcompare a S754_nan = None.
Proof. destruct a as [s|s| |s m e]; try reflexivity; destruct s; reflexivity. Qed.

Lemma Prim2SF_nan (x : float) : is_nan x = true -> Prim2SF x = S754_nan.
Proof. intros H. unfold Prim2SF. rewrite H. reflexivity. Qed.

Lemma leb_not_nan (a b : float) : (a <=? b)%float = true -> is_nan b = false.
Proof.
  intros H. destruct (is_nan b) eqn:Hb; [|reflexivity].
  rewrite leb_spec in H. unfold SFleb in H.
  rewrite (Prim2SF_nan b Hb), SFcompare_nan_r in H. discriminate.
Qed.

Lemma ltb_nan_r (a b : float) : is_nan b = true -> (a <? b)%float = false.
Proof.
  intros Hb. rewrite ltb_spec. unfold SFltb.
  rewrite (Prim2SF_nan b Hb), SFcompare_nan_r. reflexivity.
Qed.

Lemma ltb_leb (a b : float) : (a <? b)%float = true -> (a <=? b)%float = true.
Proof.
  rewrite ltb_spec, leb_spec. unfold SFltb, SFleb.
  destruct (SFcompare (Prim2SF a) (Prim2SF b)) as [[| |]|]; congruence.
Qed.

Lemma visible_score_not_nan (threshold score : float) :
  (threshold <=? Score.normalize score)%float = true -> is_nan score = false.
Proof.
  intros H. destruct (is_nan score) eqn:Hn; [|reflexivity].
  unfold Score.normalize in H. rewrite (ltb_nan_r 1 score Hn) in H.
  rewrite (leb_not_nan _ _ H) in Hn. discriminate.
Qed.

Lemma high_raw_score (score : float) :
  (highThresholdDefault <=? Score.normalize score)%float = true ->
  (highThresholdDefault <=? score)%float = true.
Proof.
  unfold Score.normalize. destruct (1 <? score)%float eqn:H1; [|auto].
  intros _. apply (leb_trans _ 1%float); [reflexivity | apply ltb_leb; exact H1].
Qed.

(** X18.  Every entry the attention banner counts is labelled
    "HIGH RISK" in the list of entries: the label is taken from the
    highest raw score among the visible matches of the entry, and a
    match of normalized score 0.8 or more is visible and has a raw score
    of 0.8 or more. *)
Theorem banner_entries_are_high_risk :
  forall (entries : list Entry) (item : EntryWithMatches),
    In item (entriesWithMatches entries) ->
    In (ewm_entry item) (getHighSimilarityEntries entries highThresholdDefault) ->
    risk_level (getRiskLevel (highestScoreOf (ewm_filtered item))) = "HIGH RISK".
Proof.
  intros entries item Hitem Hhigh.
  apply entriesWithMatches_In in Hitem. destruct Hitem as [_ [Hf _]].
  unfold getHighSimilarityEntries in Hhigh. apply filter_In in Hhigh.
  destruct Hhigh as [_ Hex]. apply existsb_exists in Hex. destruct Hex as [sim [Hs Hsim]].
  cbv zeta in Hsim.
  assert (Hvis : In sim (ewm_filtered item)).
  { rewrite Hf. unfold getFilteredSimilarTrademarks. apply filter_In.
    split; [exact Hs | apply high_passes_default; exact Hsim]. }
  destruct (fold_max2_spec (map SimilarTrademark.similarity_score (ewm_filtered item))
              neg_infinity) as [_ [_ [Hall _]]].
  { reflexivity. }
  { intros x Hx. apply in_map_iff in Hx. destruct Hx as [s [<- Hin]].
    rewrite Hf in Hin. unfold getFilteredSimilarTrademarks in Hin.
    apply filter_In in Hin. destruct Hin as [_ Hin].
    exact (visible_score_not_nan _ _ Hin). }
  cbv zeta in Hall.
  assert (Hle : (highThresholdDefault <=? highestScoreOf (ewm_filtered item))%float = true).
  { apply (leb_trans _ (SimilarTrademark.similarity_score sim)).
    - apply high_raw_score. exact Hsim.
    - apply Hall. apply in_map. exact Hvis. }
  unfold getRiskLevel. unfold highThresholdDefault in Hle. rewrite Hle. reflexivity.
Qed.

Lemma banner_entries_are_high_risk_witness :
  risk_level (getRiskLevel (highestScoreOf [Sample.tyger])) = "HIGH RISK".
Proof.
  apply (banner_entries_are_high_risk [Sample.tiger]
           (mkEntryWithMatches 0 Sample.tiger [Sample.tyger])).
  - vm_compute. left. reflexivity.
  - vm_compute. left. reflexivity.
Defined.

(** ** From "select all" to the collected selection *)

Lemma addressedBy_other_entry (en : Entry) (e : nat) (filtered : list Sim) (e' i' : nat) :
  e' <> e -> addressedBy en e filtered (trademarkId e' i') = false.
Proof.
  intros Hne. unfold addressedBy. apply not_true_is_false. intros H.
  apply existsb_exists in H. destruct H as [s [_ Hs]].
  destruct (actualSimIndexTable (similarTrademarksOf en) s) as [i|]; [|discriminate].
  apply String.eqb_eq in Hs. apply trademarkId_inj in Hs. destruct Hs as [He _].
  contradiction.
Qed.

(** X19.  After the header checkbox of an entry's table is checked,
    "generate" collects, for every visible match of the table (none with
    an infinite score), a match of that entry that agrees with it on
    mark, score (within the tolerance) and applicant: the one at the
    position the reconciliation finds.  What is collected from the other
    entries is what was collected before. *)
Theorem select_all_is_collected :
  forall (reportData : ReportData.t) (item : EntryWithMatches) (sel : JsSet.t),
    let entries := entriesOf reportData in
    let selAll := headerOnChange true (ewm_entry item) (ewm_entryIndex item)
                    (ewm_filtered item) sel in
    In item (entriesWithMatches entries) ->
    (forall s, In s (ewm_filtered item) ->
               is_infinity (SimilarTrademark.similarity_score s) = false) ->
    (forall s, In s (ewm_filtered item) ->
       exists t,
         In t (getSelectedTrademarksData (Some reportData) selAll)
         /\ entryIndex t = ewm_entryIndex item
         /\ entry t = ewm_entry item
         /\ sameSimTable s (sim t) = true)
    /\ (forall t, entryIndex t <> ewm_entryIndex item ->
          (In t (getSelectedTrademarksData (Some reportData) selAll)
           <-> In t (getSelectedTrademarksData (Some reportData) sel))).
Proof.
  intros reportData item sel entries selAll Hitem Hfin.
  apply entriesWithMatches_In in Hitem. destruct Hitem as [Hn [Hf _]].
  unfold getSelectedTrademarksData. fold entries. split.
  - intros s Hs.
    assert (Hin : In s (similarTrademarksOf (ewm_entry item))).
    { rewrite Hf in Hs. unfold getFilteredSimilarTrademarks in Hs.
      apply filter_In in Hs. apply Hs. }
    destruct (table_reconciles _ s Hin (Hfin s Hs)) as [j [Hj _]].
    destruct (findIndex_Some_first (sameSimTable s) _ j Hj) as [[x [Hx Hsame]] _].
    exists (mkSelected (ewm_entry item) x (ewm_entryIndex item) j).
    split; [|repeat split; exact Hsame].
    apply (collectEntries_complete selAll entries 0 (ewm_entryIndex item) j _ x Hn Hx).
    unfold selAll. rewrite has_headerOnChange.
    replace (addressedBy (ewm_entry item) (ewm_entryIndex item) (ewm_filtered item)
               (trademarkId (0 + ewm_entryIndex item) j)) with true; [reflexivity|].
    symmetry. unfold addressedBy. apply existsb_exists. exists s. split; [exact Hs|].
    rewrite Hj. apply String.eqb_refl.
  - intros t Hne.
    assert (Hsame : JsSet.has selAll (keyOf t) = JsSet.has sel (keyOf t)).
    { unfold selAll, keyOf. rewrite has_headerOnChange.
      rewrite addressedBy_other_entry by exact Hne. reflexivity. }
    split; intros Hin;
      destruct (collectEntries_In _ _ _ _ Hin) as (_ & He & Hs & Hk);
      rewrite Nat.sub_0_r in He;
      [rewrite Hsame in Hk | rewrite <- Hsame in Hk];
      pose proof (collectEntries_complete _ entries 0 (entryIndex t) (simIndex t)
                    (entry t) (sim t) He Hs Hk) as Hc;
      destruct t; exact Hc.
Qed.

Lemma select_all_is_collected_witness :
  exists t,
    In t (getSelectedTrademarksData (Some Sample.report)
            (headerOnChange true Sample.tiger 0 [Sample.tyger] JsSet.empty))
    /\ entryIndex t = 0
    /\ entry t = Sample.tiger
    /\ sameSimTable Sample.tyger (sim t) = true.
Proof.
  destruct (select_all_is_collected Sample.report
              (mkEntryWithMatches 0 Sample.tiger [Sample.tyger]) JsSet.empty) as [H _].
  - vm_compute. left. reflexivity.
  - intros s [<-|[]]. reflexivity.
  - apply (H Sample.tyger). left. reflexivity.
Defined.

(** ** Timestamps of the server *)

Lemma split_absent (sep : ascii) (a : string) :
  JsString.allChars (fun c => negb (Ascii.eqb c sep)) a = true ->
  DateText.split sep a = [a].
Proof.
  induction a as [|c a IH]; [reflexivity|]. cbn [JsString.allChars DateText.split].
  intros H. apply andb_true_iff in H. destruct H as [Hc Ha].
  apply negb_true_iff in Hc. rewrite Hc, (IH Ha). reflexivity.
Qed.

Lemma split_at (sep : ascii) (a b : string) :
  JsString.allChars (fun c => negb (Ascii.eqb c sep)) a = true ->
  DateText.split sep (a ++ String sep b) = a :: DateText.split sep b.
Proof.
  induction a as [|c a IH].
  - intros _. cbn [append DateText.split]. rewrite Ascii.eqb_refl. reflexivity.
  - cbn [JsString.allChars]. intros H. apply andb_true_iff in H. destruct H as [Hc Ha].
    apply negb_true_iff in Hc.
    change (String c a ++ String sep b) with (String c (a ++ String sep b)).
    cbn [DateText.split]. rewrite Hc, (IH Ha). reflexivity.
Qed.

Lemma digit_differs (sep c : ascii) :
  JsString.isDigit sep = false -> JsString.isDigit c = true ->
  negb (Ascii.eqb c sep) = true.
Proof.
  intros Hsep Hc. apply negb_true_iff. destruct (Ascii.eqb_spec c sep) as [->|]; congruence.
Qed.

Lemma digits_free (sep : ascii) (s : string) :
  JsString.isDigit sep = false -> JsString.allChars JsString.isDigit s = true ->
  JsString.allChars (fun c => negb (Ascii.eqb c sep)) s = true.
Proof. intros Hsep. apply allChars_impl. intros c. apply digit_differs. exact Hsep. Qed.

Lemma ymdText_free (sep : ascii) (y m d : Z) :
  JsString.isDigit sep = false -> Ascii.eqb "-" sep = false ->
  (0 <= y)%Z -> (0 <= m <= 59)%Z -> (0 <= d <= 59)%Z ->
  JsString.allChars (fun c => negb (Ascii.eqb c sep)) (ymdText y m d) = true.
Proof.
  intros Hsep Hdash Hy Hm Hd. unfold ymdText.
  rewrite !allChars_app. cbn [JsString.allChars]. rewrite Hdash. cbn [negb andb].
  rewrite (digits_free sep _ Hsep (proj2 (ofZ_digits y Hy))).
  rewrite (digits_free sep _ Hsep (proj1 (Number_two_digits m Hm))).
  rewrite (digits_free sep _ Hsep (proj1 (Number_two_digits d Hd))).
  reflexivity.
Qed.

Lemma hmsText_free (sep : ascii) (h mi s : Z) :
  JsString.isDigit sep = false -> Ascii.eqb ":" sep = false ->
  (0 <= h <= 59)%Z -> (0 <= mi <= 59)%Z -> (0 <= s <= 59)%Z ->
  JsString.allChars (fun c => negb (Ascii.eqb c sep)) (hmsText h mi s) = true.
Proof.
  intros Hsep Hcolon Hh Hmi Hs. unfold hmsText.
  rewrite !allChars_app. cbn [JsString.allChars]. rewrite Hcolon. cbn [negb andb].
  rewrite (digits_free sep _ Hsep (proj1 (Number_two_digits h Hh))).
  rewrite (digits_free sep _ Hsep (proj1 (Number_two_digits mi Hmi))).
  rewrite (digits_free sep _ Hsep (proj1 (Number_two_digits s Hs))).
  reflexivity.
Qed.

Lemma split_ymdText (y m d : Z) :
  (0 <= y)%Z -> (0 <= m <= 59)%Z -> (0 <= d <= 59)%Z ->
  map DateText.Number (DateText.split "-" (ymdText y m d)) = [Some y; Some m; Some d].
Proof.
  intros Hy Hm Hd. unfold ymdText.
  rewrite split_digits_dash by (apply ofZ_digits; lia).
  rewrite split_digits_dash by (apply Number_two_digits; lia).
  rewrite split_digits by (apply Number_two_digits; lia). cbn [map].
  rewrite (Number_ofZ y Hy), (proj2 (Number_two_digits m Hm)),
    (proj2 (Number_two_digits d Hd)).
  reflexivity.
Qed.

Lemma split_hmsText (h mi s : Z) :
  (0 <= h <= 59)%Z -> (0 <= mi <= 59)%Z -> (0 <= s <= 59)%Z ->
  map DateText.Number (DateText.split ":" (hmsText h mi s)) = [Some h; Some mi; Some s].
Proof.
  intros Hh Hmi Hs. unfold hmsText.
  change (padStart2 (JsString.ofZ h) ++ ":" ++ padStart2 (JsString.ofZ mi) ++ ":"
          ++ padStart2 (JsString.ofZ s))
    with (padStart2 (JsString.ofZ h)
          ++ String ":" (padStart2 (JsString.ofZ mi)
                         ++ String ":" (padStart2 (JsString.ofZ s)))).
  rewrite split_at by (apply digits_free; [reflexivity | apply Number_two_digits; lia]).
  rewrite split_at by (apply digits_free; [reflexivity | apply Number_two_digits; lia]).
  rewrite split_absent by (apply digits_free; [reflexivity | apply Number_two_digits; lia]).
  cbn [map].
  rewrite (proj2 (Number_two_digits h Hh)), (proj2 (Number_two_digits mi Hmi)),
    (proj2 (Number_two_digits s Hs)).
  reflexivity.
Qed.

Lemma includes_at (sep : ascii) (a b : string) :
  JsString.includes (String sep "") (a ++ String sep b) = true.
Proof.
  apply includes_app_r. rewrite includes_unfold.
  change (String sep b) with (String sep "" ++ b). rewrite prefix_self_app. reflexivity.
Qed.

Lemma UTC_instant (y m d h mi s : Z) :
  (100 <= y)%Z -> (1 <= m <= 12)%Z ->
  JsDate.UTC (Some y) (Some (m - 1)%Z) (Some d) (Some h) (Some mi) (Some s)
  = JsDate.TimeClip (JsDate.daysFromCivil y m d * JsDate.msPerDay
                     + h * 3600000 + mi * 60000 + s * 1000)%Z.
Proof.
  intros Hy Hm. unfold JsDate.UTC.
  replace ((0 <=? y)%Z && (y <=? 99)%Z) with false
    by (symmetry; apply andb_false_iff; right; apply Z.leb_gt; lia).
  f_equal. rewrite (MakeDay_same_month y m d d Hm).
  unfold JsDate.MakeDate, JsDate.MakeTime. lia.
Qed.

(** X20.  A timestamp of the server, a date followed by "T" and a time
    of the day, is read as that instant of UTC; a fraction of the second
    written after a "." is dropped; and the same date and time separated
    by a space give the same instant. *)
Theorem timestamp_is_read_as_UTC :
  forall (y m d h mi s : Z) (fraction : string),
    (100 <= y <= 9999)%Z -> (1 <= m <= 12)%Z -> (1 <= d <= 31)%Z ->
    (0 <= h <= 23)%Z -> (0 <= mi <= 59)%Z -> (0 <= s <= 59)%Z ->
    JsString.allChars JsString.isDigit fraction = true ->
    let instant :=
      Some (JsDate.daysFromCivil y m d * JsDate.msPerDay
            + h * 3600000 + mi * 60000 + s * 1000)%Z in
    DateText.parseServerDate (ymdText y m d ++ "T" ++ hmsText h mi s ++ "." ++ fraction)
    = instant
    /\ DateText.parseServerDate (ymdText y m d ++ "T" ++ hmsText h mi s) = instant
    /\ DateText.parseServerDate (ymdText y m d ++ " " ++ hmsText h mi s) = instant.
Proof.
  intros y m d h mi s fraction Hy Hm Hd Hh Hmi Hs Hfrac instant.
  assert (Hclip : JsDate.TimeClip (JsDate.daysFromCivil y m d * JsDate.msPerDay
                                   + h * 3600000 + mi * 60000 + s * 1000)%Z = instant).
  { apply TimeClip_in_range. unfold JsDate.daysFromCivil, JsDate.msPerDay. cbv zeta.
    destruct (m <=? 2)%Z, (2 <? m)%Z; Z.div_mod_to_equations; lia. }
  assert (Hdate : map DateText.Number (DateText.split "-" (ymdText y m d))
                  = [Some y; Some m; Some d]) by (apply split_ymdText; lia).
  assert (Htime : map DateText.Number (DateText.split ":" (hmsText h mi s))
                  = [Some h; Some mi; Some s]) by (apply split_hmsText; lia).
  assert (HdT : JsString.allChars (fun c => negb (Ascii.eqb c "T")) (ymdText y m d) = true)
    by (apply ymdText_free; (reflexivity || lia)).
  assert (HtT : JsString.allChars (fun c => negb (Ascii.eqb c "T")) (hmsText h mi s) = true)
    by (apply hmsText_free; (reflexivity || lia)).
  assert (Htdot : JsString.allChars (fun c => negb (Ascii.eqb c ".")) (hmsText h mi s) = true)
    by (apply hmsText_free; (reflexivity || lia)).
  assert (Hdsp : JsString.allChars (fun c => negb (Ascii.eqb c " ")) (ymdText y m d) = true)
    by (apply ymdText_free; (reflexivity || lia)).
  assert (Htsp : JsString.allChars (fun c => negb (Ascii.eqb c " ")) (hmsText h mi s) = true)
    by (apply hmsText_free; (reflexivity || lia)).
  split; [|split].
  - change (ymdText y m d ++ "T" ++ hmsText h mi s ++ "." ++ fraction)
      with (ymdText y m d ++ String "T" (hmsText h mi s ++ String "." fraction)).
    unfold DateText.parseServerDate. cbv zeta.
    rewrite includes_at, (split_at "T" _ _ HdT).
    rewrite (split_absent "T" (hmsText h mi s ++ String "." fraction))
      by (rewrite allChars_app; cbn [JsString.allChars]; rewrite HtT;
          rewrite (digits_free "T" fraction eq_refl Hfrac); reflexivity).
    cbn [nth]. rewrite Hdate, (split_at "." _ _ Htdot). cbn [nth]. rewrite Htime.
    cbn [nth_error option_map DateText.orZeroZ].
    rewrite UTC_instant by lia. exact Hclip.
  - change (ymdText y m d ++ "T" ++ hmsText h mi s)
      with (ymdText y m d ++ String "T" (hmsText h mi s)).
    unfold DateText.parseServerDate. cbv zeta.
    rewrite includes_at, (split_at "T" _ _ HdT), (split_absent "T" _ HtT).
    cbn [nth]. rewrite Hdate, (split_absent "." _ Htdot). cbn [nth]. rewrite Htime.
    cbn [nth_error option_map DateText.orZeroZ].
    rewrite UTC_instant by lia. exact Hclip.
  - change (ymdText y m d ++ " " ++ hmsText h mi s)
      with (ymdText y m d ++ String " " (hmsText h mi s)).
    unfold DateText.parseServerDate. cbv zeta.
    rewrite (includes_char_absent "T" (ymdText y m d ++ String " " (hmsText h mi s)))
      by (rewrite allChars_app; cbn [JsString.allChars]; rewrite HdT, HtT; reflexivity).
    rewrite includes_at, (split_at " " _ _ Hdsp), (split_absent " " _ Htsp).
    cbn [nth]. rewrite Hdate, Htime.
    cbn [nth_error option_map DateText.orZeroZ].
    rewrite UTC_instant by lia. exact Hclip.
Qed.

Lemma timestamp_is_read_as_UTC_witness :
  DateText.parseServerDate "2025-12-29T19:29:13.792941" = Some 1767036553000%Z.
Proof.
  refine (proj1 (timestamp_is_read_as_UTC 2025 12 29 19 29 13 "792941" _ _ _ _ _ _ _));
    try lia. reflexivity.
Defined.

(** ** A match is listed under its own journal entry *)

Section MapPairs.

Context {K V : Type} (eqb : K -> K -> bool).
Hypothesis eqb_eq : forall a b, eqb a b = true <-> a = b.

Lemma Forall_set_pair (P : K * V -> Prop) (m : list (K * V)) (k : K) (v : V) :
  Forall P m -> P (k, v) -> Forall P (JsMap.set eqb k v m).
Proof.
  intros Hm Hv. induction m as [|[k' v0] m IH]; simpl.
  - constructor; [exact Hv | constructor].
  - inversion Hm as [|? ? H0 Hr]; subst.
    destruct (eqb k' k) eqn:E.
    + apply eqb_eq in E. subst k'. constructor; assumption.
    + constructor; [exact H0 | apply IH; exact Hr].
Qed.

Lemma Forall_ensure_pair (P : K * V -> Prop) (m : list (K * V)) (k : K) (v0 : V) :
  Forall P m -> P (k, v0) -> Forall P (JsMap.ensure eqb k v0 m).
Proof.
  intros Hm Hv. unfold JsMap.ensure. destruct (JsMap.has eqb k m); [exact Hm|].
  apply Forall_set_pair; assumption.
Qed.

End MapPairs.

Lemma filedUnderOwnEntry_more (done : list SelectedTrademark) (t : SelectedTrademark)
    (ie : nat * EntryGroup) :
  filedUnderOwnEntry done ie -> filedUnderOwnEntry (done ++ [t]) ie.
Proof.
  intros [t' [Hin H]]. exists t'. split; [apply in_or_app; left; exact Hin | exact H].
Qed.

Lemma groupOne_entries (grouped : Grouped) (done : list SelectedTrademark)
    (t : SelectedTrademark) :
  Forall (fun ne => Forall (filedUnderOwnEntry done) (snd ne)) grouped ->
  Forall (fun ne => Forall (filedUnderOwnEntry (done ++ [t])) (snd ne)) (groupOne grouped t).
Proof.
  intros Hinv. rewrite groupOne_unfold. cbv zeta.
  set (name := applicantKey (sim t)).
  set (fresh := {| group_entry := entry t; similarTrademarks := [] |}).
  set (es := match JsMap.get String.eqb name grouped with Some v => v | None => [] end).
  set (g0 := match JsMap.get Nat.eqb (entryIndex t) es with Some v => v | None => fresh end).
  set (es1 := JsMap.ensure Nat.eqb (entryIndex t) fresh es).
  set (g1 := JsMap.ensure String.eqb name [] grouped).
  assert (Hmore : Forall (fun ne : string * ApplicantEntries =>
                            Forall (filedUnderOwnEntry (done ++ [t])) (snd ne)) grouped).
  { eapply Forall_impl; [|exact Hinv]. intros ne Hne.
    eapply Forall_impl; [|exact Hne]. intros ie. apply filedUnderOwnEntry_more. }
  assert (Hg1 : Forall (fun ne : string * ApplicantEntries =>
                          Forall (filedUnderOwnEntry (done ++ [t])) (snd ne)) g1).
  { apply (Forall_ensure String.eqb
             (fun v : ApplicantEntries => Forall (filedUnderOwnEntry (done ++ [t])) v));
      [exact Hmore | constructor]. }
  assert (Hes : Forall (filedUnderOwnEntry (done ++ [t])) es).
  { exact (get_Forall String.eqb
             (fun v : ApplicantEntries => Forall (filedUnderOwnEntry (done ++ [t])) v)
             g1 name es Hg1 (get_ensure String.eqb String.eqb_eq grouped name [])). }
  assert (Hfresh : filedUnderOwnEntry (done ++ [t]) (entryIndex t, fresh)).
  { exists t. split; [apply in_or_app; right; left; reflexivity | split; reflexivity]. }
  assert (Hes1 : Forall (filedUnderOwnEntry (done ++ [t])) es1)
    by (apply (Forall_ensure_pair Nat.eqb Nat.eqb_eq); assumption).
  assert (Hg0 : filedUnderOwnEntry (done ++ [t]) (entryIndex t, g0)).
  { apply (proj1 (Forall_forall _ _) Hes1).
    apply (In_get Nat.eqb Nat.eqb_eq). apply (get_ensure Nat.eqb Nat.eqb_eq). }
  apply (Forall_set String.eqb
           (fun v : ApplicantEntries => Forall (filedUnderOwnEntry (done ++ [t])) v));
    [exact Hg1|].
  apply (Forall_set_pair Nat.eqb Nat.eqb_eq); [exact Hes1|].
  destruct Hg0 as [t' [Hin [Hi He]]]. exists t'. repeat split; assumption.
Qed.

Lemma groupFold_entries (l : list SelectedTrademark) :
  forall (grouped : Grouped) (done : list SelectedTrademark),
    Forall (fun ne => Forall (filedUnderOwnEntry done) (snd ne)) grouped ->
    Forall (fun ne => Forall (filedUnderOwnEntry (done ++ l)) (snd ne))
           (fold_left groupOne l grouped).
Proof.
  induction l as [|t l IH]; intros grouped done H; simpl.
  - rewrite app_nil_r. exact H.
  - replace (done ++ t :: l)%list with ((done ++ [t]) ++ l)%list
      by (rewrite <- app_assoc; reflexivity).
    apply IH. apply groupOne_entries. exact H.
Qed.

Lemma entrySection_in_template (offset : Z) (name : string) (es : ApplicantEntries)
    (mondayDate : string) (i : nat) (ie : nat * EntryGroup) :
  nth_error es i = Some ie ->
  JsString.includes (entrySection mondayDate (List.length es) i (snd ie))
    (generateEmailTemplate offset name es mondayDate) = true.
Proof.
  intros Hi. unfold generateEmailTemplate. cbv zeta.
  do 5 apply includes_app_l. apply includes_app_r.
  apply (includes_concat _ (entrySection mondayDate (List.length es) i (snd ie)));
    [|apply includes_self].
  unfold JsArray.mapi. apply in_mapi_from. exists i, ie. split; [exact Hi | reflexivity].
Qed.

(** X21.  For a selection collected on the report page, every selected
    match is listed, in the notice of its applicant, in a section whose
    heading is the journal entry the match belongs to: the section of
    its entry position holds that entry and lists the match, and the
    text of that section is part of the notice. *)
Theorem match_listed_under_own_entry :
  forall (localOffsetMinutes : Z) (reportData : ReportData.t) (sel : JsSet.t)
         (monday_date : string) (t : SelectedTrademark),
    let selectedTrademarks := getSelectedTrademarksData (Some reportData) sel in
    In t selectedTrademarks ->
    exists (es : ApplicantEntries) (i : nat) (g : EntryGroup),
      In (applicantKey (sim t), es) (groupByApplicant selectedTrademarks)
      /\ nth_error es i = Some (entryIndex t, g)
      /\ group_entry g = entry t
      /\ In (sim t) (similarTrademarks g)
      /\ JsString.includes (entrySection monday_date (List.length es) i g)
           (generateEmailTemplate localOffsetMinutes (applicantKey (sim t)) es monday_date)
         = true.
Proof.
  intros offset reportData sel monday t l Ht.
  destruct (groupByApplicant_spec l) as [_ Hperm].
  assert (Hin : In (placeOf t) (membersOfGrouped (groupByApplicant l))).
  { apply (Permutation_in _ (Permutation_sym Hperm)). apply in_map. exact Ht. }
  unfold membersOfGrouped in Hin. apply in_flat_map in Hin.
  destruct Hin as [[name es] [Hne Hin]]. unfold membersOfEntries in Hin.
  apply in_flat_map in Hin. destruct Hin as [[idx g] [Hie Hin]].
  apply in_map_iff in Hin. destruct Hin as [s [Heq Hs]].
  unfold placeOf in Heq. cbn [fst snd] in Heq, Hs. injection Heq as Hname Hidx Hsim.
  subst s name idx.
  pose proof (groupFold_entries l [] [] (Forall_nil _)) as Hinv. cbn [app] in Hinv.
  fold (groupByApplicant l) in Hinv.
  pose proof (proj1 (Forall_forall _ _) Hinv _ Hne) as Hes. cbn [snd] in Hes.
  destruct (proj1 (Forall_forall _ _) Hes _ Hie) as [t' [Ht' [Hi' He']]].
  cbn [fst snd] in Hi', He'.
  assert (Hentry : entry t' = entry t).
  { unfold l, getSelectedTrademarksData in Ht, Ht'.
    destruct (collectEntries_In _ _ _ _ Ht) as (_ & H1 & _).
    destruct (collectEntries_In _ _ _ _ Ht') as (_ & H2 & _).
    rewrite Hi' in H2. rewrite H1 in H2. injection H2 as H2. symmetry. exact H2. }
  apply In_nth_error in Hie. destruct Hie as [i Hi].
  exists es, i, g. split; [exact Hne|]. split; [exact Hi|].
  split; [rewrite <- He'; exact Hentry|]. split; [exact Hs|].
  exact (entrySection_in_template offset _ es monday i _ Hi).
Qed.

Lemma match_listed_under_own_entry_witness :
  exists (es : ApplicantEntries) (i : nat) (g : EntryGroup),
    In ("Acme Corp", es)
       (groupByApplicant (getSelectedTrademarksData (Some Sample.report) [trademarkId 0 0]))
    /\ nth_error es i = Some (0, g)
    /\ group_entry g = Sample.tiger
    /\ In Sample.tyger (similarTrademarks g)
    /\ JsString.includes (entrySection "2025-01-06" (List.length es) i g)
         (generateEmailTemplate 330 "Acme Corp" es "2025-01-06") = true.
Proof.
  apply (match_listed_under_own_entry 330 Sample.report [trademarkId 0 0] "2025-01-06"
           (mkSelected Sample.tiger Sample.tyger 0 0)).
  left. reflexivity.
Defined.

(** ** The keys the two views bind to a match *)

Lemma sameSimApplicantView_table (c s : Sim) :
  sameSimApplicantView c s
  = sameSimTable c s
    && optStringEqb (SimilarTrademark.trademark_class s) (SimilarTrademark.trademark_class c).
Proof. reflexivity. Qed.

(** X22.  Whenever the applicant-filtered view finds a position for a
    match, the table of the entry finds one too, the same or an earlier
    one; the two views bind the checkbox of the match to the same key
    exactly when the row the table finds also agrees with the match on
    the class.  Otherwise the match is selected under one key in the
    table and under a later key in the applicant view. *)
Theorem views_agree_on_key_iff_class :
  forall (sims : list Sim) (s : Sim) (viewIndex : nat),
    actualSimIndexApplicantView sims s = Some viewIndex ->
    exists (tableIndex : nat) (row : Sim),
      actualSimIndexTable sims s = Some tableIndex
      /\ nth_error sims tableIndex = Some row
      /\ tableIndex <= viewIndex
      /\ (tableIndex = viewIndex
          <-> optStringEqb (SimilarTrademark.trademark_class row)
                           (SimilarTrademark.trademark_class s) = true).
Proof.
  intros sims s jv Hv. unfold actualSimIndexApplicantView in Hv.
  destruct (findIndex_Some_first _ sims jv Hv) as [[xv [Hxv Hpv]] Hminv].
  rewrite sameSimApplicantView_table in Hpv. apply andb_true_iff in Hpv.
  destruct Hpv as [Htab Hclass].
  destruct (findIndex_hit (sameSimTable s) sims jv xv Hxv Htab) as [jt [Hjt Hle]].
  destruct (findIndex_Some_first _ sims jt Hjt) as [[xt [Hxt Hpt]] _].
  exists jt, xt. split; [exact Hjt|]. split; [exact Hxt|]. split; [exact Hle|]. split.
  - intros ->. rewrite Hxv in Hxt. injection Hxt as <-. exact Hclass.
  - intros Hc. destruct (Nat.eq_dec jt jv) as [|Hne]; [assumption|].
    assert (Hlt : jt < jv) by lia.
    pose proof (Hminv jt xt Hlt Hxt) as Hfalse.
    rewrite sameSimApplicantView_table, Hpt, Hc in Hfalse. discriminate.
Qed.

Lemma views_agree_on_key_iff_class_witness :
  exists (tableIndex : nat) (row : Sim),
    actualSimIndexTable Sample.dupSims Sample.dupSecond = Some tableIndex
    /\ nth_error Sample.dupSims tableIndex = Some row
    /\ tableIndex <= 0
    /\ (tableIndex = 0
        <-> optStringEqb (SimilarTrademark.trademark_class row)
                         (SimilarTrademark.trademark_class Sample.dupSecond) = true).
Proof.
  apply (views_agree_on_key_iff_class Sample.dupSims Sample.dupSecond 0). reflexivity.
Defined.

(** ** A journal date that is not a date *)

Lemma parseServerDate_short (text : string) :
  JsString.includes "T" text = false ->
  JsString.includes " " text = false ->
  List.length (DateText.split "-" text) < 3 ->
  DateText.parseServerDate text = None.
Proof.
  intros HT Hsp Hlen. unfold DateText.parseServerDate. cbv zeta. rewrite HT, Hsp.
  assert (Hday : nth_error (map DateText.Number (DateText.split "-" text)) 2 = None)
    by (apply nth_error_None; rewrite length_map; lia).
  rewrite Hday. unfold JsDate.UTC.
  destruct (nth_error (map DateText.Number (DateText.split "-" text)) 0) as [[y|]|];
    destruct (nth_error (map DateText.Number (DateText.split "-" text)) 1) as [[m|]|];
    reflexivity.
Qed.

(** X23.  A journal date with fewer than three parts between dashes
    (the empty text, a year alone, a year and a month) is not a date:
    the notice then reads "Invalid Date" both for the journal date and
    for the deadline, in every zone; the text "N/A" that the code keeps
    for a failure is not what is shown. *)
Theorem short_date_reads_invalid :
  forall (offset : Z) (text : string),
    JsString.includes "T" text = false ->
    JsString.includes " " text = false ->
    List.length (DateText.split "-" text) < 3 ->
    formatDate text = "Invalid Date"
    /\ formatOppositionDeadline offset text = "Invalid Date"
    /\ formatJournalInfo text None = "Invalid Date".
Proof.
  intros offset text HT Hsp Hlen.
  pose proof (parseServerDate_short text HT Hsp Hlen) as Hparse.
  assert (Hdate : formatDate text = "Invalid Date")
    by (unfold formatDate; rewrite Hparse; reflexivity).
  split; [exact Hdate|]. split.
  - unfold formatOppositionDeadline. cbv zeta. rewrite Hparse. reflexivity.
  - unfold formatJournalInfo. cbv zeta. rewrite Hdate. reflexivity.
Qed.

Lemma short_date_reads_invalid_witness :
  formatOppositionDeadline 330 "2025-01" = "Invalid Date".
Proof.
  refine (proj1 (proj2 (short_date_reads_invalid 330 "2025-01" _ _ _))).
  - reflexivity.
  - reflexivity.
  - vm_compute. lia.
Defined.

(** ** The position reconciliation returns *)






(** The positions found in the two sequences above, and in a sequence
    where no earlier element agrees with the match. *)
Example reconcile_positions :
  actualSimIndexApplicantView
    [Sample.tygerClass9; Sample.dupFirst; Sample.dupSecond] Sample.dupSecond = Some 1
  /\ actualSimIndexTable
       [Sample.tygerPercent; Sample.dupFirst; Sample.dupSecond] Sample.dupSecond = Some 1
  /\ actualSimIndexApplicantView
       [Sample.tygerClass9; Sample.tygerPercent; Sample.tyger] Sample.tyger = Some 2.
Proof. repeat split; vm_compute; reflexivity. Qed.

(** Where an earlier element differs from the match in class alone, the
    applicant-filtered view finds the match itself and the table finds
    the earlier element: the table's callback does not compare the
    class, which the applicant view, with the comment "Match by key
    properties to ensure we get the right one", does. *)
Example table_omits_class :
  actualSimIndexApplicantView [Sample.tyger; Sample.tygerClass9] Sample.tygerClass9 = Some 1
  /\ actualSimIndexTable [Sample.tyger; Sample.tygerClass9] Sample.tygerClass9 = Some 0.
Proof. split; vm_compute; reflexivity. Qed.


(** ** A [null] element met by reconciliation *)

Lemma findIndex_no_null (p : Sim -> bool) (sims : list Sim) :
  Nullable.findIndex p (map Some sims) = Returned (JsArray.findIndex p sims).
Proof.
  induction sims as [|a sims IH]; simpl; [reflexivity|].
  destruct (p a); [reflexivity|]. rewrite IH. reflexivity.
Qed.

Lemma findIndex_at_null (p : Sim -> bool) (before : list Sim) (after : list (option Sim)) :
  (forall s, In s before -> p s = false) ->
  Nullable.findIndex p (map Some before ++ None :: after) = TypeError.
Proof.
  induction before as [|a before IH]; intros Hb; simpl; [reflexivity|].
  rewrite (Hb a (or_introl eq_refl)), IH; [reflexivity|].
  intros s Hs. apply Hb. right. exact Hs.
Qed.

(** On an array without a [null] element the filter and the two renders
    are the ones of the typed page, and nothing is thrown. *)
Lemma filter_no_null (sims : list Sim) (minThreshold : float) :
  Nullable.getFilteredSimilarTrademarks (map Some sims) minThreshold
  = getFilteredSimilarTrademarks sims minThreshold.
Proof.
  unfold getFilteredSimilarTrademarks.
  induction sims as [|a sims IH]; simpl; [reflexivity|].
  rewrite IH. reflexivity.
Qed.

Lemma renderTableRow_no_null sel entry e sim k :
  Nullable.renderTableRow sel (map Some (similarTrademarksOf entry)) e sim k
  = returned (renderTableRow sel entry e sim k).
Proof.
  unfold Nullable.renderTableRow, Nullable.actualSimIndexTable, renderTableRow,
    actualSimIndexTable.
  rewrite findIndex_no_null.
  destruct (JsArray.findIndex (sameSimTable sim) (similarTrademarksOf entry)); reflexivity.
Qed.

Lemma renderTableRows_no_null sel entry e filtered :
  Nullable.renderTableRows sel (map Some (similarTrademarksOf entry)) e filtered
  = returned (renderTableRows sel entry e filtered).
Proof.
  unfold Nullable.renderTableRows, renderTableRows. generalize 0 as k.
  induction filtered as [|sim rest IH]; intros k; [reflexivity|].
  cbn [Nullable.renderTableRowsFrom renderTableRowsFrom].
  rewrite renderTableRow_no_null, IH.
  destruct (renderTableRow sel entry e sim k) as [row l1].
  destruct (renderTableRowsFrom sel entry e (S k) rest) as [rows l2].
  unfold returned, bind, ret. simpl. rewrite !app_nil_r. reflexivity.
Qed.

Lemma renderMatchCard_no_null sel entries e m k :
  Nullable.renderMatchCard sel (map (fun entry => map Some (similarTrademarksOf entry)) entries)
    e m k
  = returned (renderMatchCard sel entries e m k).
Proof.
  unfold Nullable.renderMatchCard, Nullable.actualSimIndexApplicantView, renderMatchCard,
    actualSimIndexApplicantView.
  rewrite nth_error_map.
  destruct (nth_error entries e) as [entryForMatch|]; [|reflexivity].
  cbn [option_map]. rewrite findIndex_no_null.
  destruct (JsArray.findIndex (sameSimApplicantView (match_sim m))
              (similarTrademarksOf entryForMatch)); reflexivity.
Qed.

Lemma renderMatchCards_no_null sel entries e matches :
  Nullable.renderMatchCards sel
    (map (fun entry => map Some (similarTrademarksOf entry)) entries) e matches
  = returned (renderMatchCards sel entries e matches).
Proof.
  unfold Nullable.renderMatchCards, renderMatchCards. generalize 0 as k.
  induction matches as [|m rest IH]; intros k; [reflexivity|].
  cbn [Nullable.renderMatchCardsFrom renderMatchCardsFrom].
  rewrite renderMatchCard_no_null, IH.
  destruct (renderMatchCard sel entries e m k) as [card l1].
  destruct (renderMatchCardsFrom sel entries e (S k) rest) as [cards l2].
  unfold returned, bind, ret. simpl. rewrite !app_nil_r. reflexivity.
Qed.

(** The filter steps over a [null] element. *)
Lemma filter_steps_over_null (before : list Sim) (after : list (option Sim))
    (minThreshold : float) :
  Nullable.getFilteredSimilarTrademarks (map Some before ++ None :: after) minThreshold
  = Nullable.getFilteredSimilarTrademarks (map Some before ++ after) minThreshold.
Proof.
  induction before as [|a before IH]; simpl; [reflexivity|].
  rewrite IH. reflexivity.
Qed.

(** An exception of one row leaves the whole [map]. *)
Lemma rows_thrown sel arr e (sim : Sim) (filtered : list Sim) :
  In sim filtered ->
  Nullable.actualSimIndexTable arr sim = TypeError ->
  forall k, fst (Nullable.renderTableRowsFrom sel arr e k filtered) = TypeError.
Proof.
  intros Hin Hthrow. induction filtered as [|a rest IH]; [destruct Hin|].
  intros k. cbn [Nullable.renderTableRowsFrom].
  destruct (Nullable.renderTableRow sel arr e a k) as [[row|] l1] eqn:Hrow;
    [|reflexivity].
  destruct Hin as [->|Hin].
  - unfold Nullable.renderTableRow in Hrow. rewrite Hthrow in Hrow. discriminate Hrow.
  - specialize (IH Hin (S k)).
    destruct (Nullable.renderTableRowsFrom sel arr e (S k) rest) as [[rows|] l2];
      [discriminate IH | reflexivity].
Qed.

Lemma cards_thrown sel entries arr e (m : Match) (matches : list Match) :
  nth_error entries e = Some arr ->
  In m matches ->
  Nullable.actualSimIndexApplicantView arr (match_sim m) = TypeError ->
  forall k, fst (Nullable.renderMatchCardsFrom sel entries e k matches) = TypeError.
Proof.
  intros He Hin Hthrow. induction matches as [|a rest IH]; [destruct Hin|].
  intros k. cbn [Nullable.renderMatchCardsFrom].
  destruct (Nullable.renderMatchCard sel entries e a k) as [[card|] l1] eqn:Hcard;
    [|reflexivity].
  destruct Hin as [->|Hin].
  - unfold Nullable.renderMatchCard in Hcard. rewrite He, Hthrow in Hcard.
    discriminate Hcard.
  - specialize (IH Hin (S k)).
    destruct (Nullable.renderMatchCardsFrom sel entries e (S k) rest) as [[cards|] l2];
      [discriminate IH | reflexivity].
Qed.

(** C8 (the code departs from it).  Let the array of an entry hold a
    [null] element.  The filter of the table steps over it, as it does
    when the element is not there.  But as soon as one match that the
    view shows agrees with no element standing before the [null]
    element, the callback of [findIndex] reads [s.mark] of the [null]
    element and throws: the [map] that renders the rows of the entry is
    left with a [TypeError], and no row is rendered, neither that of
    the match nor those of its siblings.  The same holds for the cards
    of the applicant-filtered view. *)
Theorem null_element_halts_rendering :
  forall (sel : JsSet.t) (before : list Sim) (after : list (option Sim))
         (entries : list (list (option Sim))) (e : nat) (minThreshold : float)
         (sim : Sim) (matches : list Match),
    let entrySimilarTrademarks := (map Some before ++ None :: after)%list in
    let filtered :=
      Nullable.getFilteredSimilarTrademarks entrySimilarTrademarks minThreshold in
    nth_error entries e = Some entrySimilarTrademarks ->
    filtered
      = Nullable.getFilteredSimilarTrademarks (map Some before ++ after) minThreshold
    /\ (In sim filtered ->
        (forall s, In s before -> sameSimTable sim s = false) ->
        fst (Nullable.renderTableRows sel entrySimilarTrademarks e filtered) = TypeError)
    /\ (In (mkMatch e sim) matches ->
        (forall s, In s before -> sameSimApplicantView sim s = false) ->
        fst (Nullable.renderMatchCards sel entries e matches) = TypeError).
Proof.
  intros sel before after entries e minThreshold sim matches
         entrySimilarTrademarks filtered He.
  split; [apply filter_steps_over_null|]. split.
  - intros Hin Hb. unfold Nullable.renderTableRows.
    apply (rows_thrown sel entrySimilarTrademarks e sim filtered Hin).
    apply findIndex_at_null. exact Hb.
  - intros Hin Hb. unfold Nullable.renderMatchCards.
    apply (cards_thrown sel entries entrySimilarTrademarks e (mkMatch e sim) matches He Hin).
    apply findIndex_at_null. exact Hb.
Qed.

Lemma null_element_halts_rendering_witness :
  Nullable.getFilteredSimilarTrademarks Sample.nullThenTyger Score.minThresholdDefault
  = [Sample.tyger]
  /\ fst (Nullable.renderTableRows JsSet.empty Sample.nullThenTyger 0
            (Nullable.getFilteredSimilarTrademarks Sample.nullThenTyger
               Score.minThresholdDefault))
     = TypeError
  /\ fst (Nullable.renderMatchCards JsSet.empty [Sample.nullThenTyger] 0
            (Nullable.getFilteredMatchesByApplicant "Acme Corp" [Sample.nullThenTyger]))
     = TypeError.
Proof.
  destruct (null_element_halts_rendering JsSet.empty [] [Some Sample.tyger]
              [Sample.nullThenTyger] 0 Score.minThresholdDefault Sample.tyger
              (Nullable.getFilteredMatchesByApplicant "Acme Corp" [Sample.nullThenTyger])
              eq_refl)
    as [Hfilter [Htable Hcards]].
  split; [|split].
  - vm_compute. reflexivity.
  - apply Htable.
    + vm_compute. left. reflexivity.
    + intros s [].
  - apply Hcards.
    + vm_compute. left. reflexivity.
    + intros s [].
Defined.

(** The same entry without the [null] element: the row of the match is
    rendered, under the key of position 0. *)
Example without_null_row_is_rendered :
  option_map (map (option_map row_trademarkId))
    (match fst (Nullable.renderTableRows JsSet.empty [Some Sample.tyger] 0
                  (Nullable.getFilteredSimilarTrademarks [Some Sample.tyger]
                     Score.minThresholdDefault)) with
     | Returned rows => Some rows
     | TypeError => None
     end)
  = Some [Some "0-0"].
Proof. vm_compute. reflexivity. Qed.
